(** * Phantasmagoria: the bounded conversational memory of the chat front end

    A shallow embedding of the transcript store ([memory_handler.py]), the
    transport codec ([front_end_utils.py]), the generation request
    ([provider.py]) and the generation coordinator of the Discord and
    terminal surfaces ([discord_provider.py], [terminal_provider.py]),
    followed by the properties of the specification stated on it.

    Python objects that are mutated in place (the [chat_history] list, the
    [Memory_Handler] instance) are modelled by explicit state passing: a
    computation maps the state before the call to a completion (a returned
    value or a raised exception) and the state after it.  The state survives
    a raised exception, as the mutated object does in Python. *)

From Stdlib Require Import String Ascii List ZArith NArith Lia Bool.
Import ListNotations.

Set Implicit Arguments.
Set Warnings "-register-all".

Local Open Scope Z_scope.

(* ================================================================== *)
(** * Python primitives *)
(* ================================================================== *)

Module Py.

(** Exception classes that the modelled code can raise or catch.  The
    classes of the [requests] library keep their inheritance through
    [is_Timeout], [is_RequestException] and [is_Exception] below. *)
Inductive exn : Type :=
| IndexError
| OverflowError
| AttributeError
| TypeError
| ValueError
| RuntimeError
| UnboundLocalError
| HTTPError (status_code : Z)
| Timeout
| ConnectTimeout
| ReadTimeout
| ConnectionError
| InvalidJSONError
| RequestException
| KeyboardInterrupt
| SystemExit.

Definition is_HTTPError (e : exn) : bool :=
  match e with HTTPError _ => true | _ => false end.

Definition is_Timeout (e : exn) : bool :=
  match e with Timeout | ConnectTimeout | ReadTimeout => true | _ => false end.

Definition is_RequestException (e : exn) : bool :=
  match e with
  | HTTPError _ | Timeout | ConnectTimeout | ReadTimeout | ConnectionError
  | InvalidJSONError | RequestException => true
  | _ => false
  end.

(** [KeyboardInterrupt] and [SystemExit] derive from [BaseException] only. *)
Definition is_Exception (e : exn) : bool :=
  match e with KeyboardInterrupt | SystemExit => false | _ => true end.

(** Values that travel between the backend and the front end: what
    [json.loads] and [Response.json] build, and the integer error codes. *)
Inductive pyval : Type :=
| PNone
| PBool (b : bool)
| PInt (z : Z)
| PStr (s : string)
| PList (l : list pyval)
| PDict (d : list (string * pyval)).

Inductive completion (A : Type) : Type :=
| Returns (a : A)
| Raises (e : exn).
Arguments Raises {A} e.

(** A computation over a mutable object of type [S]. *)
Definition M (S A : Type) : Type := S -> completion A * S.

Definition ret {S A : Type} (a : A) : M S A := fun s => (Returns a, s).
Definition raise {S A : Type} (e : exn) : M S A := fun s => (Raises e, s).
Definition bind {S A B : Type} (c : M S A) (k : A -> M S B) : M S B :=
  fun s =>
    match c s with
    | (Returns a, s') => k a s'
    | (Raises e, s') => (Raises e, s')
    end.
Definition get {S : Type} : M S S := fun s => (Returns s, s).
Definition put {S : Type} (s : S) : M S unit := fun _ => (Returns tt, s).
Definition modify {S : Type} (f : S -> S) : M S unit := fun s => (Returns tt, f s).

(** Runs a computation over a part of the state (an attribute of [self]). *)
Definition zoom {S T A : Type} (proj : S -> T) (upd : T -> S -> S)
           (c : M T A) : M S A :=
  fun s => let (r, t') := c (proj s) in (r, upd t' s).

Definition lift {S A : Type} (c : completion A) : M S A := fun s => (c, s).

(** ** Lists *)

Definition len {A : Type} (l : list A) : Z := Z.of_nat (length l).

(** Removes the element at a natural position. *)
Fixpoint remove_nth {A : Type} (n : nat) (l : list A) : list A :=
  match l with
  | [] => []
  | x :: tl => match n with O => tl | S n' => x :: remove_nth n' tl end
  end.

(** The index of a list method is converted to a [Py_ssize_t], of 64
    bits here; an [int] outside its range raises [OverflowError]. *)
Definition PY_SSIZE_T_MAX : Z := 9223372036854775807.
Definition PY_SSIZE_T_MIN : Z := - PY_SSIZE_T_MAX - 1.

Definition fits_ssize_t (i : Z) : bool :=
  (PY_SSIZE_T_MIN <=? i) && (i <=? PY_SSIZE_T_MAX).

(** [list.pop(i)]: the index is converted first; a negative index counts
    from the end; an index out of range (in particular any index on the
    empty list) raises. *)
Definition list_pop {A : Type} (i : Z) : M (list A) A :=
  fun l =>
    if negb (fits_ssize_t i) then (Raises OverflowError, l)
    else
      let j := if i <? 0 then i + len l else i in
      if (j <? 0) || (len l <=? j) then (Raises IndexError, l)
      else match nth_error l (Z.to_nat j) with
           | Some x => (Returns x, remove_nth (Z.to_nat j) l)
           | None => (Raises IndexError, l)
           end.

(** [list.insert(i, x)]: the index is clamped to the list. *)
Definition list_insert {A : Type} (i : Z) (x : A) : M (list A) unit :=
  fun l =>
    let j := if i <? 0 then Z.max 0 (i + len l) else Z.min i (len l) in
    (Returns tt, firstn (Z.to_nat j) l ++ x :: skipn (Z.to_nat j) l).

Definition list_append {A : Type} (x : A) : M (list A) unit :=
  fun l => (Returns tt, l ++ [x]).

Definition list_extend {A : Type} (xs : list A) : M (list A) unit :=
  fun l => (Returns tt, l ++ xs).

Definition list_clear {A : Type} : M (list A) unit :=
  fun _ => (Returns tt, []).

(** ** Strings

    A [str] is a [string] whose characters are the code points below 256. *)

(** [''.join(l)] *)
Definition join (l : list string) : string := String.concat EmptyString l.

Definition newline : ascii := ascii_of_nat 10.

(** [s.split(sep)] for a separator of one character: the fields between
    the occurrences of [sep]; there is always at least one field. *)
Fixpoint split (sep : ascii) (s : string) : list string :=
  match s with
  | EmptyString => [EmptyString]
  | String c s' =>
      if Ascii.eqb c sep then EmptyString :: split sep s'
      else match split sep s' with
           | [] => [String c EmptyString]
           | field :: fields => String c field :: fields
           end
  end.

(** [c.isspace()] on the code points below 256. *)
Definition isspace (c : ascii) : bool :=
  let n := nat_of_ascii c in
  ((9 <=? n) && (n <=? 13) || (28 <=? n) && (n <=? 32)
   || (n =? 133) || (n =? 160))%nat.

Fixpoint lstrip (s : string) : string :=
  match s with
  | EmptyString => EmptyString
  | String c s' => if isspace c then lstrip s' else s
  end.

Fixpoint rstrip (s : string) : string :=
  match s with
  | EmptyString => EmptyString
  | String c s' =>
      match rstrip s' with
      | EmptyString => if isspace c then EmptyString else String c EmptyString
      | r => String c r
      end
  end.

(** [s.strip()] *)
Definition strip (s : string) : string := rstrip (lstrip s).

End Py.

Export Py.

Declare Scope py_scope.
Notation "x <- c ;; k" := (Py.bind c (fun x => k))
  (at level 61, c at next level, right associativity) : py_scope.
Notation "c ;;; k" := (Py.bind c (fun _ => k))
  (at level 61, right associativity) : py_scope.
Local Open Scope py_scope.

(* ================================================================== *)
(** * The [json] and [base64] modules of the Python library *)
(* ================================================================== *)

Module json.

Local Open Scope N_scope.

Definition quote : ascii := ascii_of_nat 34.
Definition backslash : ascii := ascii_of_nat 92.

(** ** Decimal integers, as [json.dumps] writes them *)

Definition digit_char (d : N) : ascii := ascii_of_N (48 + d).

(** The decimal digits of [n], least significant first; no digit for 0. *)
Fixpoint digits_rev (fuel : nat) (n : N) : list N :=
  match fuel with
  | O => []
  | S fuel' => if n =? 0 then [] else (n mod 10) :: digits_rev fuel' (n / 10)
  end.

Definition repr_N (n : N) : list ascii :=
  if n =? 0 then ["0"%char]
  else rev (map digit_char (digits_rev (S (N.to_nat (N.log2 n))) n)).

(** [repr] of an [int]. *)
Definition repr (z : Z) : list ascii :=
  match z with
  | Z0 => ["0"%char]
  | Zpos p => repr_N (Npos p)
  | Zneg p => "-"%char :: repr_N (Npos p)
  end.

(** ** [json.dumps] (default arguments: [ensure_ascii], separators
    [", "] and [": "]) *)

Definition hex_char (d : N) : ascii :=
  if d <? 10 then ascii_of_N (48 + d) else ascii_of_N (87 + d).

(** The escape of one character inside a JSON string. *)
Definition escape_char (c : ascii) : list ascii :=
  let n := N_of_ascii c in
  if Ascii.eqb c quote then [backslash; quote]
  else if Ascii.eqb c backslash then [backslash; backslash]
  else if n =? 10 then [backslash; "n"%char]
  else if n =? 13 then [backslash; "r"%char]
  else if n =? 9 then [backslash; "t"%char]
  else if n =? 8 then [backslash; "b"%char]
  else if n =? 12 then [backslash; "f"%char]
  else if (n <? 32) || (126 <? n)
       then [backslash; "u"%char; "0"%char; "0"%char; hex_char (n / 16); hex_char (n mod 16)]
  else [c].

Definition dumps_str (s : string) : list ascii :=
  quote :: flat_map escape_char (list_ascii_of_string s) ++ [quote].

(** [sep.join(parts)] on character lists. *)
Fixpoint join_with (sep : list ascii) (parts : list (list ascii)) : list ascii :=
  match parts with
  | [] => []
  | [p] => p
  | p :: ps => p ++ sep ++ join_with sep ps
  end.

Fixpoint dumps_chars (v : pyval) : list ascii :=
  match v with
  | PNone => list_ascii_of_string "null"
  | PBool true => list_ascii_of_string "true"
  | PBool false => list_ascii_of_string "false"
  | PInt z => repr z
  | PStr s => dumps_str s
  | PList l => "["%char :: join_with [","%char; " "%char] (map dumps_chars l) ++ ["]"%char]
  | PDict d =>
      "{"%char :: join_with [","%char; " "%char]
               (map (fun kv => dumps_str (fst kv) ++ [":"%char; " "%char] ++ dumps_chars (snd kv)) d)
          ++ ["}"%char]
  end.

Definition dumps (v : pyval) : string := string_of_list_ascii (dumps_chars v).

(** ** [json.loads]

    The model covers the documents that the backend protocol exchanges:
    integers and arrays of them, nested to any depth, with JSON
    whitespace between the tokens.  The lexer rejects every other
    character, so a document with strings, objects, fractions or
    literals is outside the model and is mapped to the failure of a
    malformed document. *)

Inductive token : Type := TLBr | TRBr | TComma | TNum (z : Z).

Inductive lexstate : Type :=
| Idle
| Minus
| Zero (neg : bool)
| Digits (neg : bool) (acc : N).

Definition is_ws (c : ascii) : bool :=
  let n := N_of_ascii c in (n =? 32) || (n =? 9) || (n =? 10) || (n =? 13).

Definition digit_val (c : ascii) : option N :=
  let n := N_of_ascii c in
  if (48 <=? n) && (n <=? 57) then Some (n - 48) else None.

Definition signed (neg : bool) (n : N) : Z :=
  if neg then (- Z.of_N n)%Z else Z.of_N n.

(** A character read while no number is open: the token it is, if any,
    and the state it leaves the lexer in. *)
Definition idle_step (c : ascii) : option (option token * lexstate) :=
  if is_ws c then Some (None, Idle)
  else if Ascii.eqb c "["%char then Some (Some TLBr, Idle)
  else if Ascii.eqb c "]"%char then Some (Some TRBr, Idle)
  else if Ascii.eqb c ","%char then Some (Some TComma, Idle)
  else if Ascii.eqb c "-"%char then Some (None, Minus)
  else match digit_val c with
       | Some d => if d =? 0 then Some (None, Zero false)
                   else Some (None, Digits false d)
       | None => None
       end.

Definition emit (t : option token) (ts : option (list token)) : option (list token) :=
  match t, ts with
  | _, None => None
  | Some t, Some ts => Some (t :: ts)
  | None, Some ts => Some ts
  end.

(** A JSON integer is an optional minus sign followed by a single zero or
    by a digit other than zero and any digits: no digit may follow a
    leading zero, and a lone minus sign is no number. *)
Fixpoint lex (st : lexstate) (s : list ascii) : option (list token) :=
  match s with
  | [] =>
      match st with
      | Idle => Some []
      | Minus => None
      | Zero neg => Some [TNum 0]
      | Digits neg n => Some [TNum (signed neg n)]
      end
  | c :: s' =>
      match st with
      | Idle =>
          match idle_step c with
          | Some (t, st') => emit t (lex st' s')
          | None => None
          end
      | Minus =>
          match digit_val c with
          | Some d => if d =? 0 then lex (Zero true) s' else lex (Digits true d) s'
          | None => None
          end
      | Zero neg =>
          match digit_val c with
          | Some _ => None
          | None =>
              match idle_step c with
              | Some (t, st') => emit (Some (TNum 0)) (emit t (lex st' s'))
              | None => None
              end
          end
      | Digits neg n =>
          match digit_val c with
          | Some d => lex (Digits neg (10 * n + d)) s'
          | None =>
              match idle_step c with
              | Some (t, st') => emit (Some (TNum (signed neg n))) (emit t (lex st' s'))
              | None => None
              end
          end
      end
  end.

Inductive pmode : Type :=
| WantValue          (* at the start, or after a comma *)
| WantValueOrClose   (* after an opening bracket *)
| WantSep.           (* after an element: a comma or the closing bracket *)

(** The parser keeps the open arrays on a stack, each as the reversed
    list of its elements read so far.  A value completed with no array
    open is the document, and nothing may follow it. *)
Fixpoint parse (ts : list token) (stack : list (list pyval)) (mode : pmode)
  : option pyval :=
  match ts with
  | [] => None
  | t :: ts' =>
      match mode, t with
      | (WantValue | WantValueOrClose), TNum z =>
          match stack with
          | [] => match ts' with [] => Some (PInt z) | _ => None end
          | items :: st => parse ts' ((PInt z :: items) :: st) WantSep
          end
      | (WantValue | WantValueOrClose), TLBr => parse ts' ([] :: stack) WantValueOrClose
      | (WantValueOrClose | WantSep), TRBr =>
          match stack with
          | [] => None
          | items :: st =>
              let v := PList (rev items) in
              match st with
              | [] => match ts' with [] => Some v | _ => None end
              | outer :: st' => parse ts' ((v :: outer) :: st') WantSep
              end
          end
      | WantSep, TComma => parse ts' stack WantValue
      | _, _ => None
      end
  end.

Definition loads (s : string) : completion pyval :=
  match lex Idle (list_ascii_of_string s) with
  | Some ts =>
      match parse ts [] WantValue with
      | Some v => Returns v
      | None => Raises ValueError
      end
  | None => Raises ValueError
  end.

End json.

Module base64.

Local Open Scope N_scope.

(** A [bytes] object is a list of octets, each an [ascii]. *)
Definition bytes : Type := list ascii.

Definition pad : ascii := "="%char.

(** [bytes(s, encoding='utf-8')] on the code points below 256. *)
Definition utf8_encode_char (c : ascii) : bytes :=
  let n := N_of_ascii c in
  if n <? 128 then [c]
  else [ascii_of_N (192 + n / 64); ascii_of_N (128 + n mod 64)].

Definition utf8_encode (s : string) : bytes :=
  flat_map utf8_encode_char (list_ascii_of_string s).

(** [b.decode('utf-8')]: an octet below 128 is its character, and the two
    octet sequences of the code points 128 to 255 are decoded; every other
    sequence is malformed or encodes a character that no document of the
    JSON model can hold, and raises. *)
Fixpoint utf8_decode_chars (b : bytes) : option (list ascii) :=
  match b with
  | [] => Some []
  | c :: b' =>
      let n := N_of_ascii c in
      if n <? 128 then option_map (cons c) (utf8_decode_chars b')
      else if (n =? 194) || (n =? 195) then
        match b' with
        | d :: b'' =>
            let m := N_of_ascii d in
            if (128 <=? m) && (m <? 192)
            then option_map (cons (ascii_of_N ((n - 192) * 64 + (m - 128))))
                            (utf8_decode_chars b'')
            else None
        | [] => None
        end
      else None
  end.

Definition utf8_decode (b : bytes) : completion string :=
  match utf8_decode_chars b with
  | Some cs => Returns (string_of_list_ascii cs)
  | None => Raises ValueError
  end.

(** The base 64 alphabet of RFC 4648. *)
Definition b64_char (v : N) : ascii :=
  if v <? 26 then ascii_of_N (65 + v)
  else if v <? 52 then ascii_of_N (97 + (v - 26))
  else if v <? 62 then ascii_of_N (48 + (v - 52))
  else if v =? 62 then "+"%char
  else "/"%char.

(** [table_a2b_base64]: the value of a character of the alphabet. *)
Definition b64_index (c : ascii) : option N :=
  let n := N_of_ascii c in
  if (65 <=? n) && (n <=? 90) then Some (n - 65)
  else if (97 <=? n) && (n <=? 122) then Some (n - 97 + 26)
  else if (48 <=? n) && (n <=? 57) then Some (n - 48 + 52)
  else if n =? 43 then Some 62
  else if n =? 47 then Some 63
  else None.

(** [base64.b64encode]: three octets give four characters; a last group
    of one or two octets is completed with zero bits and padded. *)
Fixpoint b64encode (b : bytes) : bytes :=
  match b with
  | [] => []
  | [x] =>
      let x := N_of_ascii x in
      [b64_char (x / 4); b64_char ((x mod 4) * 16); pad; pad]
  | [x; y] =>
      let x := N_of_ascii x in
      let y := N_of_ascii y in
      [b64_char (x / 4); b64_char ((x mod 4) * 16 + y / 16);
       b64_char ((y mod 16) * 4); pad]
  | x :: y :: z :: b' =>
      let x := N_of_ascii x in
      let y := N_of_ascii y in
      let z := N_of_ascii z in
      b64_char (x / 4) :: b64_char ((x mod 4) * 16 + y / 16)
        :: b64_char ((y mod 16) * 4 + z / 64) :: b64_char (z mod 64)
        :: b64encode b'
  end.

(** [binascii.a2b_base64] without strict mode, the decoder behind
    [base64.b64decode(s)]: a character outside the alphabet is skipped; a
    pad character ends the input once it completes a group of four that
    holds at least two characters of data, and is skipped otherwise;
    input that ends inside a group is an error.  [quad_pos] counts the
    characters of the open group, [leftchar] holds the bits of the group
    not yet written, [pads] counts the pad characters met in a row. *)
Fixpoint a2b_base64 (s : bytes) (quad_pos leftchar pads : N) : option bytes :=
  match s with
  | [] => if quad_pos =? 0 then Some [] else None
  | c :: s' =>
      if Ascii.eqb c pad then
        if (2 <=? quad_pos) && (4 <=? quad_pos + (pads + 1)) then Some []
        else a2b_base64 s' quad_pos leftchar
                        (if 2 <=? quad_pos then pads + 1 else pads)
      else
        match b64_index c with
        | None => a2b_base64 s' quad_pos leftchar pads
        | Some v =>
            if quad_pos =? 0 then a2b_base64 s' 1 v 0
            else if quad_pos =? 1 then
              option_map (cons (ascii_of_N (leftchar * 4 + v / 16)))
                         (a2b_base64 s' 2 (v mod 16) 0)
            else if quad_pos =? 2 then
              option_map (cons (ascii_of_N (leftchar * 16 + v / 4)))
                         (a2b_base64 s' 3 (v mod 4) 0)
            else
              option_map (cons (ascii_of_N (leftchar * 64 + v)))
                         (a2b_base64 s' 0 0 0)
        end
  end.

Definition is_ascii (s : string) : bool :=
  forallb (fun c => N_of_ascii c <? 128) (list_ascii_of_string s).

(** [base64.b64decode(s)] for a [str] argument: the string must be ASCII. *)
Definition b64decode (s : string) : completion bytes :=
  if is_ascii s then
    match a2b_base64 (list_ascii_of_string s) 0 0 0 with
    | Some b => Returns b
    | None => Raises ValueError
    end
  else Raises ValueError.

End base64.

(* ================================================================== *)
(** * front_end_utils.py: the transport codec *)
(* ================================================================== *)

Module front_end_utils.

Definition bind_c {A B : Type} (c : completion A) (k : A -> completion B)
  : completion B :=
  match c with
  | Returns a => k a
  | Raises e => Raises e
  end.

(** [decode_encoded_tokenized_tensor]: [base64.b64decode] raises a
    [TypeError] on an argument that is neither a string nor bytes. *)
Definition decode_encoded_tokenized_tensor (a_encoded_tokens : pyval)
  : completion pyval :=
  match a_encoded_tokens with
  | PStr s =>
      bind_c (base64.b64decode s) (fun partial_decoded_history =>
      bind_c (base64.utf8_decode partial_decoded_history) json.loads)
  | _ => Raises TypeError
  end.

(** [get_encoded_str_from_token_list] *)
Definition get_encoded_str_from_token_list (a_message : list Z) : completion string :=
  bind_c (base64.utf8_decode
            (base64.b64encode
               (base64.utf8_encode (json.dumps (PList (map PInt a_message))))))
         (fun s => Returns (json.dumps (PStr s))).

End front_end_utils.

(* ================================================================== *)
(** * The tokenizer and the tensor operation the eviction uses *)
(* ================================================================== *)

(** The tokenizer is an external collaborator.  [encode] is
    [tokenizer.encode(text)]; with [return_tensors="pt"] the result is a
    tensor of one row, modelled by that row.  [decode] is
    [tokenizer.decode(ids, skip_special_tokens=True)]; [batch_decode] of a
    tensor of one row is the list of that one decoded string. *)
Record AutoTokenizer : Type := {
  encode : string -> list Z;
  decode : list Z -> string
}.

Definition batch_decode (a_tokenizer : AutoTokenizer) (rows : list (list Z))
  : list string :=
  map (decode a_tokenizer) rows.

Module torch.

(** [torch.narrow(input, 1, start, length)] on a tensor of one row: the
    length must not be negative, the start must lie within the row (a
    negative start counts from the end) and the slice must end within
    the row. *)
Definition narrow (row : list Z) (start length : Z) : completion (list Z) :=
  let cur_size := len row in
  if length <? 0 then Raises RuntimeError
  else if (start <? - cur_size) || (cur_size <? start) then Raises IndexError
  else
    let start := if start <? 0 then start + cur_size else start in
    if cur_size - length <? start then Raises RuntimeError
    else Returns (firstn (Z.to_nat length) (skipn (Z.to_nat start) row)).

End torch.

(* ================================================================== *)
(** * memory_handler.py: the transcript store and the eviction policies *)
(* ================================================================== *)

Module memory_handler.

(** The settings that [load_netherworld_settings] and
    [load_generation_settings] read. *)
Record Settings : Type := {
  setting_memory_cycler : string;
  setting_extra_budget : Z;
  setting_device : string;
  setting_max_length : Z;
  setting_prompt : string
}.

Record Memory_Handler : Type := {
  memory_cycler_type : string;
  extra_budget : Z;
  device : string;
  max_length : Z;
  prompt : string;
  prompt_tensor : list Z;
  chat_history : list string
}.

Definition set_chat_history (h : list string) (self : Memory_Handler)
  : Memory_Handler :=
  {| memory_cycler_type := memory_cycler_type self;
     extra_budget := extra_budget self;
     device := device self;
     max_length := max_length self;
     prompt := prompt self;
     prompt_tensor := prompt_tensor self;
     chat_history := h |}.

(** [__init__]: the transcript starts as the prompt alone. *)
Definition init (a_settings : Settings) (a_tokenizer : AutoTokenizer)
  : Memory_Handler :=
  {| memory_cycler_type := setting_memory_cycler a_settings;
     extra_budget := setting_extra_budget a_settings;
     device := setting_device a_settings;
     max_length := setting_max_length a_settings;
     prompt := setting_prompt a_settings;
     prompt_tensor := encode a_tokenizer (setting_prompt a_settings);
     chat_history := [] ++ [setting_prompt a_settings] |}.

(** The value of an instance attribute. *)
Inductive attr : Type :=
| AInt (z : Z)
| AStr (s : string)
| ATensor (t : list Z)
| AHistory (h : list string)
| ANone
| ASettings.

(** Attribute lookup [self.name]: the instance holds the names that
    [__init__] and the two loaders assign, the class holds methods only,
    and any other name raises.  The methods below read the attributes
    that exist through the projections of the record, and go through
    [getattr] where the source names an attribute that no assignment
    creates. *)
Definition getattr (self : Memory_Handler) (name : string) : completion attr :=
  if String.eqb name "tokenizer" then Returns ANone
  else if String.eqb name "memory_cycler_type" then Returns (AStr (memory_cycler_type self))
  else if String.eqb name "extra_budget" then Returns (AInt (extra_budget self))
  else if String.eqb name "device" then Returns (AStr (device self))
  else if String.eqb name "max_length" then Returns (AInt (max_length self))
  else if String.eqb name "prompt" then Returns (AStr (prompt self))
  else if String.eqb name "prompt_tensor" then Returns (ATensor (prompt_tensor self))
  else if String.eqb name "chat_history" then Returns (AHistory (chat_history self))
  else if String.eqb name "settings_object" then Returns ASettings
  else Raises AttributeError.

(** An attribute used as the integer [a_extra_budget]. *)
Definition as_int (a : attr) : completion Z :=
  match a with
  | AInt z => Returns z
  | _ => Raises TypeError
  end.

(** [memory_cycle_by_token], on the list object [a_chat_history].  The
    calls to [logging.critical] change no state and are left out. *)
Definition memory_cycle_by_token (a_max_length : Z) (a_prompt_tensor : list Z)
           (a_tokenizer : AutoTokenizer) (a_extra_budget : Z)
  : M (list string) (list string) :=
  original_prompt <- list_pop 0 ;;
  a_chat_history <- get ;;
  let chat_history_str := join a_chat_history in
  let chat_history_tensor := encode a_tokenizer chat_history_str in
  let chat_history_tensor_size := len chat_history_tensor in
  let prompt_tensor_size := len a_prompt_tensor in
  let start_of_truncated_history := Z.abs (a_max_length - prompt_tensor_size) in
  let distance_for_truncated_history :=
    chat_history_tensor_size - start_of_truncated_history in
  list_clear ;;;
  (if chat_history_tensor_size + prompt_tensor_size >? a_max_length - a_extra_budget
   then
     truncated_chat_history_tensor <-
       lift (torch.narrow chat_history_tensor start_of_truncated_history
                          distance_for_truncated_history) ;;
     let decoded_truncated_messages :=
       batch_decode a_tokenizer [truncated_chat_history_tensor] in
     list_extend (split newline (nth 0 decoded_truncated_messages EmptyString))
   else ret tt) ;;;
  list_insert 0 original_prompt ;;;
  get.

(** The [while] loop of [memory_cycle_by_sentence], with the loop variable
    [chat_history_tensor_size] that is measured again after each removal.
    The list has an element whenever the body runs, so its [pop(0)] does
    not raise.  The warnings the loop prints change no state and are left
    out. *)
Fixpoint sentence_loop (a_max_length : Z) (prompt_tensor_size : Z)
         (a_tokenizer : AutoTokenizer) (a_extra_budget : Z)
         (chat_history_tensor_size : Z) (a_chat_history : list string)
  : list string :=
  if (chat_history_tensor_size + prompt_tensor_size >? a_max_length - a_extra_budget)
     && (len a_chat_history >? 0)
  then
    match a_chat_history with
    | [] => []
    | _ :: popped =>
        let chat_history_str := join popped in
        let chat_history_tensor := encode a_tokenizer chat_history_str in
        sentence_loop a_max_length prompt_tensor_size a_tokenizer a_extra_budget
                      (len chat_history_tensor) popped
    end
  else a_chat_history.

(** [memory_cycle_by_sentence], on the list object [a_chat_history]. *)
Definition memory_cycle_by_sentence (a_max_length : Z) (a_prompt_tensor : list Z)
           (a_tokenizer : AutoTokenizer) (a_extra_budget : Z)
  : M (list string) (list string) :=
  original_prompt <- list_pop 0 ;;
  a_chat_history <- get ;;
  let chat_history_str := join a_chat_history in
  let chat_history_tensor := encode a_tokenizer chat_history_str in
  let chat_history_tensor_size := len chat_history_tensor in
  let prompt_tensor_size := len a_prompt_tensor in
  put (sentence_loop a_max_length prompt_tensor_size a_tokenizer a_extra_budget
                     chat_history_tensor_size a_chat_history) ;;;
  list_insert 0 original_prompt ;;;
  get.

Definition on_chat_history {A : Type} (c : M (list string) A) : M Memory_Handler A :=
  zoom chat_history set_chat_history c.

(** [dispatch_memory_cycler]: the arguments of a call are evaluated
    before the call, so the lookup of [extra_budge] comes first. *)
Definition dispatch_memory_cycler (a_tokenizer : AutoTokenizer)
  : M Memory_Handler unit :=
  self <- get ;;
  if String.eqb (memory_cycler_type self) "by_sentence" then
    on_chat_history
      (memory_cycle_by_sentence (max_length self) (prompt_tensor self)
                                a_tokenizer (extra_budget self)) ;;;
    ret tt
  else if String.eqb (memory_cycler_type self) "by_token" then
    extra_budge <- lift (getattr self "extra_budge") ;;
    a_extra_budget <- lift (as_int extra_budge) ;;
    on_chat_history
      (memory_cycle_by_token (max_length self) (prompt_tensor self)
                             a_tokenizer a_extra_budget) ;;;
    ret tt
  else ret tt.

(** [get_encoded_chat_history] *)
Definition get_encoded_chat_history (a_tokenizer : AutoTokenizer)
  : M Memory_Handler string :=
  self <- get ;;
  let string_chat_history := join (chat_history self) in
  let tokenized_chat_history := encode a_tokenizer string_chat_history in
  lift (front_end_utils.get_encoded_str_from_token_list tokenized_chat_history).

(** [append_message] *)
Definition append_message (a_message : string) (a_tokenizer : AutoTokenizer)
           (a_cycle_through_memory : bool) : M Memory_Handler unit :=
  on_chat_history (list_append a_message) ;;;
  if a_cycle_through_memory then dispatch_memory_cycler a_tokenizer else ret tt.

(** [clear_all_memories] *)
Definition clear_all_memories : M Memory_Handler unit :=
  on_chat_history list_clear ;;;
  self <- get ;;
  on_chat_history (list_append (prompt self)).

(** [pop_memory]; the default index is -1. *)
Definition pop_memory (a_index : Z) : M Memory_Handler string :=
  on_chat_history (list_pop a_index).

End memory_handler.

(* ================================================================== *)
(** * provider.py: the generation request *)
(* ================================================================== *)

Module provider.

Import memory_handler.

(** What [requests.post] does for one request: the backend answers with
    a status code and a body ([None] when the body is not JSON), or the
    call raises. *)
Inductive post_outcome : Type :=
| Responded (status_code : Z) (body : option pyval)
| PostRaised (e : exn).

(** The attributes of an exception of [requests]: [RequestException]
    assigns [response] and [request], [OSError] provides [errno],
    [strerror], [filename] and [filename2], [BaseException] provides
    [args]; any other name raises.  The response is shown by its status
    code. *)
Definition exception_getattr (e : exn) (name : string) : completion pyval :=
  if String.eqb name "response" then
    match e with
    | HTTPError status_code => Returns (PInt status_code)
    | _ => Returns PNone
    end
  else if String.eqb name "request" then Returns PNone
  else if String.eqb name "errno" then Returns PNone
  else if String.eqb name "strerror" then Returns PNone
  else if String.eqb name "filename" then Returns PNone
  else if String.eqb name "filename2" then Returns PNone
  else if String.eqb name "args" then Returns (PList [])
  else Raises AttributeError.

(** [Response.json()] followed by [Response.raise_for_status()].  The
    first raises the [JSONDecodeError] of [requests], an
    [InvalidJSONError], on a body that is not JSON; the second raises
    [HTTPError] for the status codes from 400 to 599. *)
Definition post_and_check (o : post_outcome) : completion pyval :=
  match o with
  | PostRaised e => Raises e
  | Responded status_code body =>
      match body with
      | None => Raises InvalidJSONError
      | Some json_bot_response =>
          if (400 <=? status_code) && (status_code <? 600)
          then Raises (HTTPError status_code)
          else Returns json_bot_response
      end
  end.

(** [request_generation]: the [except] clauses are tried in the order of
    the source, an exception raised inside a handler leaves the function,
    and so does one that no clause matches.  The logging calls change no
    state and are left out; the comparisons of the first handler with
    400 and 500 only choose the logged text, after the attribute has
    been read. *)
Definition request_generation (o : post_outcome) : completion pyval :=
  match post_and_check o with
  | Returns json_bot_response => Returns json_bot_response
  | Raises e =>
      if is_HTTPError e then
        front_end_utils.bind_c (exception_getattr e "code") (fun code =>
        Returns code)
      else if is_Timeout e then Returns (PInt 0)
      else if is_RequestException e then Returns (PInt (-1))
      else if is_Exception e then Returns (PInt (-2))
      else Raises e
  end.

(** The part of a provider that a generation reads and changes. *)
Record Provider : Type := {
  user_name : string;
  bot_name : string;
  memories : Memory_Handler;
  tokenizer : AutoTokenizer;
  serial_chat_history : option string
}.

Definition set_memories (m : Memory_Handler) (self : Provider) : Provider :=
  {| user_name := user_name self;
     bot_name := bot_name self;
     memories := m;
     tokenizer := tokenizer self;
     serial_chat_history := serial_chat_history self |}.

Definition set_serial_chat_history (s : string) (self : Provider) : Provider :=
  {| user_name := user_name self;
     bot_name := bot_name self;
     memories := memories self;
     tokenizer := tokenizer self;
     serial_chat_history := Some s |}.

Definition on_memories {A : Type} (c : M Memory_Handler A) : M Provider A :=
  zoom memories set_memories c.

Fixpoint as_token_list (l : list pyval) : option (list Z) :=
  match l with
  | [] => Some []
  | PInt z :: l' => option_map (cons z) (as_token_list l')
  | _ => None
  end.

(** [detokenize_decoded_message]: the first element of the decoded list
    is handed to [tokenizer.decode], which takes a list of token ids or
    one token id. *)
Definition detokenize_decoded_message (a_tokenizer : AutoTokenizer)
           (a_list_of_decoded_tokens : pyval) : completion string :=
  match a_list_of_decoded_tokens with
  | PList [] => Raises IndexError
  | PList (PInt z :: _) => Returns (decode a_tokenizer [z])
  | PList (PList ids :: _) =>
      match as_token_list ids with
      | Some ids => Returns (decode a_tokenizer ids)
      | None => Raises TypeError
      end
  | _ => Raises TypeError
  end.

End provider.

(* ================================================================== *)
(** * discord_provider.py: the generation coordinator of the chat bot *)
(* ================================================================== *)

Module discord_provider.

Import memory_handler provider.

Record Message : Type := {
  author_name : string;
  content : string
}.

(** A webhook of a channel, as [channel.webhooks()] lists it. *)
Record Webhook : Type := {
  webhook_name : string;
  webhook_url : string
}.

(** What a command reads of its interaction: the name of the user and of
    the command, [a_interaction.user.avatar] ([None], or an asset with its
    url), the webhooks of the channel of the interaction, the url of the
    webhook that [channel.create_webhook] makes there, and what a post to
    the url of a webhook meets on the network. *)
Record Interaction : Type := {
  interaction_user_name : string;
  command_name : string;
  user_avatar : option string;
  channel_webhooks : list Webhook;
  created_webhook_url : string;
  webhook_post : string -> post_outcome
}.

(** [validate_generation].  The texts sent to Discord change no state of
    the provider and are left out; replying through [a_message] when it
    is [None] raises. *)
Definition validate_generation (a_generation : pyval)
           (a_interaction : option Interaction) (a_message : option Message)
  : M Provider bool :=
  let send_error : M Provider unit :=
    match a_interaction, a_message with
    | Some _, _ => ret tt
    | None, Some _ => ret tt
    | None, None => raise AttributeError
    end in
  match a_generation with
  | PInt _ => send_error ;;; ret false
  | _ =>
      let is_blank : completion bool :=
        match a_generation with
        | PNone => Returns true
        | PStr s => Returns (String.eqb (strip s) EmptyString)
        | _ => Raises AttributeError
        end in
      blank <- lift is_blank ;;
      if blank then
        match a_interaction with
        | Some _ => ret false
        | None =>
            send_error ;;;
            on_memories clear_all_memories ;;;
            ret false
        end
      else ret true
  end.

(** [send_discord_message]; [backend] is what the generation request
    meets on the network for a given encoded chat history. *)
Definition send_discord_message (a_message : Message)
           (backend : string -> post_outcome) : M Provider unit :=
  self <- get ;;
  let user_message :=
    (author_name a_message ++ ": " ++ content a_message ++ String newline EmptyString)%string in
  on_memories (append_message user_message (tokenizer self) true) ;;;
  on_memories (append_message (bot_name self ++ ":")%string (tokenizer self) true) ;;;
  encoded <- on_memories (get_encoded_chat_history (tokenizer self)) ;;
  modify (set_serial_chat_history encoded) ;;;
  bot_response <- lift (request_generation (backend encoded)) ;;
  valid <- validate_generation bot_response None (Some a_message) ;;
  if valid then
    decoded_bot_message <-
      lift (front_end_utils.decode_encoded_tokenized_tensor bot_response) ;;
    detokenized_bot_message <-
      lift (detokenize_decoded_message (tokenizer self) decoded_bot_message) ;;
    on_memories (pop_memory (-1)) ;;;
    on_memories (append_message (bot_name self ++ ": " ++ detokenized_bot_message)%string
                                (tokenizer self) true)
  else ret tt.

(** [get_or_create_webhook]: the url of the first webhook of the channel
    with the name of the bot's webhook, or of a new one. *)
Definition get_or_create_webhook (a_interaction : Interaction) : string :=
  match find (fun webhook => String.eqb (webhook_name webhook) "Netherworld Webhook")
             (channel_webhooks a_interaction) with
  | Some webhook => webhook_url webhook
  | None => created_webhook_url a_interaction
  end.

(** The post of the completion to the webhook: [requests.post] is not
    guarded here, so an exception of the request leaves the command; the
    status of a response only selects the text sent to Discord. *)
Definition post_to_webhook (response : post_outcome) : M Provider unit :=
  match response with
  | PostRaised e => raise e
  | Responded status_code _ => ret tt
  end.

(** The [autocomplete] command.  The payload of the webhook reads
    [a_interaction.user.avatar.url], which an interaction of a user
    without an avatar does not have; the texts sent to Discord change no
    state of the provider. *)
Definition autocomplete (a_interaction : Interaction)
           (backend : string -> post_outcome) : M Provider unit :=
  self <- get ;;
  let user_name := interaction_user_name a_interaction in
  on_memories (append_message (user_name ++ ":")%string (tokenizer self) true) ;;;
  encoded <- on_memories (get_encoded_chat_history (tokenizer self)) ;;
  modify (set_serial_chat_history encoded) ;;;
  bot_response <- lift (request_generation (backend encoded)) ;;
  valid <- validate_generation bot_response (Some a_interaction) None ;;
  if valid then
    decoded_bot_message <-
      lift (front_end_utils.decode_encoded_tokenized_tensor bot_response) ;;
    detokenized_bot_message <-
      lift (detokenize_decoded_message (tokenizer self) decoded_bot_message) ;;
    self' <- get ;;
    (if len (chat_history (memories self')) >? 1
     then on_memories (pop_memory (-1)) ;;; ret tt
     else ret tt) ;;;
    avatar_url <-
      lift (match user_avatar a_interaction with
            | Some url => Returns url
            | None => Raises AttributeError
            end) ;;
    let webhook_url := get_or_create_webhook a_interaction in
    post_to_webhook (webhook_post a_interaction webhook_url)
  else ret tt.

End discord_provider.

(* ================================================================== *)
(** * terminal_provider.py: one turn of the terminal loop *)
(* ================================================================== *)

Module terminal_provider.

Import memory_handler provider.

(** Reading a local variable: a name that the function assigns somewhere
    is local in all of its body, and reading it before the first
    assignment raises. *)
Definition read_local {S A : Type} (v : option A) : M S A :=
  match v with
  | Some a => ret a
  | None => raise UnboundLocalError
  end.

(** The body of the loop of [chat] for an input other than [!quit].  The
    local [serial_settings] is read by [json.dumps(serial_settings)]
    before anything is assigned to it. *)
Definition chat_turn (user_input : string) (backend : string -> post_outcome)
  : M Provider unit :=
  self <- get ;;
  let formatted_user_input :=
    (user_name self ++ ": " ++ user_input ++ String newline EmptyString)%string in
  on_memories (append_message formatted_user_input (tokenizer self) true) ;;;
  chat_history_encoded <- on_memories (get_encoded_chat_history (tokenizer self)) ;;
  modify (set_serial_chat_history chat_history_encoded) ;;;
  serial_settings <- read_local (None : option string) ;;
  bot_response <- lift (request_generation (backend serial_settings)) ;;
  match bot_response with
  | PInt _ => raise SystemExit
  | PNone => on_memories clear_all_memories
  | _ =>
      decoded_bot_message <-
        lift (front_end_utils.decode_encoded_tokenized_tensor bot_response) ;;
      detokenized_bot_message <-
        lift (detokenize_decoded_message (tokenizer self) decoded_bot_message) ;;
      on_memories (append_message detokenized_bot_message (tokenizer self) true)
  end.

End terminal_provider.

(* ================================================================== *)
(** * Definitions used to state the properties *)
(* ================================================================== *)

Module transcript.

Import memory_handler.

(** The transcript is headed by the preamble [p], which is also the
    prompt that [clear_all_memories] restores. *)
Definition headed (p : string) (self : Memory_Handler) : Prop :=
  prompt self = p /\ exists h, chat_history self = p :: h.

(** The operations on a transcript that the invariant ranges over.  The
    two evictions are called as [dispatch_memory_cycler] means to call
    them: on the handler's own list, prompt tensor and budget. *)
Inductive op : Type :=
| Append (a_message : string) (a_cycle_through_memory : bool)
| EvictByToken
| EvictBySentence
| Clear.

Definition evict_by_token (a_tokenizer : AutoTokenizer) : M Memory_Handler unit :=
  self <- get ;;
  on_chat_history
    (memory_cycle_by_token (max_length self) (prompt_tensor self)
                           a_tokenizer (extra_budget self)) ;;;
  ret tt.

Definition evict_by_sentence (a_tokenizer : AutoTokenizer) : M Memory_Handler unit :=
  self <- get ;;
  on_chat_history
    (memory_cycle_by_sentence (max_length self) (prompt_tensor self)
                              a_tokenizer (extra_budget self)) ;;;
  ret tt.

Definition run_op (a_tokenizer : AutoTokenizer) (o : op) : M Memory_Handler unit :=
  match o with
  | Append a_message a_cycle_through_memory =>
      append_message a_message a_tokenizer a_cycle_through_memory
  | EvictByToken => evict_by_token a_tokenizer
  | EvictBySentence => evict_by_sentence a_tokenizer
  | Clear => clear_all_memories
  end.

(** A sequence of calls; it stops at the first call that raises. *)
Fixpoint run_ops (a_tokenizer : AutoTokenizer) (ops : list op)
  : M Memory_Handler unit :=
  match ops with
  | [] => ret tt
  | o :: ops' => run_op a_tokenizer o ;;; run_ops a_tokenizer ops'
  end.

(** The token count of the concatenated entries. *)
Definition token_count (a_tokenizer : AutoTokenizer) (entries : list string) : Z :=
  len (encode a_tokenizer (join entries)).

(** The ByToken policy in the words of the specification: over budget,
    the first [keepFrom] tokens of the concatenated entries are
    discarded and the rest is decoded and split on newlines; within
    budget the entries stay; the preamble comes first in both cases. *)
Definition by_token_as_specified (maxTokens preambleTokenCount : Z)
           (a_tokenizer : AutoTokenizer) (reserveTokens : Z)
           (preamble : string) (entries : list string) : list string :=
  let tokens := encode a_tokenizer (join entries) in
  let L := len tokens in
  let keepFrom := Z.max 0 (L - (maxTokens - preambleTokenCount)) in
  if L + preambleTokenCount >? maxTokens - reserveTokens
  then preamble :: split newline (decode a_tokenizer (skipn (Z.to_nat keepFrom) tokens))
  else preamble :: entries.

End transcript.

Module codec.

Import json base64.

Local Open Scope N_scope.

(** One more digit read by the lexer. *)
Definition step (a d : N) : N := 10 * a + d.

(** A character that ends a number: it is no digit and the lexer takes
    it between two tokens. *)
Definition ends_number (c : ascii) (t : option token) (st : lexstate) : Prop :=
  digit_val c = None /\ idle_step c = Some (t, st).

(** The tokens of the elements of an array of integers. *)
Fixpoint elems_tokens (l : list Z) : list token :=
  match l with
  | [] => []
  | [z] => [TNum z]
  | z :: l' => TNum z :: TComma :: elems_tokens l'
  end.

Definition ascii7 (c : ascii) : bool := N_of_ascii c <? 128.

(** A character that a JSON string holds as it is, within ASCII. *)
Definition wire_char (c : ascii) : Prop :=
  ascii7 c = true /\ escape_char c = [c].

End codec.

Module coordinator.

Import memory_handler provider discord_provider.

(** The steps of [send_discord_message] up to the moment the request is
    sent: both turns appended, the transcript encoded and stored in the
    serial settings.  The value is the encoded transcript. *)
Definition issue_request (a_message : Message) : M Provider string :=
  self <- get ;;
  let user_message :=
    (author_name a_message ++ ": " ++ content a_message ++ String newline EmptyString)%string in
  on_memories (append_message user_message (tokenizer self) true) ;;;
  on_memories (append_message (bot_name self ++ ":")%string (tokenizer self) true) ;;;
  encoded <- on_memories (get_encoded_chat_history (tokenizer self)) ;;
  modify (set_serial_chat_history encoded) ;;;
  ret encoded.

Definition transcript_of (self : Provider) : list string :=
  chat_history (memories self).

(** A generation that is [None] or text of white space only. *)
Definition is_empty_output (a_generation : pyval) : bool :=
  match a_generation with
  | PNone => true
  | PStr s => String.eqb (strip s) EmptyString
  | _ => false
  end.

End coordinator.

Module examples.

Import memory_handler provider discord_provider.

(** A tokenizer with one token per character, for the concrete cases. *)
Definition char_tokenizer : AutoTokenizer :=
  {| encode := fun s => map (fun c => Z.of_N (N_of_ascii c)) (list_ascii_of_string s);
     decode := fun ids => string_of_list_ascii (map (fun z => ascii_of_N (Z.to_N z)) ids) |}.

Definition settings (cycler : string) (budget : Z) : Settings :=
  {| setting_memory_cycler := cycler;
     setting_extra_budget := 0;
     setting_device := "cpu";
     setting_max_length := budget;
     setting_prompt := "P" |}.

Definition handler (cycler : string) (budget : Z) (turns : list string)
  : Memory_Handler :=
  set_chat_history ("P"%string :: turns) (init (settings cycler budget) char_tokenizer).

Definition bot (cycler : string) (budget : Z) (turns : list string) : Provider :=
  {| user_name := "User";
     bot_name := "Bot";
     memories := handler cycler budget turns;
     tokenizer := char_tokenizer;
     serial_chat_history := None |}.

Definition hello : Message := {| author_name := "u"; content := "hi" |}.

Definition slash : Interaction :=
  {| interaction_user_name := "u";
     command_name := "autocomplete";
     user_avatar := Some "https://cdn.discordapp.com/embed/avatars/0.png"%string;
     channel_webhooks := [];
     created_webhook_url := "https://discord.com/api/webhooks/1/t";
     webhook_post := fun _ => provider.Responded 204 None |}.

End examples.

(* ================================================================== *)
(** * Further definitions: sessions of calls *)
(* ================================================================== *)

Module session.

Import memory_handler transcript.

(** A call on the handler: one of the operations above, or [pop_memory]. *)
Inductive call : Type :=
| Op (o : op)
| Pop (a_index : Z).

Definition run_call (a_tokenizer : AutoTokenizer) (c : call) : M Memory_Handler unit :=
  match c with
  | Op o => run_op a_tokenizer o
  | Pop a_index => pop_memory a_index ;;; ret tt
  end.

(** A session whose caller goes on after a call that raised, as the event
    loop of the bot does: the next call finds the handler as the failed
    call left it. *)
Fixpoint resume (a_tokenizer : AutoTokenizer) (calls : list call)
         (self : Memory_Handler) : Memory_Handler :=
  match calls with
  | [] => self
  | c :: calls' => resume a_tokenizer calls' (snd (run_call a_tokenizer c self))
  end.

(** The handler evicts nothing on an append: its cycler is neither of the
    two that [dispatch_memory_cycler] knows. *)
Definition no_cycler (self : Memory_Handler) : bool :=
  negb (String.eqb (memory_cycler_type self) "by_sentence")
  && negb (String.eqb (memory_cycler_type self) "by_token").

(** The position that [list.pop(i)] removes in a list of [n] elements. *)
Definition position (i n : Z) : Z := if i <? 0 then i + n else i.

End session.

(* ================================================================== *)
(** * Further definitions: the other methods of the providers *)
(* ================================================================== *)

Module provider_methods.

Import memory_handler provider.

(** [Provider.tokenize_single_token] *)
Definition tokenize_single_token (a_tokenizer : AutoTokenizer) (a_str : string)
  : completion Z :=
  let tokenized_word_list := encode a_tokenizer a_str in
  if len tokenized_word_list >? 1 then Raises ValueError
  else match tokenized_word_list with
       | tokenized_word :: _ => Returns tokenized_word
       | [] => Raises IndexError
       end.

End provider_methods.

Module discord_commands.

Import memory_handler provider provider_methods discord_provider.

(** The [generate] command.  Of the sampler arguments only the word to
    bias and its threshold reach code that can fail, and the threshold is
    only tested against [None]; the others are copied into the payload.
    The value is the text sent back in the embed, if any. *)
Definition generation (a_interaction : Interaction) (prompt : string)
           (short_word_to_bias : option string) (word_bias_threshold : option Z)
           (backend : string -> post_outcome) : M Provider (option string) :=
  self <- get ;;
  let prompt_list := encode (tokenizer self) prompt in
  logit_bias <-
    match short_word_to_bias, word_bias_threshold with
    | Some word, Some threshold =>
        token <- lift (tokenize_single_token (tokenizer self) word) ;;
        ret (Some (token, threshold))
    | _, _ => ret None
    end ;;
  chat_history <- lift (front_end_utils.get_encoded_str_from_token_list prompt_list) ;;
  bot_response <- lift (request_generation (backend chat_history)) ;;
  valid <- validate_generation bot_response (Some a_interaction) None ;;
  if valid then
    decoded_bot_message <-
      lift (front_end_utils.decode_encoded_tokenized_tensor bot_response) ;;
    detokenized_bot_message <-
      lift (detokenize_decoded_message (tokenizer self) decoded_bot_message) ;;
    ret (Some detokenized_bot_message)
  else ret None.

(** [range(start, stop)] *)
Definition range (start stop : Z) : list Z :=
  map (fun i => start + Z.of_nat i) (seq 0 (Z.to_nat (stop - start))).

(** [str(n)] of an [int]. *)
Definition str (n : Z) : string := string_of_list_ascii (json.repr n).

(** The [display_memories] command: the description of the embed and its
    fields, each a name and a value. *)
Definition display_memories : M Provider (string * list (string * string)) :=
  self <- get ;;
  let chat_history := chat_history (memories self) in
  if len chat_history <? 2
  then ret ("No memories in chat history. Silence is Golden."%string, [])
  else ret ("Heaven Knows, Earth Knows, I Know, You Know"%string,
            map (fun itr => (("memory " ++ str itr ++ ": ")%string,
                             nth (Z.to_nat itr) chat_history EmptyString))
                (range 1 (len chat_history))).

End discord_commands.

Module wire.

Import json base64.

Local Open Scope N_scope.

(** A character of the base 64 text: of the alphabet, or the pad. *)
Definition in_alphabet (c : ascii) : Prop := b64_index c <> None \/ c = pad.

(** An ASCII character that the decoder passes over: neither of the
    alphabet nor the pad. *)
Definition skipped (c : ascii) : bool :=
  (N_of_ascii c <? 128) && negb (Ascii.eqb c pad)
  && match b64_index c with Some _ => false | None => true end.

End wire.

(* ================================================================== *)
(** * Further definitions: dicts and front_end_utils.flatten_nested_dictionary *)
(* ================================================================== *)

Module dicts.

(** A [dict] with string keys, in insertion order. *)
Definition dict : Type := list (string * pyval).

Definition keys (d : dict) : list string := map fst d.

(** [d.get(key)] *)
Fixpoint dict_get (key : string) (d : dict) : option pyval :=
  match d with
  | [] => None
  | (k, v) :: d' => if String.eqb key k then Some v else dict_get key d'
  end.

(** [key in d] *)
Definition dict_has (key : string) (d : dict) : bool :=
  match dict_get key d with Some _ => true | None => false end.

(** [d[key] = v]: a key that is present keeps its place. *)
Fixpoint dict_set (key : string) (v : pyval) (d : dict) : dict :=
  match d with
  | [] => [(key, v)]
  | (k, v') :: d' =>
      if String.eqb key k then (k, v) :: d' else (k, v') :: dict_set key v d'
  end.

(** [d.update(items)] *)
Definition dict_update (d : dict) (items : dict) : dict :=
  fold_left (fun out kv => dict_set (fst kv) (snd kv) out) items d.

End dicts.

Module flattening.
Import dicts.

Definition update_with (out : dict) (deeper : completion pyval)
           (k : dict -> completion dict) : completion dict :=
  match deeper with
  | Returns (PDict items) => k (dict_update out items)
  | Returns _ => Raises AttributeError
  | Raises e => Raises e
  end.

Fixpoint flatten_subdicts (rec : pyval -> completion pyval) (val : list pyval)
         (out : dict) : completion dict :=
  match val with
  | [] => Returns out
  | subdict :: val' =>
      match subdict with
      | PDict _ | PList _ =>
          update_with out (rec subdict) (flatten_subdicts rec val')
      | _ => flatten_subdicts rec val' out
      end
  end.

Fixpoint flatten_items (rec : pyval -> completion pyval) (items : dict)
         (out : dict) : completion dict :=
  match items with
  | [] => Returns out
  | (key, val) :: items' =>
      match val with
      | PDict _ => 
          match flatten_subdicts rec [val] out with
          | Returns out' => flatten_items rec items' out'
          | Raises e => Raises e
          end
      | PList l =>
          match flatten_subdicts rec l out with
          | Returns out' => flatten_items rec items' out'
          | Raises e => Raises e
          end
      | _ => flatten_items rec items' (dict_set key val out)
      end
  end.

Fixpoint flatten_nested_dictionary (a_data : pyval) : completion pyval :=
  match a_data with
  | PDict d =>
      match flatten_items flatten_nested_dictionary d [] with
      | Returns out => Returns (PDict out)
      | Raises e => Raises e
      end
  | PList _ => Raises AttributeError
  | _ => Returns a_data
  end.
End flattening.

(* ================================================================== *)
(** * Further definitions: the shape of nested settings *)
(* ================================================================== *)

Module nesting.

Import dicts flattening.

Definition scalar (v : pyval) : bool :=
  match v with
  | PDict _ | PList _ => false
  | _ => true
  end.

(** [leaf k v]: the key [k] carries a value that is neither a dict nor a
    list, in the dict [v] or in a dict reached from it through dict values
    and through the dict elements of list values. *)
Inductive leaf (k : string) : pyval -> Prop :=
| leaf_here d v :
    In (k, v) d -> scalar v = true -> leaf k (PDict d)
| leaf_dict d k' d' :
    In (k', PDict d') d -> leaf k (PDict d') -> leaf k (PDict d)
| leaf_list d k' l d' :
    In (k', PList l) d -> In (PDict d') l -> leaf k (PDict d') ->
    leaf k (PDict d).

(** [list_in_list v]: a list that is an element of a list value, in the
    dict [v] or in a dict reached from it in the same way. *)
Inductive list_in_list : pyval -> Prop :=
| lil_here d k l l' :
    In (k, PList l) d -> In (PList l') l -> list_in_list (PDict d)
| lil_dict d k d' :
    In (k, PDict d') d -> list_in_list (PDict d') -> list_in_list (PDict d)
| lil_list d k l d' :
    In (k, PList l) d -> In (PDict d') l -> list_in_list (PDict d') ->
    list_in_list (PDict d).

(** A dict as [json.load] builds it and [flatten_nested_dictionary] returns
    it: no key twice; [flat]: every value a scalar. *)
Definition flat (d : dict) : Prop :=
  NoDup (keys d) /\ Forall (fun kv => scalar (snd kv) = true) d.

Definition leaf_entry (k : string) (kv : string * pyval) : Prop :=
  (k = fst kv /\ scalar (snd kv) = true) \/
  (exists d', snd kv = PDict d' /\ leaf k (PDict d')) \/
  (exists l d', snd kv = PList l /\ In (PDict d') l /\ leaf k (PDict d')).

Definition keys_spec (v : pyval) : Prop :=
  forall out, flatten_nested_dictionary v = Returns (PDict out) ->
  forall k, In k (keys out) <-> leaf k v.

Definition flat_spec (v : pyval) : Prop :=
  forall out, flatten_nested_dictionary v = Returns (PDict out) -> flat out.

Definition raise_spec (v : pyval) : Prop :=
  forall e, flatten_nested_dictionary v = Raises e ->
            e = AttributeError /\ forall d, v = PDict d -> list_in_list v.

End nesting.

(** Induction on a value with the hypothesis for every element of a list
    and every value of a dict. *)
Fixpoint pyval_nested_ind (P : pyval -> Prop)
  (HNone : P PNone) (HBool : forall b, P (PBool b)) (HInt : forall z, P (PInt z))
  (HStr : forall s, P (PStr s))
  (HList : forall l, Forall P l -> P (PList l))
  (HDict : forall d, Forall (fun kv => P (snd kv)) d -> P (PDict d))
  (v : pyval) {struct v} : P v :=
  match v with
  | PNone => HNone
  | PBool b => HBool b
  | PInt z => HInt z
  | PStr s => HStr s
  | PList l =>
      HList l ((fix go (l : list pyval) : Forall P l :=
                  match l with
                  | [] => Forall_nil P
                  | x :: l' =>
                      Forall_cons x
                        (@pyval_nested_ind P HNone HBool HInt HStr HList HDict x)
                        (go l')
                  end) l)
  | PDict d =>
      HDict d ((fix go (d : list (string * pyval))
                  : Forall (fun kv => P (snd kv)) d :=
                  match d with
                  | [] => Forall_nil _
                  | kv :: d' =>
                      Forall_cons (P := fun kv => P (snd kv)) kv
                        (match kv as kv0 return P (snd kv0) with
                         | (_, x) =>
                             @pyval_nested_ind P HNone HBool HInt HStr HList HDict x
                         end)
                        (go d')
                  end) d)
  end.

(* ================================================================== *)
(** * Further definitions: settings_handler.py *)
(* ================================================================== *)

Module settings_handler.

Import dicts flattening.

(** [KeyError] carries the key; the other exceptions are those of [Py]. *)
Inductive raised : Type :=
| KeyError (key : string)
| Exn (e : exn).

Inductive result (A : Type) : Type :=
| Done (a : A)
| Fail (r : raised).
Arguments Done {A} a.
Arguments Fail {A} r.

Definition and_then {A B : Type} (r : result A) (k : A -> result B) : result B :=
  match r with
  | Done a => k a
  | Fail e => Fail e
  end.

Declare Scope result_scope.
Notation "x <- c ;; k" := (and_then c (fun x => k))
  (at level 61, c at next level, right associativity) : result_scope.
Local Open Scope result_scope.

Definition of_completion {A : Type} (c : completion A) : result A :=
  match c with
  | Returns a => Done a
  | Raises e => Fail (Exn e)
  end.

(** [v[key]] *)
Definition subscript (v : pyval) (key : string) : result pyval :=
  match v with
  | PDict d =>
      match dict_get key d with
      | Some x => Done x
      | None => Fail (KeyError key)
      end
  | _ => Fail (Exn TypeError)
  end.

Fixpoint substring_of (key s : string) : bool :=
  String.prefix key s ||
  match s with
  | EmptyString => false
  | String _ s' => substring_of key s'
  end.

(** [key in v] *)
Definition contains (key : string) (v : pyval) : result bool :=
  match v with
  | PDict d => Done (dict_has key d)
  | PList l =>
      Done (existsb (fun x => match x with
                              | PStr s => String.eqb key s
                              | _ => false
                              end) l)
  | PStr s => Done (substring_of key s)
  | _ => Fail (Exn TypeError)
  end.



(** [{**v}] *)
Definition mapping (v : pyval) : result dict :=
  match v with
  | PDict d => Done d
  | _ => Fail (Exn TypeError)
  end.

(** [v == s] for a string [s] *)
Definition eq_str (v : pyval) (s : string) : bool :=
  match v with
  | PStr s' => String.eqb s' s
  | _ => false
  end.

Definition vital_settings_group_list : list string :=
  ["model_settings"; "tokenizer_settings"; "generation_settings";
   "input_settings"; "provider_settings"]%string.

Definition vital_settings_list : list string :=
  ["prompt"; "tokenizer"; "model"; "device"; "provider_type"; "bot_name";
   "user_name"; "max_length"]%string.

Definition necessary_discord_settings_list : list string :=
  ["token"; "main_guild_id"]%string.

(** [for vital in names: if not (vital in v): sys.exit(-1)] *)
Fixpoint exit_unless_all (names : list string) (v : pyval) : result unit :=
  match names with
  | [] => Done tt
  | vital :: names' =>
      present <- contains vital v ;;
      if negb present then Fail (Exn SystemExit)
      else exit_unless_all names' v
  end.

Definition verify_settings_group_existence (settings : pyval) : result unit :=
  exit_unless_all vital_settings_group_list settings.

Definition verify_settings_existence (settings : pyval) : result unit :=
  flattened_dict <- of_completion (flatten_nested_dictionary settings) ;;
  _ <- exit_unless_all vital_settings_list flattened_dict ;;
  provider_settings <- subscript settings "provider_settings" ;;
  if eq_str provider_settings "discord"
  then exit_unless_all necessary_discord_settings_list flattened_dict
  else Done tt.


Definition retrieve_consolidated_generation_settings (settings : pyval)
  : result pyval :=
  generation_settings <- subscript settings "generation_settings" ;;
  sampler_settings <- subscript generation_settings "sampler_settings" ;;
  sampler <- mapping sampler_settings ;;
  generation_settings <- subscript settings "generation_settings" ;;
  syntax_settings <- subscript generation_settings "syntax_settings" ;;
  syntax <- mapping syntax_settings ;;
  Done (PDict (dict_update (dict_update [] sampler) syntax)).

(** [key in v.keys()] *)
Definition keys_contains (key : string) (v : pyval) : result bool :=
  match v with
  | PDict d => Done (dict_has key d)
  | _ => Fail (Exn AttributeError)
  end.

(** [v.items()] *)
Definition items (v : pyval) : result dict :=
  match v with
  | PDict d => Done d
  | _ => Fail (Exn AttributeError)
  end.

(** Keys of a dict that [dict()] builds: any hashable value, compared with
    [==] ([True == 1]). *)
Definition number (v : pyval) : option Z :=
  match v with
  | PBool b => Some (if b then 1 else 0)
  | PInt z => Some z
  | _ => None
  end.

Definition key_eqb (a b : pyval) : bool :=
  match a, b with
  | PNone, PNone => true
  | PStr s, PStr s' => String.eqb s s'
  | _, _ =>
      match number a, number b with
      | Some x, Some y => x =? y
      | _, _ => false
      end
  end.

Definition hashable (v : pyval) : bool :=
  match v with
  | PList _ | PDict _ => false
  | _ => true
  end.

Fixpoint pairs_set (key v : pyval) (d : list (pyval * pyval))
  : list (pyval * pyval) :=
  match d with
  | [] => [(key, v)]
  | (k, v') :: d' =>
      if key_eqb key k then (k, v) :: d' else (k, v') :: pairs_set key v d'
  end.

(** One element of the sequence given to [dict()]: an iterable of two
    items, the first of them hashable. *)
Definition pair_of (element : pyval) : result (pyval * pyval) :=
  match element with
  | PList [k; v] => if hashable k then Done (k, v) else Fail (Exn TypeError)
  | PList _ => Fail (Exn ValueError)
  | PStr s =>
      match list_ascii_of_string s with
      | [a; b] => Done (PStr (String a EmptyString), PStr (String b EmptyString))
      | _ => Fail (Exn ValueError)
      end
  | PDict [(k1, _); (k2, _)] => Done (PStr k1, PStr k2)
  | PDict _ => Fail (Exn ValueError)
  | _ => Fail (Exn TypeError)
  end.

Fixpoint dict_of_sequence (elements : list pyval) (out : list (pyval * pyval))
  : result (list (pyval * pyval)) :=
  match elements with
  | [] => Done out
  | element :: elements' =>
      kv <- pair_of element ;;
      dict_of_sequence elements' (pairs_set (fst kv) (snd kv) out)
  end.

(** [dict(v).items()] *)
Definition dict_items (v : pyval) : result (list (pyval * pyval)) :=
  match v with
  | PDict d => Done (map (fun kv => (PStr (fst kv), snd kv)) d)
  | PList l => dict_of_sequence l []
  | PStr EmptyString => Done []
  | PStr _ => Fail (Exn ValueError)
  | _ => Fail (Exn TypeError)
  end.

(** The body of the loop over the words to bias.  [Settings_Handler] has no
    attribute [settings_object], so the assignment that would replace the
    word by its token raises. *)
Definition bias_word (encode : pyval -> completion (list Z)) (word bias : pyval)
  : result unit :=
  tokenized_word_list <- of_completion (encode word) ;;
  if len tokenized_word_list >? 1 then Fail (Exn ValueError)
  else match tokenized_word_list with
       | [] => Fail (Exn IndexError)
       | tokenized_word :: _ => Fail (Exn AttributeError)
       end.

Fixpoint bias_words (encode : pyval -> completion (list Z))
         (words : list (pyval * pyval)) : result unit :=
  match words with
  | [] => Done tt
  | (word, bias) :: words' =>
      _ <- bias_word encode word bias ;;
      bias_words encode words'
  end.

Fixpoint bias_processors (encode : pyval -> completion (list Z))
         (processors : dict) : result unit :=
  match processors with
  | [] => Done tt
  | (processor, processor_values) :: processors' =>
      _ <- (if String.eqb processor "logit_bias"
            then words <- dict_items processor_values ;; bias_words encode words
            else Done tt) ;;
      bias_processors encode processors'
  end.

(** [encode] is [self.tokenizer.encode]. *)
Definition replace_biased_tokens (encode : pyval -> completion (list Z))
           (settings : pyval) : result unit :=
  has_experimental <- keys_contains "experimental_settings" settings ;;
  has_processors <-
    (if has_experimental
     then experimental_settings <- subscript settings "experimental_settings" ;;
          keys_contains "experimental_processors" experimental_settings
     else Done false) ;;
  if has_processors
  then experimental_settings <- subscript settings "experimental_settings" ;;
       experimental_processors <-
         subscript experimental_settings "experimental_processors" ;;
       processors <- items experimental_processors ;;
       bias_processors encode processors
  else Done tt.

End settings_handler.

Module memory_handler_settings.
Import settings_handler.
Local Open Scope result_scope.



End memory_handler_settings.

(* ================================================================== *)
(** * Further definitions: the regenerate command *)
(* ================================================================== *)

Module discord_regenerate.

Import memory_handler provider discord_provider.

(** What [regenerate] reads of the message a reply answers, when that
    message is in the cache: the id of its author, and the message that
    [send_discord_message] is given. *)
Record Referenced : Type := {
  original_author_id : Z;
  original_message : Message
}.

(** What [regenerate] reads of a message of the channel: the id of its
    author and its [reference], [None] or a reference whose
    [cached_message] is [None] or a message. *)
Record Channel_Message : Type := {
  author_id : Z;
  reference : option (option Referenced)
}.

(** The [regenerate] command.  [user_id] is [self.user.id], [channel] what
    [a_interaction.channel.history] yields, the newest message first.  With
    fewer than two messages [message] is still the empty string, which has
    no [author]; [discord.Client.get_channel] called on the class with the
    channel id alone lacks an argument. *)
Definition regenerate (user_id interaction_user_id : Z)
           (channel : list Channel_Message)
           (backend : string -> post_outcome) : M Provider unit :=
  self <- get ;;
  if len (chat_history (memories self)) <? 2 then ret tt
  else
    match nth_error (firstn 2 channel) 1 with
    | None => raise AttributeError
    | Some message =>
        if author_id message =? user_id then
          match reference message with
          | Some cached_message =>
              match cached_message with
              | None => raise TypeError
              | Some original =>
                  if original_author_id original =? interaction_user_id then
                    on_memories (pop_memory (-1)) ;;;
                    on_memories (pop_memory (-1)) ;;;
                    send_discord_message (original_message original) backend
                  else ret tt
              end
          | None => ret tt
          end
        else ret tt
    end.

End discord_regenerate.

Module config_examples.

Import dicts flattening settings_handler discord_provider discord_regenerate.

(** A configuration file with the groups and settings that the checks ask
    for, no [memory_cycler], and one word to bias. *)
Definition config : dict :=
  [("model_settings", PDict [("model", PStr "gpt2")]);
   ("tokenizer_settings", PDict [("tokenizer", PStr "gpt2")]);
   ("generation_settings",
    PDict [("sampler_settings", PDict [("top_k", PInt 40); ("max_length", PInt 5)]);
           ("syntax_settings", PDict [("max_length", PInt 100)])]);
   ("input_settings", PDict [("prompt", PStr "P")]);
   ("provider_settings",
    PDict [("provider_type", PStr "discord"); ("bot_name", PStr "Bot");
           ("user_name", PStr "User")]);
   ("netherworld_settings", PDict [("extra_budget", PInt 0); ("device", PStr "cpu")]);
   ("experimental_settings",
    PDict [("experimental_processors",
            PDict [("logit_bias", PDict [("h", PInt 2)])])])]%string.

Definition flattened : dict :=
  [("model", PStr "gpt2"); ("tokenizer", PStr "gpt2"); ("top_k", PInt 40);
   ("max_length", PInt 100); ("prompt", PStr "P"); ("provider_type", PStr "discord");
   ("bot_name", PStr "Bot"); ("user_name", PStr "User"); ("extra_budget", PInt 0);
   ("device", PStr "cpu"); ("h", PInt 2)]%string.

(** [encode] of the one-token-per-character tokenizer, on a string. *)
Definition encode_word (word : pyval) : completion (list Z) :=
  match word with
  | PStr s => Returns (encode examples.char_tokenizer s)
  | _ => Raises TypeError
  end.

(** A channel whose second newest message is the bot's (id 1) answer to a
    cached message of the user with id 7. *)
Definition channel : list Channel_Message :=
  [{| author_id := 1; reference := None |};
   {| author_id := 1;
      reference := Some (Some {| original_author_id := 7;
                                 original_message := examples.hello |}) |}].

End config_examples.

(* ================================================================== *)
(** * Properties of the list primitives *)
(* ================================================================== *)

Section ListFacts.

Variable A : Type.

Lemma len_nonneg (l : list A) : 0 <= len l.
Proof. unfold len. lia. Qed.

Lemma len_cons (x : A) (l : list A) : len (x :: l) = len l + 1.
Proof. unfold len. simpl length. lia. Qed.

Lemma len_app (l l' : list A) : len (l ++ l') = len l + len l'.
Proof. unfold len. rewrite length_app. lia. Qed.

Lemma list_pop_first (x : A) (l : list A) :
  list_pop 0 (x :: l) = (Returns x, l).
Proof.
  unfold list_pop. change (fits_ssize_t 0) with true. cbn [negb Z.ltb Z.compare orb].
  pose proof (len_nonneg l) as Hl. rewrite len_cons.
  destruct (len l + 1 <=? 0) eqn:E; [apply Z.leb_le in E; lia|].
  reflexivity.
Qed.

Lemma list_pop_empty (i : Z) :
  fits_ssize_t i = true ->
  list_pop i ([] : list A) = (Raises IndexError, []).
Proof.
  intros Hfits. unfold list_pop, len. rewrite Hfits. cbn [negb].
  simpl length. cbn [Z.of_nat].
  destruct (i <? 0) eqn:E.
  - rewrite Z.add_0_r, E. reflexivity.
  - apply Z.ltb_ge in E.
    replace (0 <=? i) with true by (symmetry; apply Z.leb_le; lia).
    rewrite orb_true_r. reflexivity.
Qed.

Lemma remove_nth_last (l : list A) (x : A) :
  remove_nth (length l) (l ++ [x]) = l.
Proof. induction l as [|y l IH]; simpl; [reflexivity | now rewrite IH]. Qed.

Lemma nth_error_last (l : list A) (x : A) :
  nth_error (l ++ [x]) (length l) = Some x.
Proof. induction l as [|y l IH]; simpl; [reflexivity | exact IH]. Qed.

Lemma len_to_nat (l : list A) : Z.to_nat (len l) = length l.
Proof. unfold len. apply Nat2Z.id. Qed.

Lemma list_pop_last (l : list A) (x : A) :
  list_pop (-1) (l ++ [x]) = (Returns x, l).
Proof.
  unfold list_pop. change (fits_ssize_t (-1)) with true. cbn [negb Z.ltb Z.compare].
  assert (Hlen : len (l ++ [x]) = len l + 1) by (rewrite len_app; reflexivity).
  rewrite Hlen.
  replace (-1 + (len l + 1)) with (len l) by lia.
  pose proof (len_nonneg l) as Hl.
  destruct (len l <? 0) eqn:E1; [apply Z.ltb_lt in E1; lia|].
  destruct (len l + 1 <=? len l) eqn:E2; [apply Z.leb_le in E2; lia|].
  cbn [orb]. rewrite len_to_nat, nth_error_last, remove_nth_last.
  reflexivity.
Qed.

Lemma list_insert_first (x : A) (l : list A) :
  list_insert 0 x l = (Returns tt, x :: l).
Proof.
  unfold list_insert. cbn [Z.ltb Z.compare].
  pose proof (len_nonneg l) as Hl.
  rewrite Z.min_l by lia. reflexivity.
Qed.

End ListFacts.

(* ================================================================== *)
(** * Properties of the transcript store *)
(* ================================================================== *)

Section TranscriptStore.

Import memory_handler.

Variable a_tokenizer : AutoTokenizer.

Lemma pop_memory_last (self : Memory_Handler) (h : list string) (x : string) :
  chat_history self = h ++ [x] ->
  pop_memory (-1) self = (Returns x, set_chat_history h self).
Proof.
  intros Hh. unfold pop_memory, on_chat_history, zoom.
  rewrite Hh, list_pop_last. reflexivity.
Qed.

Lemma pop_memory_empty (self : Memory_Handler) (i : Z) :
  fits_ssize_t i = true ->
  chat_history self = [] ->
  pop_memory i self = (Raises IndexError, set_chat_history [] self).
Proof.
  intros Hfits Hh. unfold pop_memory, on_chat_history, zoom.
  rewrite Hh, list_pop_empty by exact Hfits. reflexivity.
Qed.

(** C9 (as the code has it): with its default index [pop_memory] removes
    and returns the final entry of every transcript that is not empty,
    the preamble included when it is the only entry, and raises
    [IndexError] on the empty transcript only. *)
Theorem pop_memory_removes_last_entry (self : Memory_Handler) :
  (forall h x, chat_history self = h ++ [x] ->
               pop_memory (-1) self = (Returns x, set_chat_history h self))
  /\ (chat_history self = [prompt self] ->
      pop_memory (-1) self = (Returns (prompt self), set_chat_history [] self))
  /\ (chat_history self = [] ->
      pop_memory (-1) self = (Raises IndexError, set_chat_history [] self)).
Proof.
  split; [|split].
  - intros h x Hh. now apply pop_memory_last.
  - intros Hh. now apply (pop_memory_last self []).
  - intros Hh. now apply pop_memory_empty.
Qed.

(** C10: with the [by_token] cycler every call of
    [dispatch_memory_cycler] raises [AttributeError] and leaves the
    handler as it was, so [append_message] with cycling appends the
    message, raises, and the transcript is the old one with the message
    at its end, whatever the budget. *)
Theorem by_token_dispatch_raises (self : Memory_Handler) :
  memory_cycler_type self = "by_token"%string ->
  dispatch_memory_cycler a_tokenizer self = (Raises AttributeError, self)
  /\ forall a_message,
      append_message a_message a_tokenizer true self
      = (Raises AttributeError, set_chat_history (chat_history self ++ [a_message]) self).
Proof.
  intros Hty.
  assert (Hd : forall s, memory_cycler_type s = "by_token"%string ->
                         dispatch_memory_cycler a_tokenizer s = (Raises AttributeError, s)).
  { intros s Hs. unfold dispatch_memory_cycler, bind, get. rewrite Hs. reflexivity. }
  split; [now apply Hd|].
  intros a_message. unfold append_message, bind, on_chat_history, zoom, list_append.
  rewrite Hd by exact Hty. reflexivity.
Qed.

End TranscriptStore.

Lemma pop_memory_removes_last_entry_witness :
  memory_handler.pop_memory (-1) (examples.handler "none" 10 ["a"%string])
  = (Returns "a"%string, examples.handler "none" 10 []).
Proof.
  apply (proj1 (pop_memory_removes_last_entry (examples.handler "none" 10 ["a"%string]))
               ["P"%string] "a"%string).
  reflexivity.
Defined.

(** C9, the claim as stated fails: on a transcript that holds the preamble
    alone [pop_memory] does not fail; it returns the preamble and leaves
    the transcript empty. *)
Lemma pop_memory_pops_preamble :
  let self := examples.handler "none" 10 [] in
  len (memory_handler.chat_history self) <= 1
  /\ fst (memory_handler.pop_memory (-1) self) = Returns (memory_handler.prompt self)
  /\ memory_handler.chat_history (snd (memory_handler.pop_memory (-1) self)) = [].
Proof. cbv zeta. split; [vm_compute; discriminate | split; reflexivity]. Qed.

Lemma by_token_dispatch_raises_witness :
  memory_handler.dispatch_memory_cycler examples.char_tokenizer
    (examples.handler "by_token" 10 [])
  = (Raises AttributeError, examples.handler "by_token" 10 [])
  /\ forall a_message,
      memory_handler.append_message a_message examples.char_tokenizer true
        (examples.handler "by_token" 10 [])
      = (Raises AttributeError,
         memory_handler.set_chat_history
           (memory_handler.chat_history (examples.handler "by_token" 10 []) ++ [a_message])
           (examples.handler "by_token" 10 [])).
Proof.
  apply (by_token_dispatch_raises examples.char_tokenizer (examples.handler "by_token" 10 [])).
  reflexivity.
Defined.

(* ================================================================== *)
(** * Properties of the eviction policies *)
(* ================================================================== *)

Section Eviction.

Import memory_handler transcript.

Variable a_tokenizer : AutoTokenizer.
Variables a_max_length a_extra_budget : Z.
Variable a_prompt_tensor : list Z.

Let prompt_tensor_size : Z := len a_prompt_tensor.

Let loop : Z -> list string -> list string :=
  sentence_loop a_max_length prompt_tensor_size a_tokenizer a_extra_budget.

Lemma sentence_loop_nil (size : Z) : loop size [] = [].
Proof. unfold loop. cbn [sentence_loop]. rewrite andb_false_r. reflexivity. Qed.

Lemma sentence_loop_cons (size : Z) (x : string) (h : list string) :
  loop size (x :: h)
  = if size + prompt_tensor_size >? a_max_length - a_extra_budget
    then loop (token_count a_tokenizer h) h
    else x :: h.
Proof.
  unfold loop. cbn [sentence_loop].
  replace (len (x :: h) >? 0) with true.
  - rewrite andb_true_r. reflexivity.
  - symmetry. apply Z.gtb_lt. rewrite len_cons. pose proof (len_nonneg h). lia.
Qed.

(** The loop removes a prefix of the entries: every removal happened
    over budget, and it stops within budget or with nothing left. *)
Lemma sentence_loop_spec (h : list string) :
  exists k : nat,
    (k <= length h)%nat
    /\ loop (token_count a_tokenizer h) h = skipn k h
    /\ (forall j : nat, (j < k)%nat ->
          token_count a_tokenizer (skipn j h) + prompt_tensor_size
          > a_max_length - a_extra_budget)
    /\ (token_count a_tokenizer (skipn k h) + prompt_tensor_size
        <= a_max_length - a_extra_budget
        \/ skipn k h = []).
Proof.
  induction h as [|x h IH].
  - exists 0%nat. rewrite sentence_loop_nil. cbn [skipn length].
    repeat split; [lia | intros j Hj; lia | now right].
  - rewrite sentence_loop_cons.
    destruct (token_count a_tokenizer (x :: h) + prompt_tensor_size
              >? a_max_length - a_extra_budget) eqn:E.
    + destruct IH as (k & Hk & Hloop & Hover & Hstop).
      exists (S k). cbn [skipn length]. repeat split.
      * lia.
      * exact Hloop.
      * intros [|j] Hj.
        -- cbn [skipn]. apply Z.gtb_lt in E. lia.
        -- cbn [skipn]. apply Hover. lia.
      * exact Hstop.
    + exists 0%nat. cbn [skipn length]. repeat split.
      * lia.
      * intros j Hj. lia.
      * left. rewrite Z.gtb_ltb in E. apply Z.ltb_ge in E. lia.
Qed.

Lemma by_sentence_run (original_prompt : string) (h : list string) :
  memory_cycle_by_sentence a_max_length a_prompt_tensor a_tokenizer a_extra_budget
                           (original_prompt :: h)
  = (Returns (original_prompt :: loop (token_count a_tokenizer h) h),
     original_prompt :: loop (token_count a_tokenizer h) h).
Proof.
  unfold memory_cycle_by_sentence, bind. rewrite list_pop_first.
  unfold get, put. rewrite list_insert_first. reflexivity.
Qed.

Lemma by_sentence_run_empty :
  memory_cycle_by_sentence a_max_length a_prompt_tensor a_tokenizer a_extra_budget []
  = (Raises IndexError, []).
Proof.
  unfold memory_cycle_by_sentence, bind.
  rewrite list_pop_empty by reflexivity. reflexivity.
Qed.

(** C5: on a transcript headed by the preamble [memory_cycle_by_sentence]
    returns, with the preamble followed by the entries left after the
    removal of the [k] oldest ones; each removal was made while the
    count measured on the entries then present was over
    [a_max_length - a_extra_budget], and at the end either the count of
    the entries left plus the count of the preamble is within it or no
    entry is left. *)
Theorem by_sentence_postcondition (original_prompt : string) (h : list string) :
  exists k : nat,
    (k <= length h)%nat
    /\ memory_cycle_by_sentence a_max_length a_prompt_tensor a_tokenizer a_extra_budget
                                (original_prompt :: h)
       = (Returns (original_prompt :: skipn k h), original_prompt :: skipn k h)
    /\ (forall j : nat, (j < k)%nat ->
          token_count a_tokenizer (skipn j h) + len a_prompt_tensor
          > a_max_length - a_extra_budget)
    /\ (token_count a_tokenizer (skipn k h) + len a_prompt_tensor
        <= a_max_length - a_extra_budget
        \/ skipn k h = []).
Proof.
  destruct (sentence_loop_spec h) as (k & Hk & Hloop & Hover & Hstop).
  exists k. rewrite by_sentence_run, Hloop. repeat split; assumption.
Qed.

Lemma sentence_loop_fits (h : list string) :
  token_count a_tokenizer h + prompt_tensor_size <= a_max_length - a_extra_budget ->
  loop (token_count a_tokenizer h) h = h.
Proof.
  intros Hfit. destruct h as [|x h]; [apply sentence_loop_nil|].
  rewrite sentence_loop_cons.
  destruct (token_count a_tokenizer (x :: h) + prompt_tensor_size
            >? a_max_length - a_extra_budget) eqn:E; [|reflexivity].
  apply Z.gtb_lt in E. lia.
Qed.

Lemma sentence_loop_idem (h : list string) :
  let h' := loop (token_count a_tokenizer h) h in
  loop (token_count a_tokenizer h') h' = h'.
Proof.
  cbv zeta. destruct (sentence_loop_spec h) as (k & _ & Hloop & _ & [Hfit | Hnil]).
  - rewrite Hloop. now apply sentence_loop_fits.
  - rewrite Hloop, Hnil. apply sentence_loop_nil.
Qed.

(** C4 (as the code has it): the [by_sentence] policy is idempotent, on
    every list and with the value it returns, and it leaves a transcript
    that fits the budget as it is. *)
Theorem by_sentence_idempotent :
  (forall a_chat_history : list string,
      let once := memory_cycle_by_sentence a_max_length a_prompt_tensor a_tokenizer
                                           a_extra_budget a_chat_history in
      memory_cycle_by_sentence a_max_length a_prompt_tensor a_tokenizer a_extra_budget
                               (snd once)
      = once)
  /\ (forall (original_prompt : string) (h : list string),
        token_count a_tokenizer h + len a_prompt_tensor <= a_max_length - a_extra_budget ->
        memory_cycle_by_sentence a_max_length a_prompt_tensor a_tokenizer a_extra_budget
                                 (original_prompt :: h)
        = (Returns (original_prompt :: h), original_prompt :: h)).
Proof.
  split.
  - intros [|original_prompt h]; cbv zeta.
    + rewrite by_sentence_run_empty. cbn [snd]. apply by_sentence_run_empty.
    + rewrite by_sentence_run. cbn [snd]. rewrite by_sentence_run.
      rewrite (sentence_loop_idem h). reflexivity.
  - intros original_prompt h Hfit. rewrite by_sentence_run.
    rewrite sentence_loop_fits by exact Hfit. reflexivity.
Qed.

Lemma by_token_run (original_prompt : string) (h : list string) :
  memory_cycle_by_token a_max_length a_prompt_tensor a_tokenizer a_extra_budget
                        (original_prompt :: h)
  = let tokens := encode a_tokenizer (join h) in
    let start := Z.abs (a_max_length - len a_prompt_tensor) in
    if len tokens + len a_prompt_tensor >? a_max_length - a_extra_budget
    then match torch.narrow tokens start (len tokens - start) with
         | Returns kept =>
             (Returns (original_prompt :: split newline (decode a_tokenizer kept)),
              original_prompt :: split newline (decode a_tokenizer kept))
         | Raises e => (Raises e, [])
         end
    else (Returns [original_prompt], [original_prompt]).
Proof.
  unfold memory_cycle_by_token, bind. rewrite list_pop_first.
  unfold get, list_clear. cbv zeta.
  destruct (len (encode a_tokenizer (join h)) + len a_prompt_tensor
            >? a_max_length - a_extra_budget).
  - unfold lift.
    destruct (torch.narrow (encode a_tokenizer (join h))
                           (Z.abs (a_max_length - len a_prompt_tensor))
                           (len (encode a_tokenizer (join h))
                            - Z.abs (a_max_length - len a_prompt_tensor))) as [kept|e].
    + unfold list_extend, batch_decode. cbn [map nth app].
      rewrite list_insert_first. reflexivity.
    + reflexivity.
  - unfold ret. rewrite list_insert_first. reflexivity.
Qed.

Lemma narrow_suffix (row : list Z) (start : Z) :
  0 <= start <= len row ->
  torch.narrow row start (len row - start) = Returns (skipn (Z.to_nat start) row).
Proof.
  intros Hs. unfold torch.narrow.
  destruct (len row - start <? 0) eqn:E1; [apply Z.ltb_lt in E1; lia|].
  destruct (start <? - len row) eqn:E2; [apply Z.ltb_lt in E2; lia|].
  destruct (len row <? start) eqn:E3; [apply Z.ltb_lt in E3; lia|].
  cbn [orb].
  destruct (start <? 0) eqn:E4; [apply Z.ltb_lt in E4; lia|].
  destruct (len row - (len row - start) <? start) eqn:E5; [apply Z.ltb_lt in E5; lia|].
  f_equal. apply firstn_all2. rewrite length_skipn.
  unfold len in *. lia.
Qed.

(** C3 (what the code does in place of the specified cut): over budget,
    and with at least [abs (a_max_length - prompt size)] tokens in the
    concatenated entries, [memory_cycle_by_token] discards exactly that
    many leading tokens, decodes the rest, splits it on newlines and puts
    the preamble back at position 0.  What it keeps is the overflow, not
    the most recent tokens that fit. *)
Theorem by_token_truncation (original_prompt : string) (h : list string) :
  let tokens := encode a_tokenizer (join h) in
  let L := len tokens in
  let start := Z.abs (a_max_length - len a_prompt_tensor) in
  L + len a_prompt_tensor > a_max_length - a_extra_budget ->
  start <= L ->
  let kept := skipn (Z.to_nat start) tokens in
  memory_cycle_by_token a_max_length a_prompt_tensor a_tokenizer a_extra_budget
                        (original_prompt :: h)
  = (Returns (original_prompt :: split newline (decode a_tokenizer kept)),
     original_prompt :: split newline (decode a_tokenizer kept)).
Proof.
  intros tokens L start Hover Hstart kept.
  rewrite by_token_run. cbv zeta. fold tokens. fold L. fold start.
  replace (L + len a_prompt_tensor >? a_max_length - a_extra_budget) with true
    by (symmetry; apply Z.gtb_lt; lia).
  unfold L. rewrite narrow_suffix by (unfold start; fold L; lia).
  reflexivity.
Qed.

(** The cut of the specification in the terms of the code: with the
    preamble within [a_max_length] and at least
    [a_max_length - prompt size] tokens in the entries, the specified
    policy keeps the slice that [torch.narrow] returns for the start
    [size - start_of_truncated_history] and the length
    [start_of_truncated_history], which are the two arguments that
    [memory_cycle_by_token] passes, exchanged. *)
Lemma by_token_as_specified_narrow (original_prompt : string) (h : list string) :
  let tokens := encode a_tokenizer (join h) in
  let L := len tokens in
  let start := Z.abs (a_max_length - len a_prompt_tensor) in
  L + len a_prompt_tensor > a_max_length - a_extra_budget ->
  len a_prompt_tensor <= a_max_length ->
  start <= L ->
  exists kept,
    torch.narrow tokens (L - start) start = Returns kept
    /\ by_token_as_specified a_max_length (len a_prompt_tensor) a_tokenizer
                             a_extra_budget original_prompt h
       = original_prompt :: split newline (decode a_tokenizer kept).
Proof.
  intros tokens L start Hover Hprompt Hstart.
  assert (Hs : start = a_max_length - len a_prompt_tensor) by (unfold start; lia).
  exists (skipn (Z.to_nat (L - start)) tokens). split.
  - unfold torch.narrow. fold L.
    pose proof (Z.abs_nonneg (a_max_length - len a_prompt_tensor)) as Hnn.
    fold start in Hnn.
    destruct (start <? 0) eqn:E1; [apply Z.ltb_lt in E1; lia|].
    destruct (L - start <? - L) eqn:E2; [apply Z.ltb_lt in E2; lia|].
    destruct (L <? L - start) eqn:E3; [apply Z.ltb_lt in E3; lia|].
    cbn [orb].
    destruct (L - start <? 0) eqn:E4; [apply Z.ltb_lt in E4; lia|].
    destruct (L - start <? L - start) eqn:E5; [apply Z.ltb_lt in E5; lia|].
    f_equal. apply firstn_all2. rewrite length_skipn.
    unfold L, len in *. lia.
  - unfold by_token_as_specified. cbv zeta. fold tokens. fold L.
    replace (L + len a_prompt_tensor >? a_max_length - a_extra_budget) with true
      by (symmetry; apply Z.gtb_lt; lia).
    rewrite <- Hs. replace (Z.max 0 (L - start)) with (L - start) by lia.
    reflexivity.
Qed.

End Eviction.

Lemma by_sentence_idempotent_witness :
  memory_handler.memory_cycle_by_sentence 10 [80] examples.char_tokenizer 0
    ["P"%string; "ab"%string]
  = (Returns ["P"%string; "ab"%string], ["P"%string; "ab"%string]).
Proof.
  apply (proj2 (by_sentence_idempotent examples.char_tokenizer 10 0 [80])
               "P"%string ["ab"%string]).
  vm_compute. discriminate.
Defined.

(** C4, the claim as stated fails for the [by_token] policy: with one
    token per character, a budget of 3 tokens and a preamble of 1 token,
    the first pass cuts the entry [abcdef] down to [cdef], which is still
    over budget, and a second pass cuts that down to [ef]. *)
Lemma by_token_not_idempotent :
  let evict := memory_handler.memory_cycle_by_token
                 3 (encode examples.char_tokenizer "P") examples.char_tokenizer 0 in
  let once := evict ["P"%string; "abcdef"%string] in
  once = (Returns ["P"%string; "cdef"%string], ["P"%string; "cdef"%string])
  /\ evict (snd once) = (Returns ["P"%string; "ef"%string], ["P"%string; "ef"%string])
  /\ evict (snd once) <> once.
Proof.
  cbv zeta. split; [reflexivity | split; [reflexivity | ]].
  vm_compute. discriminate.
Qed.

Lemma by_token_truncation_witness :
  memory_handler.memory_cycle_by_token 4 [80] examples.char_tokenizer 0
    ["P"%string; "abcde"%string]
  = (Returns ["P"%string; "de"%string], ["P"%string; "de"%string]).
Proof.
  apply (by_token_truncation examples.char_tokenizer 4 0 [80] "P"%string ["abcde"%string]).
  - vm_compute. reflexivity.
  - vm_compute. discriminate.
Defined.

(** C3, the claim as stated fails: with one token per character, a budget
    of 4 tokens and a preamble of 1 token, the entry [abcde] is over
    budget; the specified cut discards [max 0 (5 - (4 - 1)) = 2] tokens and
    keeps [cde], the code discards [abs (4 - 1) = 3] tokens and keeps
    [de]. *)
Lemma by_token_not_as_specified :
  let a_tokenizer := examples.char_tokenizer in
  let a_prompt_tensor := encode a_tokenizer "P" in
  transcript.token_count a_tokenizer ["abcde"%string] + len a_prompt_tensor > 4 - 0
  /\ transcript.by_token_as_specified 4 (len a_prompt_tensor) a_tokenizer 0
       "P"%string ["abcde"%string]
     = ["P"%string; "cde"%string]
  /\ memory_handler.memory_cycle_by_token 4 a_prompt_tensor a_tokenizer 0
       ["P"%string; "abcde"%string]
     = (Returns ["P"%string; "de"%string], ["P"%string; "de"%string])
  /\ snd (memory_handler.memory_cycle_by_token 4 a_prompt_tensor a_tokenizer 0
            ["P"%string; "abcde"%string])
     <> transcript.by_token_as_specified 4 (len a_prompt_tensor) a_tokenizer 0
          "P"%string ["abcde"%string].
Proof.
  cbv zeta. split; [vm_compute; reflexivity | split; [reflexivity | split; [reflexivity|]]].
  vm_compute. discriminate.
Qed.

(* ================================================================== *)
(** * The preamble invariant *)
(* ================================================================== *)

Section PreambleInvariant.

Import memory_handler transcript.

Variable a_tokenizer : AutoTokenizer.

Lemma headed_set (p : string) (self : Memory_Handler) (h : list string) :
  prompt self = p -> headed p (set_chat_history (p :: h) self).
Proof. intros Hp. split; [exact Hp | now exists h]. Qed.

Lemma evict_by_sentence_headed (p : string) (self self' : Memory_Handler) :
  headed p self ->
  evict_by_sentence a_tokenizer self = (Returns tt, self') ->
  headed p self'.
Proof.
  intros [Hp [h Hh]] Hrun.
  unfold evict_by_sentence, bind, get, on_chat_history, zoom in Hrun.
  rewrite Hh, by_sentence_run in Hrun. unfold ret in Hrun.
  injection Hrun as <-. now apply headed_set.
Qed.

Lemma evict_by_token_headed (p : string) (self self' : Memory_Handler) :
  headed p self ->
  evict_by_token a_tokenizer self = (Returns tt, self') ->
  headed p self'.
Proof.
  intros [Hp [h Hh]] Hrun.
  unfold evict_by_token, bind, get, on_chat_history, zoom in Hrun.
  rewrite Hh, by_token_run in Hrun. cbv zeta in Hrun.
  destruct (len (encode a_tokenizer (join h)) + len (prompt_tensor self)
            >? max_length self - extra_budget self).
  - destruct (torch.narrow _ _ _) as [kept|e]; [|discriminate].
    unfold ret in Hrun. injection Hrun as <-. now apply headed_set.
  - unfold ret in Hrun. injection Hrun as <-. now apply headed_set.
Qed.

Lemma dispatch_headed (p : string) (self self' : Memory_Handler) :
  headed p self ->
  dispatch_memory_cycler a_tokenizer self = (Returns tt, self') ->
  headed p self'.
Proof.
  intros Hhead Hrun.
  unfold dispatch_memory_cycler, bind, get in Hrun.
  destruct (String.eqb (memory_cycler_type self) "by_sentence").
  - apply (evict_by_sentence_headed (self := self) Hhead).
    unfold evict_by_sentence, bind, get. exact Hrun.
  - destruct (String.eqb (memory_cycler_type self) "by_token").
    + cbn in Hrun. discriminate.
    + unfold ret in Hrun. injection Hrun as <-. exact Hhead.
Qed.

Lemma append_message_headed (p : string) (self self' : Memory_Handler)
      (a_message : string) (a_cycle_through_memory : bool) :
  headed p self ->
  append_message a_message a_tokenizer a_cycle_through_memory self = (Returns tt, self') ->
  headed p self'.
Proof.
  intros [Hp [h Hh]] Hrun.
  unfold append_message, bind, on_chat_history, zoom, list_append in Hrun.
  rewrite Hh in Hrun. cbn [app] in Hrun.
  assert (Hmid : headed p (set_chat_history (p :: h ++ [a_message]) self))
    by now apply headed_set.
  destruct a_cycle_through_memory.
  - exact (dispatch_headed Hmid Hrun).
  - unfold ret in Hrun. injection Hrun as <-. exact Hmid.
Qed.

Lemma clear_all_memories_headed (p : string) (self self' : Memory_Handler) :
  headed p self ->
  clear_all_memories self = (Returns tt, self') ->
  headed p self'.
Proof.
  intros [Hp _] Hrun.
  unfold clear_all_memories, bind, get, on_chat_history, zoom, list_clear, list_append in Hrun.
  cbn in Hrun. injection Hrun as <-. rewrite Hp. now apply headed_set.
Qed.

Lemma run_op_headed (p : string) (o : op) (self self' : Memory_Handler) :
  headed p self ->
  run_op a_tokenizer o self = (Returns tt, self') ->
  headed p self'.
Proof.
  destruct o; cbn [run_op]; intros Hhead Hrun.
  - eapply append_message_headed; eassumption.
  - eapply evict_by_token_headed; eassumption.
  - eapply evict_by_sentence_headed; eassumption.
  - eapply clear_all_memories_headed; eassumption.
Qed.

Lemma run_ops_headed (p : string) (ops : list op) :
  forall self self',
    headed p self ->
    run_ops a_tokenizer ops self = (Returns tt, self') ->
    headed p self'.
Proof.
  induction ops as [|o ops IH]; intros self self' Hhead Hrun.
  - cbn in Hrun. injection Hrun as <-. exact Hhead.
  - cbn [run_ops] in Hrun. unfold bind in Hrun.
    destruct (run_op a_tokenizer o self) as [[[]|e] mid] eqn:Hop; [|discriminate].
    apply (IH mid self'); [|exact Hrun].
    eapply run_op_headed; eassumption.
Qed.

Lemma init_headed (a_settings : Settings) :
  headed (setting_prompt a_settings) (init a_settings a_tokenizer).
Proof. split; [reflexivity | now exists []]. Qed.

(** C1: a transcript is built from the configured preamble; after every
    sequence of [append_message], [memory_cycle_by_token],
    [memory_cycle_by_sentence] and [clear_all_memories] calls that all
    complete, the entry at position 0 of [chat_history] is the
    preamble. *)
Theorem preamble_invariant (a_settings : Settings) (ops : list op)
        (self' : Memory_Handler) :
  run_ops a_tokenizer ops (init a_settings a_tokenizer) = (Returns tt, self') ->
  nth_error (chat_history self') 0 = Some (setting_prompt a_settings).
Proof.
  intros Hrun.
  destruct (run_ops_headed ops (init_headed a_settings) Hrun) as [_ [h Hh]].
  rewrite Hh. reflexivity.
Qed.

End PreambleInvariant.

Lemma preamble_invariant_witness :
  nth_error
    (memory_handler.chat_history
       (snd (transcript.run_ops examples.char_tokenizer
               [transcript.Append "abc" true; transcript.Append "defgh" true;
                transcript.Append "ijk" false; transcript.EvictByToken;
                transcript.EvictBySentence; transcript.Clear;
                transcript.Append "j" true]
               (memory_handler.init (examples.settings "by_sentence" 6)
                                    examples.char_tokenizer))))
    0
  = Some "P"%string.
Proof.
  apply (preamble_invariant examples.char_tokenizer (examples.settings "by_sentence" 6)
           [transcript.Append "abc" true; transcript.Append "defgh" true;
            transcript.Append "ijk" false; transcript.EvictByToken;
            transcript.EvictBySentence; transcript.Clear;
            transcript.Append "j" true]).
  vm_compute. reflexivity.
Defined.

(* ================================================================== *)
(** * Properties of the generation request *)
(* ================================================================== *)

Section GenerationRequest.

Import provider.

Lemma request_generation_success (status_code : Z) (body : pyval) :
  (400 <=? status_code) && (status_code <? 600) = false ->
  request_generation (Responded status_code (Some body)) = Returns body.
Proof. intros H. unfold request_generation, post_and_check. rewrite H. reflexivity. Qed.

Lemma request_generation_timeout (e : exn) :
  is_Timeout e = true -> request_generation (PostRaised e) = Returns (PInt 0).
Proof. destruct e; intros H; try discriminate H; reflexivity. Qed.

Lemma request_generation_request_exception (e : exn) :
  is_RequestException e = true -> is_HTTPError e = false -> is_Timeout e = false ->
  request_generation (PostRaised e) = Returns (PInt (-1)).
Proof. destruct e; intros H1 H2 H3; try discriminate; reflexivity. Qed.

Lemma request_generation_other_exception (e : exn) :
  is_Exception e = true -> is_RequestException e = false ->
  request_generation (PostRaised e) = Returns (PInt (-2)).
Proof. destruct e; intros H1 H2; try discriminate; reflexivity. Qed.

Lemma request_generation_body_not_json (status_code : Z) :
  request_generation (Responded status_code None) = Returns (PInt (-1)).
Proof. reflexivity. Qed.

(** Every answer with a status from 400 to 599 and a JSON body ends in
    the first handler, whose read of [http_exception.code] raises. *)
Lemma request_generation_http_error (status_code : Z) (body : pyval) :
  (400 <=? status_code) && (status_code <? 600) = true ->
  request_generation (Responded status_code (Some body)) = Raises AttributeError.
Proof. intros H. unfold request_generation, post_and_check. rewrite H. reflexivity. Qed.

(** C7, the failing input: for an answer with status 500 and a JSON body
    [request_generation] does not return 500, it raises
    [AttributeError]; the other codes of the mapping are returned as the
    claim says. *)
Theorem request_generation_http_500_raises :
  (forall body, request_generation (Responded 500 (Some body)) = Raises AttributeError)
  /\ (forall body, request_generation (Responded 200 (Some body)) = Returns body)
  /\ request_generation (PostRaised Timeout) = Returns (PInt 0)
  /\ request_generation (PostRaised ConnectionError) = Returns (PInt (-1))
  /\ request_generation (PostRaised ValueError) = Returns (PInt (-2)).
Proof. repeat split. Qed.

End GenerationRequest.

(* ================================================================== *)
(** * Properties of the generation coordinator *)
(* ================================================================== *)

Section Coordinator.

Import memory_handler provider discord_provider coordinator.

Lemma on_chat_history_prompt (A : Type) (c : M (list string) A) (m : Memory_Handler) :
  prompt (snd (on_chat_history c m)) = prompt m.
Proof. unfold on_chat_history, zoom. destruct (c (chat_history m)). reflexivity. Qed.

Lemma dispatch_prompt (a_tokenizer : AutoTokenizer) (m : Memory_Handler) :
  prompt (snd (dispatch_memory_cycler a_tokenizer m)) = prompt m.
Proof.
  unfold dispatch_memory_cycler, bind, get.
  destruct (String.eqb (memory_cycler_type m) "by_sentence").
  - pose proof (on_chat_history_prompt
                  (memory_cycle_by_sentence (max_length m) (prompt_tensor m)
                                            a_tokenizer (extra_budget m)) m) as H.
    destruct (on_chat_history _ m) as [[r|e] m']; exact H.
  - destruct (String.eqb (memory_cycler_type m) "by_token"); reflexivity.
Qed.

Lemma append_message_prompt (a_message : string) (a_tokenizer : AutoTokenizer)
      (cycle : bool) (m : Memory_Handler) :
  prompt (snd (append_message a_message a_tokenizer cycle m)) = prompt m.
Proof.
  unfold append_message, bind, on_chat_history, zoom, list_append.
  destruct cycle; [|reflexivity].
  rewrite dispatch_prompt. reflexivity.
Qed.

(** Without the [by_sentence] cycler an append that completes has only
    added the message. *)
Lemma append_message_plain (a_message : string) (a_tokenizer : AutoTokenizer)
      (m m' : Memory_Handler) :
  String.eqb (memory_cycler_type m) "by_sentence" = false ->
  append_message a_message a_tokenizer true m = (Returns tt, m') ->
  m' = set_chat_history (chat_history m ++ [a_message]) m.
Proof.
  intros Hty Hrun.
  unfold append_message, bind, on_chat_history, zoom, list_append in Hrun.
  unfold dispatch_memory_cycler, bind, get in Hrun. cbn in Hrun.
  rewrite Hty in Hrun.
  destruct (String.eqb (memory_cycler_type m) "by_token").
  - discriminate.
  - now injection Hrun as <-.
Qed.

Lemma get_encoded_chat_history_state (a_tokenizer : AutoTokenizer) (m : Memory_Handler) :
  snd (get_encoded_chat_history a_tokenizer m) = m.
Proof. reflexivity. Qed.

Variable a_message : Message.
Variable backend : string -> post_outcome.

(** What [send_discord_message] does once the request has been issued. *)
Let after_request (self : Provider) (encoded : string) : M Provider unit :=
  bind (lift (request_generation (backend encoded))) (fun bot_response =>
  bind (validate_generation bot_response None (Some a_message)) (fun valid =>
  if valid : bool then
    bind (lift (front_end_utils.decode_encoded_tokenized_tensor bot_response))
         (fun decoded_bot_message =>
    bind (lift (detokenize_decoded_message (tokenizer self) decoded_bot_message))
         (fun detokenized_bot_message =>
    bind (on_memories (pop_memory (-1))) (fun _ =>
    on_memories (append_message (bot_name self ++ ": " ++ detokenized_bot_message)%string
                                (tokenizer self) true))))
  else ret tt)).

Lemma send_discord_message_split (self : Provider) :
  send_discord_message a_message backend self
  = match issue_request a_message self with
    | (Returns encoded, self1) => after_request self encoded self1
    | (Raises e, self1) => (Raises e, self1)
    end.
Proof.
  unfold send_discord_message, issue_request, after_request, bind, get.
  destruct (on_memories (append_message _ (tokenizer self) true) self) as [[[]|e1] s1];
    [|reflexivity].
  destruct (on_memories (append_message _ (tokenizer self) true) s1) as [[[]|e2] s2];
    [|reflexivity].
  destruct (on_memories (get_encoded_chat_history (tokenizer self)) s2) as [[enc|e3] s3];
    [|reflexivity].
  reflexivity.
Qed.

Lemma on_memories_prompt (A : Type) (c : M Memory_Handler A) (self : Provider) :
  (forall m, prompt (snd (c m)) = prompt m) ->
  prompt (memories (snd (on_memories c self))) = prompt (memories self).
Proof.
  intros Hc. unfold on_memories, zoom. specialize (Hc (memories self)).
  destruct (c (memories self)). exact Hc.
Qed.

Lemma issue_request_prompt (self self1 : Provider) (encoded : string) :
  issue_request a_message self = (Returns encoded, self1) ->
  prompt (memories self1) = prompt (memories self).
Proof.
  unfold issue_request, bind, get. intros Hrun.
  pose proof (on_memories_prompt
                (append_message
                   (author_name a_message ++ ": " ++ content a_message
                    ++ String newline EmptyString)%string (tokenizer self) true) self
                (append_message_prompt _ _ _)) as H1.
  destruct (on_memories (append_message _ (tokenizer self) true) self) as [[[]|e1] s1];
    [|discriminate].
  pose proof (on_memories_prompt
                (append_message (bot_name self ++ ":")%string (tokenizer self) true) s1
                (append_message_prompt _ _ _)) as H2.
  destruct (on_memories (append_message _ (tokenizer self) true) s1) as [[[]|e2] s2];
    [|discriminate].
  pose proof (on_memories_prompt (get_encoded_chat_history (tokenizer self)) s2
                (fun m => f_equal prompt (get_encoded_chat_history_state _ m))) as H3.
  destruct (on_memories (get_encoded_chat_history (tokenizer self)) s2) as [[enc|e3] s3];
    [|discriminate].
  cbn in Hrun. injection Hrun as _ <-. cbn in *. congruence.
Qed.

(** Without the [by_sentence] cycler a request that is issued leaves the
    user turn and the placeholder at the end of the transcript. *)
Lemma issue_request_plain (self self1 : Provider) (encoded : string) :
  String.eqb (memory_cycler_type (memories self)) "by_sentence" = false ->
  issue_request a_message self = (Returns encoded, self1) ->
  transcript_of self1
  = transcript_of self
    ++ [(author_name a_message ++ ": " ++ content a_message
         ++ String newline EmptyString)%string;
        (bot_name self ++ ":")%string].
Proof.
  intros Hty. unfold issue_request, bind, get, on_memories, zoom. intros Hrun.
  destruct (append_message _ (tokenizer self) true (memories self))
    as [[[]|e1] m1] eqn:H1; [|discriminate].
  apply append_message_plain in H1; [|exact Hty]. subst m1.
  cbn [memories set_memories] in Hrun.
  destruct (append_message _ (tokenizer self) true (set_chat_history _ (memories self)))
    as [[[]|e2] m2] eqn:H2; [|discriminate].
  apply append_message_plain in H2; [|exact Hty]. subst m2.
  cbn [memories set_memories] in Hrun.
  destruct (get_encoded_chat_history _ _) as [[enc|e3] m3] eqn:H3; [|discriminate].
  pose proof (f_equal snd H3) as Hst.
  rewrite get_encoded_chat_history_state in Hst. cbn [snd] in Hst. subst m3.
  cbn in Hrun. injection Hrun as _ <-.
  unfold transcript_of. cbn. rewrite <- app_assoc. reflexivity.
Qed.

Lemma validate_generation_error_code (n : Z) (self : Provider) :
  validate_generation (PInt n) None (Some a_message) self = (Returns false, self).
Proof. reflexivity. Qed.

Lemma validate_generation_empty_message (g : pyval) (self : Provider) :
  is_empty_output g = true ->
  validate_generation g None (Some a_message) self
  = (Returns false,
     set_memories (set_chat_history [prompt (memories self)] (memories self)) self).
Proof.
  intros Hg. destruct g as [| | |s| |]; try discriminate Hg.
  - reflexivity.
  - unfold validate_generation, bind, lift. cbn in Hg. rewrite Hg. reflexivity.
Qed.

Lemma validate_generation_empty_interaction (g : pyval) (a_interaction : Interaction)
      (a_message' : option Message) (self : Provider) :
  is_empty_output g = true ->
  validate_generation g (Some a_interaction) a_message' self = (Returns false, self).
Proof.
  intros Hg. destruct g as [| | |s| |]; try discriminate Hg.
  - reflexivity.
  - unfold validate_generation, bind, lift. cbn in Hg. rewrite Hg. reflexivity.
Qed.

(** An append that completes was not made with the [by_token] cycler. *)
Lemma append_message_not_by_token (a_message' : string) (a_tokenizer : AutoTokenizer)
      (m m' : Memory_Handler) :
  append_message a_message' a_tokenizer true m = (Returns tt, m') ->
  String.eqb (memory_cycler_type m) "by_token" = false.
Proof.
  intros Hrun.
  destruct (String.eqb (memory_cycler_type m) "by_sentence") eqn:Hty.
  - apply String.eqb_eq in Hty. rewrite Hty. reflexivity.
  - unfold append_message, bind, on_chat_history, zoom, list_append in Hrun.
    unfold dispatch_memory_cycler, bind, get in Hrun. cbn in Hrun.
    rewrite Hty in Hrun.
    destruct (String.eqb (memory_cycler_type m) "by_token");
      [discriminate|reflexivity].
Qed.

(** With the [by_sentence] cycler an append completes; the first entry
    stays and the loop runs on the others. *)
Lemma append_message_by_sentence (a_message' x : string) (r : list string)
      (a_tokenizer : AutoTokenizer) (m : Memory_Handler) :
  String.eqb (memory_cycler_type m) "by_sentence" = true ->
  chat_history m ++ [a_message'] = x :: r ->
  append_message a_message' a_tokenizer true m
  = (Returns tt,
     set_chat_history
       (x :: sentence_loop (max_length m) (len (prompt_tensor m)) a_tokenizer
                           (extra_budget m) (transcript.token_count a_tokenizer r) r) m).
Proof.
  intros Hty Hh.
  unfold append_message, bind, on_chat_history, zoom, list_append.
  unfold dispatch_memory_cycler, bind, get, on_chat_history, zoom.
  cbn [fst snd memory_cycler_type set_chat_history chat_history max_length
       prompt_tensor extra_budget].
  rewrite Hty. cbv beta. cbn [chat_history set_chat_history].
  rewrite Hh, by_sentence_run. reflexivity.
Qed.

(** The transcript at the moment the request is sent. *)
Lemma issue_request_transcript (self self1 : Provider) (encoded x : string)
      (r : list string) :
  let m := memories self in
  let loop := fun entries =>
    sentence_loop (max_length m) (len (prompt_tensor m)) (tokenizer self)
                  (extra_budget m) (transcript.token_count (tokenizer self) entries) entries in
  issue_request a_message self = (Returns encoded, self1) ->
  transcript_of self
  ++ [(author_name a_message ++ ": " ++ content a_message
       ++ String newline EmptyString)%string] = x :: r ->
  String.eqb (memory_cycler_type m) "by_token" = false
  /\ transcript_of self1
     = x :: (if String.eqb (memory_cycler_type m) "by_sentence"
             then loop (loop r ++ [(bot_name self ++ ":")%string])
             else r ++ [(bot_name self ++ ":")%string]).
Proof.
  intros m loop. unfold issue_request, bind, get, on_memories, zoom.
  intros Hrun Hh. unfold transcript_of in Hh. fold m in Hh, Hrun.
  destruct (append_message _ (tokenizer self) true m) as [[[]|e1] m1] eqn:H1;
    [|discriminate].
  split; [eapply append_message_not_by_token; exact H1|].
  cbn [memories set_memories] in Hrun.
  destruct (append_message _ (tokenizer self) true m1) as [[[]|e2] m2] eqn:H2;
    [|discriminate].
  cbn [memories set_memories] in Hrun.
  destruct (get_encoded_chat_history _ _) as [[enc|e3] m3] eqn:H3; [|discriminate].
  pose proof (f_equal snd H3) as Hst.
  rewrite get_encoded_chat_history_state in Hst. cbn [snd] in Hst. subst m3.
  cbn in Hrun. injection Hrun as _ <-.
  unfold transcript_of. cbn [memories set_memories set_serial_chat_history].
  destruct (String.eqb (memory_cycler_type m) "by_sentence") eqn:Hty.
  - rewrite (@append_message_by_sentence _ x r (tokenizer self) m Hty Hh) in H1.
    injection H1 as <-.
    pose proof (@append_message_by_sentence
                  (bot_name self ++ ":")%string x
                  (loop r ++ [(bot_name self ++ ":")%string])
                  (tokenizer self) (set_chat_history (x :: loop r) m) Hty eq_refl)
      as E2.
    unfold loop in E2. rewrite E2 in H2.
    injection H2 as <-. reflexivity.
  - apply append_message_plain in H1; [|exact Hty]. subst m1.
    apply append_message_plain in H2; [|exact Hty]. subst m2.
    cbn [chat_history set_chat_history]. rewrite Hh. reflexivity.
Qed.

Lemma skipn_twice (A : Type) (k1 k2 : nat) (l : list A) (b : A) :
  (k1 <= length l)%nat ->
  skipn k2 (skipn k1 l ++ [b]) = skipn (k1 + k2) (l ++ [b]).
Proof.
  revert l. induction k1 as [|k1 IH]; intros l Hk1; [reflexivity|].
  destruct l as [|y l]; [cbn in Hk1; lia|].
  cbn [skipn app Nat.add]. apply IH. cbn in Hk1. lia.
Qed.

(** C2 (as the code has it): when the backend answers the request with a
    status from 400 to 599, the provider, and with it the transcript,
    is after the call exactly as it was when the request was sent:
    nothing is rolled back.  A request is sent only when the cycler is
    not [by_token].  The transcript then is the first entry of the old
    transcript with the user turn and the bare placeholder of the bot
    appended, followed by a suffix of the other entries; it is all of
    them, the user turn and the placeholder last, when the cycler is not
    [by_sentence] and when both appends found the entries within
    budget. *)
Theorem failed_generation_keeps_placeholder (self self1 : Provider) (encoded : string)
        (status_code : Z) (body : option pyval) :
  let m := memories self in
  let appended :=
    transcript_of self
    ++ [(author_name a_message ++ ": " ++ content a_message
         ++ String newline EmptyString)%string;
        (bot_name self ++ ":")%string] in
  let within_budget := fun entries : list string =>
    transcript.token_count (tokenizer self) entries + len (prompt_tensor m)
    <= max_length m - extra_budget m in
  issue_request a_message self = (Returns encoded, self1) ->
  backend encoded = Responded status_code body ->
  400 <= status_code < 600 ->
  snd (send_discord_message a_message backend self) = self1
  /\ String.eqb (memory_cycler_type m) "by_token" = false
  /\ (String.eqb (memory_cycler_type m) "by_sentence" = false
      \/ (within_budget (removelast (tl appended)) /\ within_budget (tl appended)) ->
      transcript_of self1 = appended)
  /\ exists k : nat,
       (k <= length (tl appended))%nat
       /\ transcript_of self1 = firstn 1 appended ++ skipn k (tl appended).
Proof.
  intros m appended within_budget Hissue Hbackend Hstatus. split.
  { rewrite send_discord_message_split, Hissue.
    unfold after_request, bind, lift. rewrite Hbackend.
    destruct body as [json_bot_response|].
    + rewrite request_generation_http_error; [reflexivity|].
      apply andb_true_iff. split; [apply Z.leb_le | apply Z.ltb_lt]; lia.
    + rewrite request_generation_body_not_json.
      rewrite validate_generation_error_code. reflexivity. }
  set (user_message := (author_name a_message ++ ": " ++ content a_message
                        ++ String newline EmptyString)%string) in *.
  set (placeholder := (bot_name self ++ ":")%string) in *.
  destruct (transcript_of self ++ [user_message]) as [|x r] eqn:Hh;
    [now destruct (transcript_of self)|].
  destruct (@issue_request_transcript self self1 encoded x r Hissue Hh)
    as [Htoken Hafter].
  fold m in Hafter, Htoken. fold placeholder in Hafter.
  assert (Happended : appended = x :: r ++ [placeholder]).
  { unfold appended.
    change [user_message; placeholder] with ([user_message] ++ [placeholder]).
    now rewrite app_assoc, Hh. }
  rewrite Happended. cbn [tl firstn app]. rewrite removelast_last.
  split; [exact Htoken|].
  destruct (String.eqb (memory_cycler_type m) "by_sentence") eqn:Hty.
  - destruct (sentence_loop_spec (tokenizer self) (max_length m) (extra_budget m)
                (prompt_tensor m) r) as (k1 & Hk1 & Hloop1 & _).
    rewrite Hloop1 in Hafter.
    destruct (sentence_loop_spec (tokenizer self) (max_length m) (extra_budget m)
                (prompt_tensor m) (skipn k1 r ++ [placeholder]))
      as (k2 & Hk2 & Hloop2 & _).
    split.
    + intros [Hplain | [Hfit1 Hfit2]]; [discriminate|].
      rewrite <- Hloop1 in Hafter.
      rewrite (sentence_loop_fits (tokenizer self) (max_length m) (extra_budget m)
                 (prompt_tensor m) r Hfit1) in Hafter.
      rewrite (sentence_loop_fits (tokenizer self) (max_length m) (extra_budget m)
                 (prompt_tensor m) (r ++ [placeholder]) Hfit2) in Hafter.
      exact Hafter.
    + exists (k1 + k2)%nat. split.
      * rewrite length_app, length_skipn in Hk2. rewrite length_app.
        cbn [length] in *. lia.
      * rewrite Hafter, Hloop2. f_equal. now apply skipn_twice.
  - split; [intros _; exact Hafter|].
    exists 0%nat. split; [lia|exact Hafter].
Qed.

(** C8 (as the code has it): when the generation requested for a chat
    message comes back as [None] or as text of white space only,
    [send_discord_message] completes and the transcript holds the
    preamble alone; when validation is asked for a slash command
    instead, the transcript is left as it is. *)
Theorem empty_output_clears_transcript (self self1 : Provider) (encoded : string)
        (a_generation : pyval) :
  issue_request a_message self = (Returns encoded, self1) ->
  request_generation (backend encoded) = Returns a_generation ->
  is_empty_output a_generation = true ->
  fst (send_discord_message a_message backend self) = Returns tt
  /\ transcript_of (snd (send_discord_message a_message backend self))
     = [prompt (memories self)]
  /\ forall a_interaction a_message' p,
       validate_generation a_generation (Some a_interaction) a_message' p
       = (Returns false, p).
Proof.
  intros Hissue Hgen Hempty.
  assert (Hrun : send_discord_message a_message backend self
                 = (Returns tt,
                    set_memories (set_chat_history [prompt (memories self1)]
                                                   (memories self1)) self1)).
  { rewrite send_discord_message_split, Hissue.
    unfold after_request, bind, lift. rewrite Hgen.
    rewrite validate_generation_empty_message by exact Hempty. reflexivity. }
  rewrite Hrun. repeat split.
  - unfold transcript_of. cbn. f_equal. eapply issue_request_prompt. exact Hissue.
  - intros a_interaction a_message' p.
    now apply validate_generation_empty_interaction.
Qed.

End Coordinator.

Lemma failed_generation_keeps_placeholder_witness :
  let self := examples.bot "by_sentence" 100 ["a"%string] in
  let backend := fun _ : string => provider.Responded 500 None in
  let self1 := snd (coordinator.issue_request examples.hello self) in
  let m := provider.memories self in
  let appended :=
    ["P"%string; "a"%string; ("u: hi" ++ String newline EmptyString)%string;
     "Bot:"%string] in
  let within_budget := fun entries : list string =>
    transcript.token_count (provider.tokenizer self) entries
    + len (memory_handler.prompt_tensor m)
    <= memory_handler.max_length m - memory_handler.extra_budget m in
  snd (discord_provider.send_discord_message examples.hello backend self) = self1
  /\ String.eqb (memory_handler.memory_cycler_type m) "by_token" = false
  /\ (String.eqb (memory_handler.memory_cycler_type m) "by_sentence" = false
      \/ (within_budget (removelast (tl appended)) /\ within_budget (tl appended)) ->
      coordinator.transcript_of self1 = appended)
  /\ exists k : nat,
       (k <= length (tl appended))%nat
       /\ coordinator.transcript_of self1 = firstn 1 appended ++ skipn k (tl appended).
Proof.
  cbv zeta.
  apply (failed_generation_keeps_placeholder examples.hello
           (fun _ : string => provider.Responded 500 None)
           (examples.bot "by_sentence" 100 ["a"%string])
           (encoded := match fst (coordinator.issue_request examples.hello
                                    (examples.bot "by_sentence" 100 ["a"%string])) with
                       | Returns e => e
                       | Raises _ => EmptyString
                       end)
           (status_code := 500) (body := None)).
  - vm_compute. reflexivity.
  - reflexivity.
  - lia.
Defined.

(** C2, the claim as stated fails: with a transcript that holds the
    preamble alone, a message and a backend that answers with status 500,
    the transcript after the failed call has three entries, the last of
    which is the placeholder; this holds whether the call ends by
    returning (body that is not JSON) or by raising (JSON body). *)
Lemma failed_generation_not_rolled_back :
  let self := examples.bot "none" 10 [] in
  let failed := fun body =>
    discord_provider.send_discord_message examples.hello
      (fun _ : string => provider.Responded 500 body) self in
  coordinator.transcript_of self = ["P"%string]
  /\ fst (failed None) = Returns tt
  /\ fst (failed (Some PNone)) = Raises AttributeError
  /\ (forall body,
        body = None \/ body = Some PNone ->
        len (coordinator.transcript_of (snd (failed body))) = 3
        /\ nth_error (coordinator.transcript_of (snd (failed body))) 2 = Some "Bot:"%string
        /\ coordinator.transcript_of (snd (failed body)) <> coordinator.transcript_of self).
Proof.
  cbv zeta. split; [reflexivity | split; [reflexivity | split; [reflexivity|]]].
  intros body [-> | ->]; (split; [reflexivity | split; [reflexivity|]]);
    vm_compute; discriminate.
Qed.

Lemma empty_output_clears_transcript_witness :
  let self := examples.bot "none" 10 ["a"%string] in
  let backend := fun _ : string => provider.Responded 200 (Some (PStr "  ")) in
  fst (discord_provider.send_discord_message examples.hello backend self) = Returns tt
  /\ coordinator.transcript_of
       (snd (discord_provider.send_discord_message examples.hello backend self))
     = [memory_handler.prompt (provider.memories self)]
  /\ forall a_interaction a_message' p,
       discord_provider.validate_generation (PStr "  ") (Some a_interaction) a_message' p
       = (Returns false, p).
Proof.
  cbv zeta.
  apply (empty_output_clears_transcript examples.hello
           (fun _ : string => provider.Responded 200 (Some (PStr "  ")))
           (examples.bot "none" 10 ["a"%string])
           (self1 := snd (coordinator.issue_request examples.hello
                            (examples.bot "none" 10 ["a"%string])))
           (encoded := match fst (coordinator.issue_request examples.hello
                                    (examples.bot "none" 10 ["a"%string])) with
                       | Returns e => e
                       | Raises _ => EmptyString
                       end)).
  - vm_compute. reflexivity.
  - reflexivity.
  - reflexivity.
Defined.

(** C8, the claim as stated fails: an [autocomplete] command whose
    generation comes back as text of white space only leaves the
    transcript with the earlier turn and the placeholder of the user, not
    with the preamble alone. *)
Lemma empty_output_keeps_transcript_on_command :
  let self := examples.bot "none" 10 ["a"%string] in
  let backend := fun _ : string => provider.Responded 200 (Some (PStr "  ")) in
  coordinator.is_empty_output (PStr "  ") = true
  /\ fst (discord_provider.autocomplete examples.slash backend self) = Returns tt
  /\ coordinator.transcript_of
       (snd (discord_provider.autocomplete examples.slash backend self))
     = ["P"%string; "a"%string; "u:"%string]
  /\ coordinator.transcript_of
       (snd (discord_provider.autocomplete examples.slash backend self))
     <> [memory_handler.prompt (provider.memories self)].
Proof.
  cbv zeta. split; [reflexivity | split; [reflexivity | split; [reflexivity|]]].
  vm_compute. discriminate.
Qed.

(* ================================================================== *)
(** * The round trip of the transport codec *)
(* ================================================================== *)

Unset Implicit Arguments.

Section Codec.

Import json base64 codec.
Local Open Scope N_scope.

Ltac divmod := zify; Z.to_euclidean_division_equations; lia.

(** Case analysis on a number below a bound given as a numeral. *)
Lemma N_below (P : N -> Prop) (k : nat) :
  (forall i : nat, (i < k)%nat -> P (N.of_nat i)) ->
  forall n : N, n < N.of_nat k -> P n.
Proof.
  intros H n Hn. rewrite <- (N2Nat.id n). apply H. lia.
Qed.

Lemma digit_facts (d : N) :
  d < 10 ->
  digit_val (digit_char d) = Some d
  /\ (N_of_ascii (digit_char d) <? 128) = true
  /\ (1 <= d -> idle_step (digit_char d) = Some (None, Digits false d)).
Proof.
  revert d. apply (N_below _ 10). intros i Hi.
  do 10 (destruct i as [|i]; [repeat split; intros; try reflexivity; lia|]).
  lia.
Qed.

Lemma digits_rev_zero (fuel : nat) : digits_rev fuel 0 = [].
Proof. destruct fuel; reflexivity. Qed.

Lemma digits_rev_shape (fuel : nat) :
  forall n, 0 < n -> n < 2 ^ N.of_nat fuel ->
  exists msd rest,
    rev (map digit_char (digits_rev fuel n)) = digit_char msd :: map digit_char rest
    /\ 1 <= msd < 10
    /\ Forall (fun d => d < 10) rest
    /\ fold_left step rest msd = n.
Proof.
  induction fuel as [|fuel IH]; intros n Hpos Hlt.
  - cbn in Hlt. lia.
  - cbn [digits_rev]. destruct (n =? 0) eqn:E; [apply N.eqb_eq in E; lia|].
    cbn [map rev].
    destruct (N.eq_dec (n / 10) 0) as [Hz|Hnz].
    + rewrite Hz, digits_rev_zero. exists (n mod 10), []. cbn.
      repeat split; try constructor; divmod.
    + destruct (IH (n / 10)) as (msd & rest & Hshape & Hmsd & Hrest & Hval).
      * now apply N.neq_0_lt_0.
      * rewrite Nat2N.inj_succ, N.pow_succ_r' in Hlt. divmod.
      * exists msd, (rest ++ [n mod 10]). rewrite Hshape. repeat split.
        -- rewrite map_app. reflexivity.
        -- lia.
        -- lia.
        -- apply Forall_app. split; [exact Hrest|]. constructor; [divmod|constructor].
        -- rewrite fold_left_app, Hval. cbn. unfold step. divmod.
Qed.

Lemma repr_N_shape (n : N) :
  0 < n ->
  exists msd rest,
    repr_N n = digit_char msd :: map digit_char rest
    /\ 1 <= msd < 10
    /\ Forall (fun d => d < 10) rest
    /\ fold_left step rest msd = n.
Proof.
  intros Hpos. unfold repr_N.
  destruct (n =? 0) eqn:E; [apply N.eqb_eq in E; lia|].
  apply digits_rev_shape; [exact Hpos|].
  rewrite Nat2N.inj_succ, N2Nat.id. now apply N.log2_spec.
Qed.


Lemma emit_none (ts : option (list token)) : emit None ts = ts.
Proof. destruct ts; reflexivity. Qed.

Lemma lex_digits (ds : list N) :
  forall (neg : bool) (acc : N) (tail : list ascii),
    Forall (fun d => d < 10) ds ->
    lex (Digits neg acc) (map digit_char ds ++ tail)
    = lex (Digits neg (fold_left step ds acc)) tail.
Proof.
  induction ds as [|d ds IH]; intros neg acc tail Hds; [reflexivity|].
  inversion Hds as [|d' ds' Hd Hds']; subst.
  cbn [map app lex fold_left].
  rewrite (proj1 (digit_facts d Hd)). apply IH. exact Hds'.
Qed.

Lemma lex_idle (c : ascii) (tail : list ascii) (t : option token) (st : lexstate) :
  idle_step c = Some (t, st) -> lex Idle (c :: tail) = emit t (lex st tail).
Proof. intros H. cbn [lex]. rewrite H. reflexivity. Qed.

Lemma lex_repr (z : Z) (c : ascii) (tail : list ascii) (t : option token)
      (st : lexstate) :
  ends_number c t st ->
  lex Idle (repr z ++ c :: tail) = emit (Some (TNum z)) (emit t (lex st tail)).
Proof.
  intros [Hc Hidle]. destruct z as [|p|p].
  - cbn [repr app].
    rewrite (lex_idle "0"%char _ None (Zero false)) by reflexivity.
    rewrite emit_none. cbn [lex]. rewrite Hc, Hidle. reflexivity.
  - cbn [repr].
    destruct (repr_N_shape (Npos p)) as (msd & rest & Hshape & Hmsd & Hrest & Hval);
      [reflexivity|].
    rewrite Hshape. cbn [app].
    destruct (digit_facts msd) as (_ & _ & Hstep); [lia|].
    rewrite (lex_idle _ _ None (Digits false msd)) by (apply Hstep; lia).
    rewrite emit_none.
    rewrite lex_digits by exact Hrest. rewrite Hval.
    cbn [lex]. rewrite Hc, Hidle. reflexivity.
  - cbn [repr].
    destruct (repr_N_shape (Npos p)) as (msd & rest & Hshape & Hmsd & Hrest & Hval);
      [reflexivity|].
    rewrite Hshape. cbn [app].
    rewrite (lex_idle "-"%char _ None Minus) by reflexivity.
    rewrite emit_none. cbn [lex].
    destruct (digit_facts msd) as (Hval' & _ & _); [lia|].
    rewrite Hval'.
    destruct (msd =? 0) eqn:E; [apply N.eqb_eq in E; lia|].
    rewrite lex_digits by exact Hrest. rewrite Hval.
    cbn [lex]. rewrite Hc, Hidle. reflexivity.
Qed.

Lemma lex_elems (l : list Z) :
  lex Idle (join_with [","%char; " "%char] (map repr l) ++ ["]"%char])
  = Some (elems_tokens l ++ [TRBr]).
Proof.
  induction l as [|z l IH]; [reflexivity|].
  destruct l as [|z' l].
  - cbn [map join_with elems_tokens app].
    rewrite (lex_repr z "]"%char [] (Some TRBr) Idle) by (split; reflexivity).
    reflexivity.
  - change (join_with [","%char; " "%char] (map repr (z :: z' :: l)))
      with (repr z ++ [","%char; " "%char]
              ++ join_with [","%char; " "%char] (map repr (z' :: l))).
    rewrite <- !app_assoc. cbn [app].
    rewrite (lex_repr z ","%char _ (Some TComma) Idle) by (split; reflexivity).
    rewrite (lex_idle " "%char _ None Idle) by reflexivity.
    rewrite emit_none, IH. reflexivity.
Qed.

Lemma parse_elems (l : list Z) :
  forall (items : list pyval) (mode : pmode),
    l <> [] ->
    mode = WantValue \/ mode = WantValueOrClose ->
    parse (elems_tokens l ++ [TRBr]) [items] mode
    = Some (PList (rev items ++ map PInt l)).
Proof.
  induction l as [|z l IH]; intros items mode Hne Hmode; [congruence|].
  destruct l as [|z' l].
  - destruct Hmode as [-> | ->]; reflexivity.
  - assert (Hstep : parse (elems_tokens (z :: z' :: l) ++ [TRBr]) [items] mode
                    = parse (elems_tokens (z' :: l) ++ [TRBr]) [PInt z :: items] WantValue)
      by (destruct Hmode as [-> | ->]; reflexivity).
    rewrite Hstep, IH by (try discriminate; now left).
    cbn [rev map]. rewrite <- app_assoc. reflexivity.
Qed.

Lemma loads_dumps_int_list (l : list Z) :
  loads (dumps (PList (map PInt l))) = Returns (PList (map PInt l)).
Proof.
  unfold loads, dumps. rewrite list_ascii_of_string_of_list_ascii.
  cbn [dumps_chars]. rewrite map_map. cbn [dumps_chars].
  change (fun x : Z => repr x) with repr.
  rewrite (lex_idle "["%char _ (Some TLBr) Idle) by reflexivity.
  rewrite lex_elems. cbn [emit].
  destruct l as [|z l]; [reflexivity|].
  cbn [parse]. rewrite parse_elems by (try discriminate; now right).
  reflexivity.
Qed.

Lemma repr_N_ascii7 (n : N) : 0 < n -> forallb ascii7 (repr_N n) = true.
Proof.
  intros Hpos.
  destruct (repr_N_shape n Hpos) as (msd & rest & Hshape & Hmsd & Hrest & _).
  rewrite Hshape. cbn [forallb]. apply andb_true_iff. split.
  - apply (digit_facts msd). lia.
  - apply forallb_forall. intros c Hc. apply in_map_iff in Hc.
    destruct Hc as (d & <- & Hd). apply (digit_facts d).
    now apply (proj1 (Forall_forall _ _) Hrest).
Qed.

Lemma repr_ascii7 (z : Z) : forallb ascii7 (repr z) = true.
Proof.
  destruct z as [|p|p]; cbn [repr]; [reflexivity | | cbn [forallb]; apply andb_true_iff; split;
                                                      [reflexivity|]];
    now apply repr_N_ascii7.
Qed.

Lemma join_with_ascii7 (parts : list (list ascii)) :
  Forall (fun p => forallb ascii7 p = true) parts ->
  forallb ascii7 (join_with [","%char; " "%char] parts) = true.
Proof.
  induction parts as [|p parts IH]; intros Hparts; [reflexivity|].
  inversion Hparts as [|p' parts' Hp Hrest]; subst.
  destruct parts as [|q parts]; [exact Hp|].
  change (join_with [","%char; " "%char] (p :: q :: parts))
    with (p ++ [","%char; " "%char] ++ join_with [","%char; " "%char] (q :: parts)).
  rewrite !forallb_app, Hp, (IH Hrest). reflexivity.
Qed.

Lemma dumps_int_list_ascii7 (l : list Z) :
  forallb ascii7 (dumps_chars (PList (map PInt l))) = true.
Proof.
  cbn [dumps_chars]. rewrite map_map. cbn [dumps_chars forallb].
  rewrite forallb_app, join_with_ascii7; [reflexivity|].
  apply Forall_forall. intros p Hp. apply in_map_iff in Hp.
  destruct Hp as (z & <- & _). apply repr_ascii7.
Qed.

Lemma utf8_encode_ascii7 (cs : list ascii) :
  forallb ascii7 cs = true -> utf8_encode (string_of_list_ascii cs) = cs.
Proof.
  unfold utf8_encode. rewrite list_ascii_of_string_of_list_ascii.
  induction cs as [|c cs IH]; intros H; [reflexivity|].
  cbn [forallb] in H. apply andb_true_iff in H. destruct H as [Hc Hcs].
  cbn [flat_map]. unfold utf8_encode_char at 1. unfold ascii7 in Hc. rewrite Hc.
  cbn [app]. now rewrite IH.
Qed.

Lemma utf8_decode_ascii7 (b : bytes) :
  forallb ascii7 b = true -> utf8_decode b = Returns (string_of_list_ascii b).
Proof.
  intros H. unfold utf8_decode.
  assert (Hdec : utf8_decode_chars b = Some b).
  { induction b as [|c b IH]; [reflexivity|].
    cbn [forallb] in H. apply andb_true_iff in H. destruct H as [Hc Hb].
    cbn [utf8_decode_chars]. unfold ascii7 in Hc. rewrite Hc, (IH Hb). reflexivity. }
  now rewrite Hdec.
Qed.

Lemma b64_char_facts (v : N) :
  v < 64 ->
  b64_index (b64_char v) = Some v
  /\ Ascii.eqb (b64_char v) pad = false
  /\ wire_char (b64_char v).
Proof.
  revert v. apply (N_below _ 64). intros i Hi.
  do 64 (destruct i as [|i]; [repeat split|]).
  lia.
Qed.

Lemma pad_wire_char : wire_char pad.
Proof. split; reflexivity. Qed.

Lemma b64encode_wire (b : bytes) : Forall wire_char (b64encode b).
Proof.
  assert (Hc : forall v, v < 64 -> wire_char (b64_char v))
    by (intros v Hv; apply (b64_char_facts v Hv)).
  assert (Hstrong : forall n b, (length b <= n)%nat -> Forall wire_char (b64encode b)).
  { intros n. induction n as [|n IH]; intros b' Hlen.
    - destruct b'; [constructor | cbn in Hlen; lia].
    - destruct b' as [|x [|y [|z b']]]; cbn [b64encode].
      + constructor.
      + pose proof (N_ascii_bounded x).
        repeat constructor; try apply pad_wire_char; apply Hc; divmod.
      + pose proof (N_ascii_bounded x). pose proof (N_ascii_bounded y).
        repeat constructor; try apply pad_wire_char; apply Hc; divmod.
      + pose proof (N_ascii_bounded x). pose proof (N_ascii_bounded y).
        pose proof (N_ascii_bounded z).
        repeat (constructor; [apply Hc; divmod|]).
        apply IH. cbn [length] in Hlen. lia. }
  now apply (Hstrong (length b)).
Qed.

Lemma wire_chars_ascii7 (cs : list ascii) :
  Forall wire_char cs -> forallb ascii7 cs = true.
Proof.
  intros H. apply forallb_forall. intros c Hc.
  now apply (proj1 (Forall_forall _ _) H).
Qed.

Lemma wire_chars_escape (cs : list ascii) :
  Forall wire_char cs -> flat_map escape_char cs = cs.
Proof.
  induction 1 as [|c cs [_ Hc] _ IH]; [reflexivity|].
  cbn [flat_map]. rewrite Hc, IH. reflexivity.
Qed.

Lemma a2b_data (v : N) (s : bytes) (quad_pos leftchar pads : N) :
  v < 64 ->
  a2b_base64 (b64_char v :: s) quad_pos leftchar pads
  = if quad_pos =? 0 then a2b_base64 s 1 v 0
    else if quad_pos =? 1 then
      option_map (cons (ascii_of_N (leftchar * 4 + v / 16)))
                 (a2b_base64 s 2 (v mod 16) 0)
    else if quad_pos =? 2 then
      option_map (cons (ascii_of_N (leftchar * 16 + v / 4)))
                 (a2b_base64 s 3 (v mod 4) 0)
    else
      option_map (cons (ascii_of_N (leftchar * 64 + v)))
                 (a2b_base64 s 0 0 0).
Proof.
  intros Hv. destruct (b64_char_facts v Hv) as (Hidx & Hpad & _).
  cbn [a2b_base64]. rewrite Hpad, Hidx. reflexivity.
Qed.

Lemma ascii_of_N_of_ascii (c : ascii) (n : N) :
  n = N_of_ascii c -> ascii_of_N n = c.
Proof. intros ->. apply ascii_N_embedding. Qed.

(** Four characters of a full group give back its three octets. *)
Lemma a2b_group (x y z : ascii) (s : bytes) :
  a2b_base64 (b64encode [x; y; z] ++ s) 0 0 0
  = option_map (fun b => x :: y :: z :: b) (a2b_base64 s 0 0 0).
Proof.
  pose proof (N_ascii_bounded x) as Hx. pose proof (N_ascii_bounded y) as Hy.
  pose proof (N_ascii_bounded z) as Hz.
  cbn [b64encode app].
  rewrite a2b_data by divmod. cbn [N.eqb].
  rewrite a2b_data by divmod. cbn [N.eqb Pos.eqb].
  rewrite a2b_data by divmod. cbn [N.eqb Pos.eqb].
  rewrite a2b_data by divmod. cbn [N.eqb Pos.eqb].
  rewrite (ascii_of_N_of_ascii x) by divmod.
  rewrite (ascii_of_N_of_ascii y) by divmod.
  rewrite (ascii_of_N_of_ascii z) by divmod.
  destruct (a2b_base64 s 0 0 0); reflexivity.
Qed.

Lemma b64encode_group (x y z : ascii) (b : bytes) :
  b64encode (x :: y :: z :: b) = b64encode [x; y; z] ++ b64encode b.
Proof. reflexivity. Qed.

(** The decoder gives back the octets of an encoded string that a
    character outside the alphabet follows. *)
Lemma a2b_b64encode (b : bytes) :
  a2b_base64 (b64encode b ++ [quote]) 0 0 0 = Some b.
Proof.
  assert (Hstrong : forall n b, (length b <= n)%nat ->
                                a2b_base64 (b64encode b ++ [quote]) 0 0 0 = Some b).
  { intros n. induction n as [|n IH]; intros b' Hlen.
    - destruct b'; [reflexivity | cbn in Hlen; lia].
    - destruct b' as [|x [|y [|z b']]].
      + reflexivity.
      + pose proof (N_ascii_bounded x) as Hx.
        cbn [b64encode app].
        rewrite a2b_data by divmod. cbn [N.eqb].
        rewrite a2b_data by divmod. cbn [N.eqb Pos.eqb].
        rewrite (ascii_of_N_of_ascii x) by divmod. reflexivity.
      + pose proof (N_ascii_bounded x) as Hx. pose proof (N_ascii_bounded y) as Hy.
        cbn [b64encode app].
        rewrite a2b_data by divmod. cbn [N.eqb].
        rewrite a2b_data by divmod. cbn [N.eqb Pos.eqb].
        rewrite a2b_data by divmod. cbn [N.eqb Pos.eqb].
        rewrite (ascii_of_N_of_ascii x) by divmod.
        rewrite (ascii_of_N_of_ascii y) by divmod. reflexivity.
      + rewrite b64encode_group, <- app_assoc, a2b_group.
        rewrite IH by (cbn [length] in Hlen; lia). reflexivity. }
  now apply (Hstrong (length b)).
Qed.

Lemma b64decode_wire (b : bytes) :
  b64decode (string_of_list_ascii (quote :: b64encode b ++ [quote])) = Returns b.
Proof.
  unfold b64decode, is_ascii. rewrite list_ascii_of_string_of_list_ascii.
  change (forallb (fun c => N_of_ascii c <? 128) (quote :: b64encode b ++ [quote]))
    with (forallb ascii7 (quote :: b64encode b ++ [quote])).
  cbn [forallb]. rewrite forallb_app, (wire_chars_ascii7 _ (b64encode_wire b)).
  cbn [forallb andb]. change (ascii7 quote) with true. cbn [andb].
  change (a2b_base64 (quote :: b64encode b ++ [quote]) 0 0 0)
    with (a2b_base64 (b64encode b ++ [quote]) 0 0 0).
  now rewrite a2b_b64encode.
Qed.

Import front_end_utils.

Lemma get_encoded_str_from_token_list_wire (a_message : list Z) :
  get_encoded_str_from_token_list a_message
  = Returns (string_of_list_ascii
               (quote :: b64encode (dumps_chars (PList (map PInt a_message))) ++ [quote])).
Proof.
  unfold get_encoded_str_from_token_list, dumps.
  rewrite utf8_encode_ascii7 by apply dumps_int_list_ascii7.
  rewrite utf8_decode_ascii7 by (apply wire_chars_ascii7, b64encode_wire).
  cbn [bind_c dumps_chars]. unfold dumps_str.
  rewrite list_ascii_of_string_of_list_ascii.
  rewrite wire_chars_escape by apply b64encode_wire. reflexivity.
Qed.

(** C6: the wire string that [get_encoded_chat_history] produces, which
    is [get_encoded_str_from_token_list] of the tokens of the joined
    entries, gives back exactly those tokens when it is decoded from
    base 64 and the decoded bytes are parsed as JSON; that is,
    [decode_encoded_tokenized_tensor] undoes the encoding. *)
Theorem request_codec_round_trip (a_tokenizer : AutoTokenizer)
        (self : memory_handler.Memory_Handler) :
  exists wire : string,
    memory_handler.get_encoded_chat_history a_tokenizer self = (Returns wire, self)
    /\ let tokens := encode a_tokenizer (join (memory_handler.chat_history self)) in
       front_end_utils.get_encoded_str_from_token_list tokens = Returns wire
       /\ front_end_utils.bind_c (base64.b64decode wire)
            (fun decoded => front_end_utils.bind_c (base64.utf8_decode decoded) json.loads)
          = Returns (PList (map PInt tokens))
       /\ decode_encoded_tokenized_tensor (PStr wire) = Returns (PList (map PInt tokens)).
Proof.
  eexists. split; [|cbv zeta; split; [|split]].
  - unfold memory_handler.get_encoded_chat_history, bind, get, lift.
    rewrite get_encoded_str_from_token_list_wire. reflexivity.
  - apply get_encoded_str_from_token_list_wire.
  - rewrite b64decode_wire. cbn [bind_c].
    rewrite utf8_decode_ascii7 by apply dumps_int_list_ascii7.
    cbn [bind_c]. apply loads_dumps_int_list.
  - cbn [decode_encoded_tokenized_tensor].
    rewrite b64decode_wire. cbn [bind_c].
    rewrite utf8_decode_ascii7 by apply dumps_int_list_ascii7.
    cbn [bind_c]. apply loads_dumps_int_list.
Qed.

End Codec.

(* ================================================================== *)
(** * Further properties of the transcript store *)
(* ================================================================== *)

Section Sessions.

Import memory_handler transcript session.

Variable a_tokenizer : AutoTokenizer.

Lemma set_chat_history_same (self : Memory_Handler) :
  set_chat_history (chat_history self) self = self.
Proof. destruct self. reflexivity. Qed.

Lemma on_chat_history_frame (A : Type) (c : M (list string) A) (self : Memory_Handler) :
  exists h, snd (on_chat_history c self) = set_chat_history h self.
Proof.
  unfold on_chat_history, zoom. destruct (c (chat_history self)) as [r h].
  now exists h.
Qed.

Lemma dispatch_frame (self : Memory_Handler) :
  exists h, snd (dispatch_memory_cycler a_tokenizer self) = set_chat_history h self.
Proof.
  unfold dispatch_memory_cycler, bind, get.
  destruct (String.eqb (memory_cycler_type self) "by_sentence").
  - destruct (on_chat_history_frame _
                (memory_cycle_by_sentence (max_length self) (prompt_tensor self)
                                          a_tokenizer (extra_budget self)) self) as [h Hh].
    destruct (on_chat_history _ self) as [[r|e] self']; exists h; exact Hh.
  - exists (chat_history self).
    destruct (String.eqb (memory_cycler_type self) "by_token"); cbn;
      now rewrite set_chat_history_same.
Qed.

Lemma append_message_frame (a_message : string) (cycle : bool) (self : Memory_Handler) :
  exists h, snd (append_message a_message a_tokenizer cycle self) = set_chat_history h self.
Proof.
  unfold append_message, bind, on_chat_history, zoom, list_append.
  destruct cycle.
  - destruct (dispatch_frame (set_chat_history (chat_history self ++ [a_message]) self))
      as [h Hh].
    exists h. exact Hh.
  - now exists (chat_history self ++ [a_message]).
Qed.

Lemma evict_frame (self : Memory_Handler) :
  (exists h, snd (evict_by_token a_tokenizer self) = set_chat_history h self)
  /\ (exists h, snd (evict_by_sentence a_tokenizer self) = set_chat_history h self).
Proof.
  split.
  - unfold evict_by_token, bind, get.
    destruct (on_chat_history_frame _
                (memory_cycle_by_token (max_length self) (prompt_tensor self)
                                       a_tokenizer (extra_budget self)) self) as [h Hh].
    destruct (on_chat_history _ self) as [[r|e] self']; exists h; exact Hh.
  - unfold evict_by_sentence, bind, get.
    destruct (on_chat_history_frame _
                (memory_cycle_by_sentence (max_length self) (prompt_tensor self)
                                          a_tokenizer (extra_budget self)) self) as [h Hh].
    destruct (on_chat_history _ self) as [[r|e] self']; exists h; exact Hh.
Qed.

Lemma pop_memory_frame (a_index : Z) (self : Memory_Handler) :
  exists h, snd (pop_memory a_index self) = set_chat_history h self.
Proof. apply on_chat_history_frame. Qed.

Lemma run_call_frame (c : call) (self : Memory_Handler) :
  exists h, snd (run_call a_tokenizer c self) = set_chat_history h self.
Proof.
  destruct c as [[a_message cycle| | |]|a_index]; cbn [run_call run_op].
  - apply append_message_frame.
  - apply evict_frame.
  - apply evict_frame.
  - now exists [prompt self].
  - unfold bind. destruct (pop_memory_frame a_index self) as [h Hh].
    destruct (pop_memory a_index self) as [[r|e] self']; exists h; exact Hh.
Qed.

Lemma resume_frame (calls : list call) :
  forall self, exists h, resume a_tokenizer calls self = set_chat_history h self.
Proof.
  induction calls as [|c calls IH]; intros self; cbn [resume].
  - exists (chat_history self). now rewrite set_chat_history_same.
  - destruct (run_call_frame c self) as [h Hh]. rewrite Hh.
    destruct (IH (set_chat_history h self)) as [h' Hh']. exists h'. exact Hh'.
Qed.

(** Every session of calls, whether they return or raise, changes at most
    the [chat_history] of the handler: the prompt, its tensor, the budget,
    the reserve, the cycler and the device stay as they are. *)
Theorem calls_change_chat_history_only (calls : list call) (self : Memory_Handler) :
  exists h,
    resume a_tokenizer calls self = set_chat_history h self
    /\ prompt (resume a_tokenizer calls self) = prompt self
    /\ prompt_tensor (resume a_tokenizer calls self) = prompt_tensor self
    /\ max_length (resume a_tokenizer calls self) = max_length self
    /\ extra_budget (resume a_tokenizer calls self) = extra_budget self
    /\ memory_cycler_type (resume a_tokenizer calls self) = memory_cycler_type self.
Proof.
  destruct (resume_frame calls self) as [h Hh]. exists h. rewrite Hh.
  repeat split; reflexivity.
Qed.

(** Whatever a session did to the transcript, calls that raised and pops
    of the preamble included, [clear_all_memories] returns and leaves the
    handler with the preamble alone and its settings as at the start. *)
Theorem clear_all_memories_recovers (calls : list call) (self : Memory_Handler) :
  clear_all_memories (resume a_tokenizer calls self)
  = (Returns tt, set_chat_history [prompt self] self).
Proof.
  destruct (resume_frame calls self) as [h Hh]. rewrite Hh. reflexivity.
Qed.

Lemma append_message_no_cycler (a_message : string) (self : Memory_Handler) :
  no_cycler self = true ->
  append_message a_message a_tokenizer true self
  = (Returns tt, set_chat_history (chat_history self ++ [a_message]) self).
Proof.
  unfold no_cycler. intros H. apply andb_true_iff in H. destruct H as [H1 H2].
  apply negb_true_iff in H1, H2.
  unfold append_message, bind, on_chat_history, zoom, list_append.
  unfold dispatch_memory_cycler, bind, get. cbn. rewrite H1, H2. reflexivity.
Qed.

(** With a cycler other than [by_sentence] and [by_token] appending never
    shrinks the transcript: a run of appends returns and leaves the old
    entries followed by the appended messages, in order, whatever the
    budget. *)
Theorem appends_without_cycler (messages : list string) :
  forall self : Memory_Handler,
    no_cycler self = true ->
    run_ops a_tokenizer (map (fun m => Append m true) messages) self
    = (Returns tt, set_chat_history (chat_history self ++ messages) self).
Proof.
  induction messages as [|m messages IH]; intros self Hno.
  - cbn. now rewrite app_nil_r, set_chat_history_same.
  - cbn [map run_ops run_op]. unfold bind.
    rewrite append_message_no_cycler by exact Hno.
    rewrite IH by exact Hno. cbn. now rewrite <- app_assoc.
Qed.

(** With the [by_sentence] cycler an append on a transcript headed by the
    preamble returns; the transcript is then the preamble followed by the
    old entries and the new message without their [k] oldest ones, each
    removed while over budget, and it is within budget unless no entry is
    left. *)
Theorem append_with_by_sentence (a_message p : string) (h : list string)
        (self : Memory_Handler) :
  memory_cycler_type self = "by_sentence"%string ->
  chat_history self = p :: h ->
  exists k : nat,
    (k <= length (h ++ [a_message]))%nat
    /\ append_message a_message a_tokenizer true self
       = (Returns tt, set_chat_history (p :: skipn k (h ++ [a_message])) self)
    /\ (forall j : nat, (j < k)%nat ->
          token_count a_tokenizer (skipn j (h ++ [a_message])) + len (prompt_tensor self)
          > max_length self - extra_budget self)
    /\ (token_count a_tokenizer (skipn k (h ++ [a_message])) + len (prompt_tensor self)
        <= max_length self - extra_budget self
        \/ skipn k (h ++ [a_message]) = []).
Proof.
  intros Hty Hh.
  destruct (sentence_loop_spec a_tokenizer (max_length self) (extra_budget self)
              (prompt_tensor self) (h ++ [a_message])) as (k & Hk & Hloop & Hover & Hstop).
  exists k. repeat split; try assumption.
  unfold append_message, bind, on_chat_history, zoom, list_append.
  unfold dispatch_memory_cycler, bind, get, on_chat_history, zoom. cbn.
  rewrite Hty, Hh. cbn [String.eqb Ascii.eqb Bool.eqb app].
  cbn [chat_history set_chat_history].
  rewrite by_sentence_run, Hloop. reflexivity.
Qed.

End Sessions.

Section TranscriptEdges.

Import memory_handler transcript session.

Variable a_tokenizer : AutoTokenizer.
Variables a_max_length a_extra_budget : Z.
Variable a_prompt_tensor : list Z.

(** On a transcript that is within budget [memory_cycle_by_token] keeps
    no entry: the list is cleared before the budget is tested, and only
    the preamble is put back. *)
Theorem by_token_within_budget (original_prompt : string) (h : list string) :
  token_count a_tokenizer h + len a_prompt_tensor <= a_max_length - a_extra_budget ->
  memory_cycle_by_token a_max_length a_prompt_tensor a_tokenizer a_extra_budget
                        (original_prompt :: h)
  = (Returns [original_prompt], [original_prompt]).
Proof.
  intros Hfit. rewrite by_token_run. cbv zeta. unfold token_count in Hfit.
  replace (len (encode a_tokenizer (join h)) + len a_prompt_tensor
           >? a_max_length - a_extra_budget) with false; [reflexivity|].
  symmetry. rewrite Z.gtb_ltb. apply Z.ltb_ge. lia.
Qed.

(** Over budget with fewer tokens in the entries than the cut point
    [abs (a_max_length - prompt size)], [torch.narrow] refuses the negative
    length: [memory_cycle_by_token] raises [RuntimeError] and leaves the
    list empty, the preamble gone with the entries. *)
Theorem by_token_short_stream_raises (original_prompt : string) (h : list string) :
  token_count a_tokenizer h + len a_prompt_tensor > a_max_length - a_extra_budget ->
  token_count a_tokenizer h < Z.abs (a_max_length - len a_prompt_tensor) ->
  memory_cycle_by_token a_max_length a_prompt_tensor a_tokenizer a_extra_budget
                        (original_prompt :: h)
  = (Raises RuntimeError, []).
Proof.
  intros Hover Hshort. rewrite by_token_run. cbv zeta. unfold token_count in *.
  replace (len (encode a_tokenizer (join h)) + len a_prompt_tensor
           >? a_max_length - a_extra_budget) with true
    by (symmetry; apply Z.gtb_lt; lia).
  unfold torch.narrow.
  replace (len (encode a_tokenizer (join h))
           - Z.abs (a_max_length - len a_prompt_tensor) <? 0) with true
    by (symmetry; apply Z.ltb_lt; lia).
  reflexivity.
Qed.

(** On the empty list, which holds no preamble to set aside, both
    evictions raise [IndexError] at their first step and leave the list
    empty. *)
Theorem evictions_on_empty_list :
  memory_cycle_by_token a_max_length a_prompt_tensor a_tokenizer a_extra_budget []
  = (Raises IndexError, [])
  /\ memory_cycle_by_sentence a_max_length a_prompt_tensor a_tokenizer a_extra_budget []
     = (Raises IndexError, []).
Proof.
  split.
  - unfold memory_cycle_by_token, bind. rewrite list_pop_empty by reflexivity.
    reflexivity.
  - apply by_sentence_run_empty.
Qed.

Lemma remove_nth_split (A : Type) (n : nat) :
  forall l : list A, remove_nth n l = firstn n l ++ skipn (S n) l.
Proof.
  induction n as [|n IH]; intros [|x l]; cbn; try reflexivity.
  now rewrite IH.
Qed.

(** [pop_memory] at any index.  An index that fits [Py_ssize_t] and
    lies within the transcript, counted from the end when negative,
    removes and returns the entry at that position and keeps the others
    in order; one that fits but lies outside raises [IndexError]; one
    that does not fit raises [OverflowError].  A call that raises leaves
    the handler as it is. *)
Theorem pop_memory_index (a_index : Z) (self : Memory_Handler) :
  let h := chat_history self in
  let j := position a_index (len h) in
  (fits_ssize_t a_index = true -> 0 <= j < len h ->
   exists x,
     nth_error h (Z.to_nat j) = Some x
     /\ pop_memory a_index self
        = (Returns x,
           set_chat_history (firstn (Z.to_nat j) h ++ skipn (S (Z.to_nat j)) h) self))
  /\ (fits_ssize_t a_index = true -> j < 0 \/ len h <= j ->
      pop_memory a_index self = (Raises IndexError, self))
  /\ (fits_ssize_t a_index = false ->
      pop_memory a_index self = (Raises OverflowError, self)).
Proof.
  cbv zeta. unfold position, pop_memory, on_chat_history, zoom, list_pop.
  set (h := chat_history self).
  set (j := if a_index <? 0 then a_index + len h else a_index).
  split; [|split].
  - intros Hfits Hj. rewrite Hfits. cbn [negb].
    replace ((j <? 0) || (len h <=? j)) with false.
    + destruct (nth_error h (Z.to_nat j)) as [x|] eqn:Hnth.
      * exists x. split; [reflexivity|]. now rewrite remove_nth_split.
      * apply nth_error_None in Hnth. unfold len in Hj. lia.
    + symmetry. apply orb_false_iff. split; [apply Z.ltb_ge | apply Z.leb_gt]; lia.
  - intros Hfits Hj. rewrite Hfits. cbn [negb].
    replace ((j <? 0) || (len h <=? j)) with true.
    + cbv beta iota zeta. f_equal. apply set_chat_history_same.
    + symmetry. apply orb_true_iff.
      destruct Hj; [left; apply Z.ltb_lt | right; apply Z.leb_le]; lia.
  - intros Hfits. rewrite Hfits. cbn [negb].
    cbv beta iota zeta. f_equal. apply set_chat_history_same.
Qed.

(** Without a cycler an append and a pop undo each other: popping after
    an append returns the message and restores the handler, and appending
    the entry just popped restores it as well. *)
Theorem append_pop_round_trip (self : Memory_Handler) :
  no_cycler self = true ->
  (forall a_message,
      bind (append_message a_message a_tokenizer true) (fun _ => pop_memory (-1)) self
      = (Returns a_message, self))
  /\ (forall h x,
        chat_history self = h ++ [x] ->
        bind (pop_memory (-1)) (fun popped => append_message popped a_tokenizer true) self
        = (Returns tt, self)).
Proof.
  intros Hno. split.
  - intros a_message. unfold bind.
    rewrite (append_message_no_cycler a_tokenizer) by exact Hno.
    rewrite (pop_memory_last (set_chat_history (chat_history self ++ [a_message]) self)
                             (chat_history self) a_message) by reflexivity.
    destruct self. reflexivity.
  - intros h x Hh. unfold bind.
    rewrite (pop_memory_last self h x) by exact Hh.
    rewrite (append_message_no_cycler a_tokenizer) by exact Hno.
    destruct self. cbn in Hh. subst. reflexivity.
Qed.

End TranscriptEdges.

Lemma appends_without_cycler_witness :
  transcript.run_ops examples.char_tokenizer
    (map (fun m => transcript.Append m true) ["a"%string; "bcdefghijklmnop"%string])
    (examples.handler "none" 3 [])
  = (Returns tt,
     memory_handler.set_chat_history
       (memory_handler.chat_history (examples.handler "none" 3 [])
        ++ ["a"%string; "bcdefghijklmnop"%string])
       (examples.handler "none" 3 [])).
Proof.
  apply (appends_without_cycler examples.char_tokenizer
           ["a"%string; "bcdefghijklmnop"%string] (examples.handler "none" 3 [])).
  reflexivity.
Defined.

Lemma append_with_by_sentence_witness :
  exists k : nat,
    (k <= length (["ab"%string; "cd"%string] ++ ["efg"%string]))%nat
    /\ memory_handler.append_message "efg" examples.char_tokenizer true
         (examples.handler "by_sentence" 5 ["ab"%string; "cd"%string])
       = (Returns tt,
          memory_handler.set_chat_history
            ("P"%string :: skipn k (["ab"%string; "cd"%string] ++ ["efg"%string]))
            (examples.handler "by_sentence" 5 ["ab"%string; "cd"%string]))
    /\ (forall j : nat, (j < k)%nat ->
          transcript.token_count examples.char_tokenizer
            (skipn j (["ab"%string; "cd"%string] ++ ["efg"%string]))
          + len (memory_handler.prompt_tensor
                   (examples.handler "by_sentence" 5 ["ab"%string; "cd"%string]))
          > memory_handler.max_length
              (examples.handler "by_sentence" 5 ["ab"%string; "cd"%string])
            - memory_handler.extra_budget
                (examples.handler "by_sentence" 5 ["ab"%string; "cd"%string]))
    /\ (transcript.token_count examples.char_tokenizer
          (skipn k (["ab"%string; "cd"%string] ++ ["efg"%string]))
        + len (memory_handler.prompt_tensor
                 (examples.handler "by_sentence" 5 ["ab"%string; "cd"%string]))
        <= memory_handler.max_length
             (examples.handler "by_sentence" 5 ["ab"%string; "cd"%string])
           - memory_handler.extra_budget
               (examples.handler "by_sentence" 5 ["ab"%string; "cd"%string])
        \/ skipn k (["ab"%string; "cd"%string] ++ ["efg"%string]) = []).
Proof.
  apply (append_with_by_sentence examples.char_tokenizer "efg" "P"
           ["ab"%string; "cd"%string]
           (examples.handler "by_sentence" 5 ["ab"%string; "cd"%string]));
    reflexivity.
Defined.

Lemma by_token_within_budget_witness :
  memory_handler.memory_cycle_by_token 10 [80] examples.char_tokenizer 0
    ["P"%string; "ab"%string; "cd"%string]
  = (Returns ["P"%string], ["P"%string]).
Proof.
  apply (by_token_within_budget examples.char_tokenizer 10 0 [80] "P"
           ["ab"%string; "cd"%string]).
  vm_compute. discriminate.
Defined.

Lemma by_token_short_stream_raises_witness :
  memory_handler.memory_cycle_by_token 10 [80] examples.char_tokenizer 5
    ["P"%string; "abcde"%string]
  = (Raises RuntimeError, []).
Proof.
  apply (by_token_short_stream_raises examples.char_tokenizer 10 5 [80] "P"
           ["abcde"%string]); vm_compute; reflexivity.
Defined.

Lemma append_pop_round_trip_witness :
  (forall a_message,
      bind (memory_handler.append_message a_message examples.char_tokenizer true)
           (fun _ => memory_handler.pop_memory (-1)) (examples.handler "none" 3 ["a"%string])
      = (Returns a_message, examples.handler "none" 3 ["a"%string]))
  /\ (forall h x,
        memory_handler.chat_history (examples.handler "none" 3 ["a"%string]) = h ++ [x] ->
        bind (memory_handler.pop_memory (-1))
             (fun popped => memory_handler.append_message popped examples.char_tokenizer true)
             (examples.handler "none" 3 ["a"%string])
        = (Returns tt, examples.handler "none" 3 ["a"%string])).
Proof.
  apply (append_pop_round_trip examples.char_tokenizer (examples.handler "none" 3 ["a"%string])).
  reflexivity.
Defined.

(* ================================================================== *)
(** * Further properties of the transport codec *)
(* ================================================================== *)

Section Wire.

Import json base64 codec wire front_end_utils.
Local Open Scope N_scope.

Lemma decode_of_wire (tokens : list Z) :
  decode_encoded_tokenized_tensor
    (PStr (string_of_list_ascii
             (quote :: b64encode (dumps_chars (PList (map PInt tokens))) ++ [quote])))
  = Returns (PList (map PInt tokens)).
Proof.
  cbn [decode_encoded_tokenized_tensor].
  rewrite b64decode_wire. cbn [bind_c].
  rewrite utf8_decode_ascii7 by apply dumps_int_list_ascii7.
  cbn [bind_c]. apply loads_dumps_int_list.
Qed.

Lemma map_PInt_injective (a b : list Z) : map PInt a = map PInt b -> a = b.
Proof.
  revert b. induction a as [|x a IH]; intros [|y b] H; try discriminate; [reflexivity|].
  cbn in H. injection H as Hx Hab. f_equal; [exact Hx | now apply IH].
Qed.

(** Two token lists with the same wire string are the same list: the
    encoding of [get_encoded_str_from_token_list] loses nothing. *)
Theorem token_list_encoding_injective (a b : list Z) :
  get_encoded_str_from_token_list a = get_encoded_str_from_token_list b -> a = b.
Proof.
  intros H. rewrite !get_encoded_str_from_token_list_wire in H.
  pose proof (decode_of_wire a) as Ha. pose proof (decode_of_wire b) as Hb.
  remember (string_of_list_ascii
              (quote :: b64encode (dumps_chars (PList (map PInt a))) ++ [quote])) as wire_a.
  remember (string_of_list_ascii
              (quote :: b64encode (dumps_chars (PList (map PInt b))) ++ [quote])) as wire_b.
  assert (Hwire : wire_a = wire_b) by congruence.
  rewrite Hwire, Hb in Ha.
  apply map_PInt_injective. congruence.
Qed.

Lemma b64encode_Forall (P : ascii -> Prop) :
  (forall v, v < 64 -> P (b64_char v)) -> P pad ->
  forall b, Forall P (b64encode b).
Proof.
  intros Hc Hp.
  assert (Hstrong : forall n b, (length b <= n)%nat -> Forall P (b64encode b)).
  { intros n. induction n as [|n IH]; intros b' Hlen.
    - destruct b'; [constructor | cbn in Hlen; lia].
    - destruct b' as [|x [|y [|z b']]]; cbn [b64encode].
      + constructor.
      + pose proof (N_ascii_bounded x).
        repeat constructor; try exact Hp; apply Hc;
          zify; Z.to_euclidean_division_equations; lia.
      + pose proof (N_ascii_bounded x). pose proof (N_ascii_bounded y).
        repeat constructor; try exact Hp; apply Hc;
          zify; Z.to_euclidean_division_equations; lia.
      + pose proof (N_ascii_bounded x). pose proof (N_ascii_bounded y).
        pose proof (N_ascii_bounded z).
        repeat (constructor;
                [apply Hc; zify; Z.to_euclidean_division_equations; lia|]).
        apply IH. cbn [length] in Hlen. lia. }
  intros b. now apply (Hstrong (length b)).
Qed.

Lemma b64encode_length (b : bytes) :
  length (b64encode b) = (4 * ((length b + 2) / 3))%nat.
Proof.
  assert (Hstrong : forall n b, (length b <= n)%nat ->
                                length (b64encode b) = (4 * ((length b + 2) / 3))%nat).
  { intros n. induction n as [|n IH]; intros b' Hlen.
    - destruct b'; [reflexivity | cbn in Hlen; lia].
    - destruct b' as [|x [|y [|z b']]]; try reflexivity.
      cbn [b64encode length]. rewrite IH by (cbn [length] in Hlen; lia).
      replace (S (S (S (length b'))) + 2)%nat with (1 * 3 + (length b' + 2))%nat by lia.
      rewrite Nat.div_add_l by discriminate. lia. }
  now apply (Hstrong (length b)).
Qed.

(** The wire string is a JSON string literal around base 64 text: a
    quote, then characters of the base 64 alphabet and pads only, four
    for every three characters of the JSON text of the tokens, then a
    quote. *)
Theorem wire_string_shape (tokens : list Z) :
  exists payload : list ascii,
    get_encoded_str_from_token_list tokens
    = Returns (string_of_list_ascii (quote :: payload ++ [quote]))
    /\ Forall in_alphabet payload
    /\ length payload
       = (4 * ((String.length (dumps (PList (map PInt tokens))) + 2) / 3))%nat.
Proof.
  exists (b64encode (dumps_chars (PList (map PInt tokens)))). split; [|split].
  - apply get_encoded_str_from_token_list_wire.
  - apply b64encode_Forall.
    + intros v Hv. left. destruct (b64_char_facts v Hv) as (Hidx & _ & _).
      rewrite Hidx. discriminate.
    + now right.
  - rewrite b64encode_length. unfold dumps.
    assert (Hlen : forall cs, String.length (string_of_list_ascii cs) = length cs)
      by (induction cs as [|c cs IH]; cbn; [reflexivity | now rewrite IH]).
    now rewrite Hlen.
Qed.

Lemma a2b_skip (c : ascii) (s : bytes) (quad_pos leftchar pads : N) :
  skipped c = true ->
  a2b_base64 (c :: s) quad_pos leftchar pads = a2b_base64 s quad_pos leftchar pads.
Proof.
  unfold skipped. intros H.
  apply andb_true_iff in H. destruct H as [H Hidx].
  apply andb_true_iff in H. destruct H as [_ Hpad]. apply negb_true_iff in Hpad.
  cbn [a2b_base64]. rewrite Hpad.
  destruct (b64_index c); [discriminate | reflexivity].
Qed.

Lemma a2b_skip_prefix (prefix s : bytes) (quad_pos leftchar pads : N) :
  forallb skipped prefix = true ->
  a2b_base64 (prefix ++ s) quad_pos leftchar pads = a2b_base64 s quad_pos leftchar pads.
Proof.
  induction prefix as [|c prefix IH]; intros H; [reflexivity|].
  cbn [forallb] in H. apply andb_true_iff in H. destruct H as [Hc Hrest].
  cbn [app]. rewrite a2b_skip by exact Hc. now apply IH.
Qed.

Lemma a2b_skip_suffix (suffix : bytes) :
  forallb skipped suffix = true ->
  forall (s : bytes) (quad_pos leftchar pads : N),
    a2b_base64 (s ++ suffix) quad_pos leftchar pads = a2b_base64 s quad_pos leftchar pads.
Proof.
  intros Hsuffix. induction s as [|c s IH]; intros quad_pos leftchar pads.
  - cbn [app]. rewrite <- (app_nil_r suffix) at 1. now apply a2b_skip_prefix.
  - cbn [app a2b_base64].
    destruct (Ascii.eqb c pad).
    + destruct ((2 <=? quad_pos) && (4 <=? quad_pos + (pads + 1))); [reflexivity | apply IH].
    + destruct (b64_index c) as [v|]; [|apply IH].
      destruct (quad_pos =? 0); [apply IH|].
      destruct (quad_pos =? 1); [now rewrite IH|].
      destruct (quad_pos =? 2); now rewrite IH.
Qed.

Lemma skipped_is_ascii (cs : list ascii) :
  forallb skipped cs = true -> forallb (fun c => N_of_ascii c <? 128) cs = true.
Proof.
  intros H. apply forallb_forall. intros c Hc.
  apply (proj1 (forallb_forall _ _) H) in Hc. unfold skipped in Hc.
  apply andb_true_iff in Hc. destruct Hc as [Hc _].
  apply andb_true_iff in Hc. now destruct Hc.
Qed.

(** [decode_encoded_tokenized_tensor] reads a string the same with or
    without ASCII characters from outside the base 64 alphabet, such as
    quotes, blanks and line ends, before and after it: the wire form with
    its JSON quotes and the bare base 64 text decode alike. *)
Theorem decode_ignores_wrapping (prefix suffix : list ascii) (s : string) :
  forallb skipped prefix = true ->
  forallb skipped suffix = true ->
  decode_encoded_tokenized_tensor
    (PStr (string_of_list_ascii (prefix ++ list_ascii_of_string s ++ suffix)))
  = decode_encoded_tokenized_tensor (PStr s).
Proof.
  intros Hp Hs. cbn [decode_encoded_tokenized_tensor].
  assert (Hdec : b64decode (string_of_list_ascii (prefix ++ list_ascii_of_string s ++ suffix))
                 = b64decode s).
  { unfold b64decode, is_ascii. rewrite list_ascii_of_string_of_list_ascii.
    rewrite !forallb_app, (skipped_is_ascii prefix Hp), (skipped_is_ascii suffix Hs).
    rewrite andb_true_r. cbn [andb].
    rewrite a2b_skip_prefix by exact Hp. rewrite a2b_skip_suffix by exact Hs.
    reflexivity. }
  now rewrite Hdec.
Qed.

End Wire.

Lemma token_list_encoding_injective_witness : [1; 22; -3]%Z = [1; 22; -3]%Z.
Proof.
  apply (token_list_encoding_injective [1; 22; -3]%Z [1; 22; -3]%Z).
  reflexivity.
Defined.

Lemma decode_ignores_wrapping_witness :
  front_end_utils.decode_encoded_tokenized_tensor
    (PStr (string_of_list_ascii
             ([json.quote; " "%char] ++ list_ascii_of_string "WzEsIDIyXQ=="
              ++ [json.quote; Py.newline])))
  = front_end_utils.decode_encoded_tokenized_tensor (PStr "WzEsIDIyXQ==").
Proof.
  apply (decode_ignores_wrapping [json.quote; " "%char] [json.quote; Py.newline]
                                 "WzEsIDIyXQ=="); reflexivity.
Defined.

(* ================================================================== *)
(** * Further properties of the providers *)
(* ================================================================== *)

Section Providers.

Import memory_handler provider provider_methods discord_provider discord_commands.
Import coordinator session.

(** The codes of [request_generation] for a request that raised: 0 for the
    timeouts, -1 for the other exceptions of [requests], -2 for every
    other [Exception]; an answer whose body is not JSON gives -1 whatever
    its status, and an answer with a JSON body and a status outside 400
    to 599 gives the body. *)
Theorem request_generation_codes :
  (forall e, is_Exception e = true -> is_HTTPError e = false ->
             request_generation (PostRaised e)
             = Returns (PInt (if is_Timeout e then 0
                              else if is_RequestException e then -1 else -2)))
  /\ (forall status_code, request_generation (Responded status_code None) = Returns (PInt (-1)))
  /\ (forall status_code body,
        status_code < 400 \/ 600 <= status_code ->
        request_generation (Responded status_code (Some body)) = Returns body).
Proof.
  split; [|split].
  - intros e He Hh. destruct e; try discriminate; reflexivity.
  - reflexivity.
  - intros status_code body Hs. apply request_generation_success.
    apply andb_false_iff.
    destruct Hs; [left; apply Z.leb_gt | right; apply Z.ltb_ge]; lia.
Qed.

(** [tokenize_single_token] returns a token exactly when the string
    encodes to that one token; it raises [ValueError] exactly when the
    string encodes to two tokens or more, and [IndexError] exactly when it
    encodes to none. *)
Theorem tokenize_single_token_cases (a_tokenizer : AutoTokenizer) (a_str : string) :
  (forall z, tokenize_single_token a_tokenizer a_str = Returns z
             <-> encode a_tokenizer a_str = [z])
  /\ (tokenize_single_token a_tokenizer a_str = Raises ValueError
      <-> (2 <= length (encode a_tokenizer a_str))%nat)
  /\ (tokenize_single_token a_tokenizer a_str = Raises IndexError
      <-> encode a_tokenizer a_str = []).
Proof.
  unfold tokenize_single_token.
  destruct (encode a_tokenizer a_str) as [|x [|y l]].
  - cbn. repeat split; intros; try discriminate; try reflexivity; cbn in *; lia.
  - cbn. repeat split; intros H; try discriminate; try congruence; cbn in *; lia.
  - replace (len (x :: y :: l) >? 1) with true.
    + repeat split; intros; try discriminate; try reflexivity; cbn; lia.
    + symmetry. apply Z.gtb_lt. rewrite !len_cons. pose proof (len_nonneg l). lia.
Qed.

Lemma validate_generation_interaction_frame (a_generation : pyval)
      (a_interaction : Interaction) (a_message : option Message) (self : Provider) :
  snd (validate_generation a_generation (Some a_interaction) a_message self) = self.
Proof.
  destruct a_generation as [| | |s| |]; try reflexivity.
  unfold validate_generation, bind, lift.
  destruct (String.eqb (strip s) EmptyString); reflexivity.
Qed.


(** The [generate] command never changes the provider: whatever the
    prompt, the bias word and the answer of the backend, and whether the
    command completes or raises, the transcript and the settings are
    after it as they were before. *)
Theorem generation_changes_nothing (a_interaction : Interaction) (prompt : string)
        (short_word_to_bias : option string) (word_bias_threshold : option Z)
        (backend : string -> post_outcome) (self : Provider) :
  snd (generation a_interaction prompt short_word_to_bias word_bias_threshold
                  backend self) = self.
Proof.
  unfold generation, bind, get, lift.
  assert (Hbias :
    forall k : option (Z * Z) -> M Provider (option string),
      (forall b, snd (k b self) = self) ->
      snd (let (c, s') :=
             match short_word_to_bias, word_bias_threshold with
             | Some word, Some threshold =>
                 bind (lift (tokenize_single_token (tokenizer self) word))
                      (fun token => ret (Some (token, threshold)))
             | _, _ => ret None
             end self in
           match c with
           | Returns a => k a s'
           | Raises e => (Raises e, s')
           end) = self).
  { intros k Hk.
    destruct short_word_to_bias as [word|], word_bias_threshold as [threshold|];
      try apply Hk.
    unfold bind, lift.
    destruct (tokenize_single_token (tokenizer self) word); [apply Hk | reflexivity]. }
  apply (Hbias (fun logit_bias s0 => _)). intros _.
  destruct (front_end_utils.get_encoded_str_from_token_list _) as [chat_history|e];
    [|reflexivity].
  destruct (request_generation (backend chat_history)) as [bot_response|e];
    [|reflexivity].
  pose proof (validate_generation_interaction_frame bot_response a_interaction None self)
    as Hv.
  destruct (validate_generation bot_response (Some a_interaction) None self)
    as [[[|]|e] s1]; cbn [snd] in Hv; subst s1; try reflexivity.
  destruct (front_end_utils.decode_encoded_tokenized_tensor bot_response); [|reflexivity].
  destruct (detokenize_decoded_message (tokenizer self) a); reflexivity.
Qed.

End Providers.

Section Commit.

Import memory_handler provider provider_methods discord_provider discord_commands.
Import coordinator session.

Variable backend : string -> post_outcome.

Lemma get_encoded_chat_history_returns (a_tokenizer : AutoTokenizer) (m : Memory_Handler) :
  exists encoded, get_encoded_chat_history a_tokenizer m = (Returns encoded, m).
Proof.
  unfold get_encoded_chat_history, bind, get, lift.
  rewrite get_encoded_str_from_token_list_wire. eexists. reflexivity.
Qed.

Lemma issue_request_no_cycler (a_message : Message) (self : Provider) :
  no_cycler (memories self) = true ->
  exists encoded,
    issue_request a_message self
    = (Returns encoded,
       set_serial_chat_history encoded
         (set_memories
            (set_chat_history
               (transcript_of self
                ++ [(author_name a_message ++ ": " ++ content a_message
                     ++ String newline EmptyString)%string;
                    (bot_name self ++ ":")%string])
               (memories self))
            self)).
Proof.
  intros Hno. unfold issue_request, bind, get, on_memories, zoom.
  rewrite append_message_no_cycler by exact Hno. cbn [memories set_memories].
  rewrite append_message_no_cycler by exact Hno. cbn [memories set_memories].
  destruct (get_encoded_chat_history_returns (tokenizer self)
              (set_chat_history
                 (chat_history
                    (set_chat_history
                       (chat_history (memories self)
                        ++ [(author_name a_message ++ ": " ++ content a_message
                             ++ String newline EmptyString)%string])
                       (memories self))
                  ++ [(bot_name self ++ ":")%string])
                 (set_chat_history
                    (chat_history (memories self)
                     ++ [(author_name a_message ++ ": " ++ content a_message
                          ++ String newline EmptyString)%string])
                    (memories self)))) as [encoded Henc].
  rewrite Henc. exists encoded. unfold transcript_of. cbn.
  rewrite <- app_assoc. reflexivity.
Qed.

Lemma bind_returns (S A B : Type) (c : M S A) (k : A -> M S B) (s s' : S) (a : A) :
  c s = (Returns a, s') -> bind c k s = k a s'.
Proof. intros H. unfold bind. now rewrite H. Qed.

Lemma bind_lift_returns (S A B : Type) (c : completion A) (k : A -> M S B) (s : S) (a : A) :
  c = Returns a -> bind (lift c) k s = k a s.
Proof. intros ->. reflexivity. Qed.

Lemma validate_generation_text (s : string) (a_interaction : option Interaction)
      (a_message : option Message) (self : Provider) :
  String.eqb (strip s) EmptyString = false ->
  validate_generation (PStr s) a_interaction a_message self = (Returns true, self).
Proof. intros Hs. unfold validate_generation, bind, lift. now rewrite Hs. Qed.

(** Replacing the last entry without a cycler. *)
Lemma replace_last_entry (self : Provider) (h : list string) (last turn : string) :
  no_cycler (memories self) = true ->
  transcript_of self = h ++ [last] ->
  bind (on_memories (pop_memory (-1)))
       (fun _ => on_memories (append_message turn (tokenizer self) true)) self
  = (Returns tt, set_memories (set_chat_history (h ++ [turn]) (memories self)) self).
Proof.
  intros Hno Hh. unfold bind, on_memories, zoom.
  rewrite (pop_memory_last (memories self) h last Hh).
  cbn [memories set_memories].
  rewrite append_message_no_cycler by exact Hno. reflexivity.
Qed.

(** The success path of [send_discord_message] without a cycler: when the
    backend answers the request with text that is not blank and that
    decodes and detokenizes, the call returns and the transcript is the
    old one followed by the user turn and one turn of the bot, its name,
    a colon, a blank and the text: the bare placeholder has been
    replaced. *)
Theorem send_discord_message_commits (a_message : Message) (self self1 : Provider)
        (encoded s detokenized_bot_message : string) (decoded_bot_message : pyval) :
  no_cycler (memories self) = true ->
  issue_request a_message self = (Returns encoded, self1) ->
  request_generation (backend encoded) = Returns (PStr s) ->
  String.eqb (strip s) EmptyString = false ->
  front_end_utils.decode_encoded_tokenized_tensor (PStr s) = Returns decoded_bot_message ->
  detokenize_decoded_message (tokenizer self) decoded_bot_message
  = Returns detokenized_bot_message ->
  fst (send_discord_message a_message backend self) = Returns tt
  /\ transcript_of (snd (send_discord_message a_message backend self))
     = transcript_of self
       ++ [(author_name a_message ++ ": " ++ content a_message
            ++ String newline EmptyString)%string;
           (bot_name self ++ ": " ++ detokenized_bot_message)%string].
Proof.
  intros Hno Hissue Hgen Hs Hdec Hdetok.
  destruct (issue_request_no_cycler a_message self Hno) as [encoded' Hplain].
  rewrite Hplain in Hissue. injection Hissue as <- <-.
  rewrite send_discord_message_split, Hplain.
  rewrite (bind_lift_returns _ _ _ _ _ _ _ Hgen).
  rewrite (bind_returns _ _ _ _ _ _ _ _
             (validate_generation_text s None (Some a_message) _ Hs)).
  rewrite (bind_lift_returns _ _ _ _ _ _ _ Hdec).
  rewrite (bind_lift_returns _ _ _ _ _ _ _ Hdetok).
  set (user_message := (author_name a_message ++ ": " ++ content a_message
                        ++ String newline EmptyString)%string).
  set (self1 := set_serial_chat_history encoded' _).
  change (tokenizer self) with (tokenizer self1).
  rewrite (replace_last_entry self1 (transcript_of self ++ [user_message])
                              (bot_name self ++ ":")%string).
  - split; [reflexivity|]. unfold transcript_of. cbn.
    now rewrite <- app_assoc.
  - exact Hno.
  - unfold transcript_of. cbn. now rewrite <- app_assoc.
Qed.

(** The [autocomplete] command without a cycler, on a transcript that is
    not empty.  On the success path the transcript is again the one the
    command found, the placeholder of the user removed, whether the
    command then returns or raises: it raises [AttributeError] when the
    user has no avatar, the exception of the post to the url that
    [get_or_create_webhook] gives when that post raises, and returns
    otherwise.  When the request ends in an
    error code or an empty output the command returns and the transcript
    keeps the placeholder as its last entry. *)
Theorem autocomplete_transcript (a_interaction : Interaction) (self : Provider)
        (encoded : string) (a_generation : pyval) :
  no_cycler (memories self) = true ->
  transcript_of self <> [] ->
  fst (get_encoded_chat_history (tokenizer self)
         (set_chat_history
            (transcript_of self ++ [(interaction_user_name a_interaction ++ ":")%string])
            (memories self)))
  = Returns encoded ->
  request_generation (backend encoded) = Returns a_generation ->
  (forall s decoded_bot_message detokenized_bot_message,
      a_generation = PStr s ->
      String.eqb (strip s) EmptyString = false ->
      front_end_utils.decode_encoded_tokenized_tensor (PStr s)
      = Returns decoded_bot_message ->
      detokenize_decoded_message (tokenizer self) decoded_bot_message
      = Returns detokenized_bot_message ->
      fst (autocomplete a_interaction backend self)
      = match user_avatar a_interaction,
              webhook_post a_interaction (get_or_create_webhook a_interaction) with
        | None, _ => Raises AttributeError
        | Some _, PostRaised e => Raises e
        | Some _, Responded _ _ => Returns tt
        end
      /\ transcript_of (snd (autocomplete a_interaction backend self)) = transcript_of self)
  /\ ((exists n, a_generation = PInt n) \/ is_empty_output a_generation = true ->
      fst (autocomplete a_interaction backend self) = Returns tt
      /\ transcript_of (snd (autocomplete a_interaction backend self))
         = transcript_of self ++ [(interaction_user_name a_interaction ++ ":")%string]).
Proof.
  intros Hno Hne Henc Hgen.
  assert (Hstart :
    autocomplete a_interaction backend self
    = bind (validate_generation a_generation (Some a_interaction) None)
           (fun valid : bool =>
              if valid then
                bind (lift (front_end_utils.decode_encoded_tokenized_tensor a_generation))
                     (fun decoded_bot_message =>
                bind (lift (detokenize_decoded_message (tokenizer self) decoded_bot_message))
                     (fun detokenized_bot_message =>
                bind get (fun self' =>
                bind (if len (chat_history (memories self')) >? 1
                      then bind (on_memories (pop_memory (-1))) (fun _ => ret tt)
                      else ret tt) (fun _ =>
                bind (lift (match user_avatar a_interaction with
                            | Some url => Returns url
                            | None => Raises AttributeError
                            end)) (fun avatar_url =>
                post_to_webhook
                  (webhook_post a_interaction
                                (get_or_create_webhook a_interaction)))))))
              else ret tt)
           (set_serial_chat_history encoded
              (set_memories
                 (set_chat_history
                    (transcript_of self
                     ++ [(interaction_user_name a_interaction ++ ":")%string])
                    (memories self))
                 self))).
  { unfold autocomplete. unfold bind at 1. unfold get at 1.
    unfold bind at 1. unfold on_memories at 1, zoom.
    rewrite append_message_no_cycler by exact Hno. cbn [memories set_memories].
    unfold bind at 1. unfold on_memories at 1, zoom. cbn [memories set_memories].
    destruct (get_encoded_chat_history_returns (tokenizer self)
                (set_chat_history
                   (chat_history (memories self)
                    ++ [(interaction_user_name a_interaction ++ ":")%string])
                   (memories self))) as [encoded' Henc'].
    unfold transcript_of in Henc. rewrite Henc' in Henc. cbn [fst] in Henc.
    injection Henc as ->. rewrite Henc'.
    unfold bind at 1. unfold modify at 1.
    unfold bind at 1. unfold lift at 1. rewrite Hgen. reflexivity. }
  rewrite Hstart. split.
  - intros s decoded_bot_message detokenized_bot_message -> Hs Hdec Hdetok.
    rewrite (bind_returns _ _ _ _ _ _ _ _
               (validate_generation_text s (Some a_interaction) None _ Hs)).
    rewrite (bind_lift_returns _ _ _ _ _ _ _ Hdec).
    rewrite (bind_lift_returns _ _ _ _ _ _ _ Hdetok).
    set (self1 := set_serial_chat_history encoded _).
    rewrite (bind_returns _ _ _ get _ self1 self1 self1 eq_refl).
    replace (len (chat_history (memories self1)) >? 1) with true.
    + unfold bind, on_memories, zoom.
      rewrite (pop_memory_last (memories self1) (transcript_of self)
                               (interaction_user_name a_interaction ++ ":")%string)
        by reflexivity.
      unfold ret, lift, post_to_webhook, raise.
      destruct (user_avatar a_interaction) as [url|]; [|split; reflexivity].
      destruct (webhook_post a_interaction (get_or_create_webhook a_interaction))
        as [status_code body|e]; split; reflexivity.
    + symmetry. apply Z.gtb_lt. unfold self1.
      cbn [memories set_memories set_serial_chat_history chat_history set_chat_history].
      rewrite len_app.
      destruct (transcript_of self) as [|p h]; [congruence|].
      rewrite len_cons. pose proof (len_nonneg h). cbn. lia.
  - intros [[n ->] | Hempty].
    + split; reflexivity.
    + unfold bind.
      pose proof (validate_generation_empty_interaction a_generation a_interaction
                    None (set_serial_chat_history encoded
                            (set_memories
                               (set_chat_history
                                  (transcript_of self
                                   ++ [(interaction_user_name a_interaction ++ ":")%string])
                                  (memories self))
                               self)) Hempty) as Hv.
      rewrite Hv. split; reflexivity.
Qed.

End Commit.

Section Surfaces.

Import memory_handler provider provider_methods discord_provider discord_commands.
Import coordinator session.

Lemma map_nth_seq_all (h : list string) :
  map (fun i => nth i h EmptyString) (seq 0 (length h)) = h.
Proof.
  induction h as [|x h IH]; [reflexivity|].
  cbn [length seq map nth]. rewrite <- seq_shift, map_map. cbn [nth].
  now rewrite IH.
Qed.

Lemma map_nth_range (h : list string) :
  map (fun itr => nth (Z.to_nat itr) h EmptyString) (range 1 (len h)) = tl h.
Proof.
  unfold range. rewrite map_map.
  destruct h as [|p h]; [reflexivity|].
  replace (Z.to_nat (len (p :: h) - 1)) with (length h)
    by (rewrite len_cons; unfold len; lia).
  cbn [tl]. rewrite <- (map_nth_seq_all h) at 2.
  apply map_ext. intros i.
  replace (Z.to_nat (1 + Z.of_nat i)) with (S i) by lia. reflexivity.
Qed.

(** The [display_memories] command changes nothing and shows the entries
    after the preamble, all of them, in order and numbered from 1: the
    preamble is never shown, and a transcript of the preamble alone (or an
    empty one) shows no field. *)
Theorem display_memories_fields (self : Provider) :
  exists (description : string) (fields : list (string * string)),
    display_memories self = (Returns (description, fields), self)
    /\ map snd fields = tl (transcript_of self)
    /\ map fst fields
       = map (fun itr => ("memory " ++ str itr ++ ": ")%string)
             (range 1 (len (transcript_of self))).
Proof.
  unfold display_memories, bind, get, transcript_of.
  destruct (len (chat_history (memories self)) <? 2) eqn:E.
  - eexists. exists []. split; [reflexivity|].
    apply Z.ltb_lt in E.
    destruct (chat_history (memories self)) as [|p [|x h]].
    + split; reflexivity.
    + split; reflexivity.
    + rewrite !len_cons in E. pose proof (len_nonneg h). lia.
  - eexists. eexists. split; [reflexivity|]. split.
    + rewrite map_map. cbn [snd]. apply map_nth_range.
    + rewrite map_map. reflexivity.
Qed.

(** One turn of the terminal loop never returns and never sends a
    request: its outcome is the same for every backend and is always a
    raised exception; without a cycler that exception is the
    [UnboundLocalError] of [serial_settings], raised after the user turn
    has been appended to the transcript. *)
Theorem chat_turn_never_sends (user_input : string) (backend : string -> post_outcome)
        (self : Provider) :
  (forall backend', terminal_provider.chat_turn user_input backend' self
                    = terminal_provider.chat_turn user_input backend self)
  /\ (exists e, fst (terminal_provider.chat_turn user_input backend self) = Raises e)
  /\ (no_cycler (memories self) = true ->
      fst (terminal_provider.chat_turn user_input backend self) = Raises UnboundLocalError
      /\ transcript_of (snd (terminal_provider.chat_turn user_input backend self))
         = transcript_of self
           ++ [(user_name self ++ ": " ++ user_input ++ String newline EmptyString)%string]).
Proof.
  assert (Hshape : forall backend',
    terminal_provider.chat_turn user_input backend' self
    = match on_memories (append_message
                           (user_name self ++ ": " ++ user_input
                            ++ String newline EmptyString)%string
                           (tokenizer self) true) self with
      | (Returns _, s1) =>
          match on_memories (get_encoded_chat_history (tokenizer self)) s1 with
          | (Returns encoded, s2) =>
              (Raises UnboundLocalError, set_serial_chat_history encoded s2)
          | (Raises e, s2) => (Raises e, s2)
          end
      | (Raises e, s1) => (Raises e, s1)
      end).
  { intros backend'. unfold terminal_provider.chat_turn, bind, get.
    destruct (on_memories (append_message _ (tokenizer self) true) self) as [[[]|e1] s1];
      [|reflexivity].
    destruct (on_memories (get_encoded_chat_history (tokenizer self)) s1) as [[enc|e2] s2];
      reflexivity. }
  split; [|split].
  - intros backend'. now rewrite !Hshape.
  - rewrite Hshape.
    destruct (on_memories (append_message _ (tokenizer self) true) self) as [[[]|e1] s1];
      [|now exists e1].
    destruct (on_memories (get_encoded_chat_history (tokenizer self)) s1) as [[enc|e2] s2];
      [now exists UnboundLocalError | now exists e2].
  - intros Hno. rewrite Hshape. unfold on_memories, zoom.
    rewrite append_message_no_cycler by exact Hno. cbn [memories set_memories].
    destruct (get_encoded_chat_history_returns (tokenizer self)
                (set_chat_history
                   (chat_history (memories self)
                    ++ [(user_name self ++ ": " ++ user_input
                         ++ String newline EmptyString)%string])
                   (memories self))) as [encoded Henc].
    rewrite Henc. split; reflexivity.
Qed.

End Surfaces.

Lemma send_discord_message_commits_witness :
  let self := examples.bot "none" 10 ["a"%string] in
  let backend := fun _ : string => provider.Responded 200 (Some (PStr "W1s3Miw3M11d")) in
  fst (discord_provider.send_discord_message examples.hello backend self) = Returns tt
  /\ coordinator.transcript_of
       (snd (discord_provider.send_discord_message examples.hello backend self))
     = coordinator.transcript_of self
       ++ [(discord_provider.author_name examples.hello ++ ": "
            ++ discord_provider.content examples.hello
            ++ String newline EmptyString)%string;
           (provider.bot_name self ++ ": " ++ "HI")%string].
Proof.
  cbv zeta.
  apply (send_discord_message_commits
           (fun _ : string => provider.Responded 200 (Some (PStr "W1s3Miw3M11d")))
           examples.hello (examples.bot "none" 10 ["a"%string])
           (snd (coordinator.issue_request examples.hello
                   (examples.bot "none" 10 ["a"%string])))
           (match fst (coordinator.issue_request examples.hello
                         (examples.bot "none" 10 ["a"%string])) with
            | Returns e => e
            | Raises _ => EmptyString
            end)
           "W1s3Miw3M11d"%string "HI"%string (PList [PList [PInt 72; PInt 73]])).
  - reflexivity.
  - vm_compute. reflexivity.
  - reflexivity.
  - reflexivity.
  - vm_compute. reflexivity.
  - vm_compute. reflexivity.
Defined.

Lemma autocomplete_transcript_witness :
  let self := examples.bot "none" 10 ["a"%string] in
  let backend := fun _ : string => provider.Responded 200 (Some (PStr "W1s3Miw3M11d")) in
  fst (discord_provider.autocomplete examples.slash backend self) = Returns tt
  /\ coordinator.transcript_of (snd (discord_provider.autocomplete examples.slash backend self))
     = coordinator.transcript_of self.
Proof.
  cbv zeta.
  apply (proj1
           (autocomplete_transcript
              (fun _ : string => provider.Responded 200 (Some (PStr "W1s3Miw3M11d")))
              examples.slash (examples.bot "none" 10 ["a"%string])
              (match fst (memory_handler.get_encoded_chat_history examples.char_tokenizer
                            (examples.handler "none" 10 ["a"%string; "u:"%string])) with
               | Returns e => e
               | Raises _ => EmptyString
               end)
              (PStr "W1s3Miw3M11d")
              eq_refl
              ltac:(discriminate)
              ltac:(vm_compute; reflexivity)
              eq_refl)
           "W1s3Miw3M11d"%string (PList [PList [PInt 72; PInt 73]]) "HI"%string).
  - reflexivity.
  - reflexivity.
  - vm_compute. reflexivity.
  - vm_compute. reflexivity.
Defined.

Lemma chat_turn_never_sends_witness :
  fst (terminal_provider.chat_turn "hi" (fun _ => provider.Responded 200 (Some PNone))
         (examples.bot "none" 10 []))
  = Raises UnboundLocalError
  /\ coordinator.transcript_of
       (snd (terminal_provider.chat_turn "hi" (fun _ => provider.Responded 200 (Some PNone))
               (examples.bot "none" 10 [])))
     = coordinator.transcript_of (examples.bot "none" 10 [])
       ++ [(provider.user_name (examples.bot "none" 10 []) ++ ": " ++ "hi"
            ++ String newline EmptyString)%string].
Proof.
  apply (proj2 (proj2 (chat_turn_never_sends "hi"%string
                         (fun _ => provider.Responded 200 (Some PNone))
                         (examples.bot "none" 10 [])))).
  reflexivity.
Defined.

(* ================================================================== *)
(** * Properties of flatten_nested_dictionary *)
(* ================================================================== *)

Section Flatten.

Import dicts flattening nesting.

Lemma flatten_dict_eq (d : dict) :
  flatten_nested_dictionary (PDict d) =
  match flatten_items flatten_nested_dictionary d [] with
  | Returns out => Returns (PDict out)
  | Raises e => Raises e
  end.
Proof. reflexivity. Qed.

Lemma flatten_scalar (v : pyval) :
  scalar v = true -> flatten_nested_dictionary v = Returns v.
Proof. destruct v; simpl; congruence. Qed.

Lemma keys_dict_set (key : string) (v : pyval) (d : dict) (k : string) :
  In k (keys (dict_set key v d)) <-> k = key \/ In k (keys d).
Proof.
  induction d as [|[k0 v0] d IH]; simpl.
  - intuition congruence.
  - destruct (String.eqb_spec key k0) as [->|Hne]; simpl.
    + intuition congruence.
    + rewrite IH. intuition congruence.
Qed.

Lemma keys_dict_update (items d : dict) (k : string) :
  In k (keys (dict_update d items)) <-> In k (keys d) \/ In k (keys items).
Proof.
  unfold dict_update. revert d.
  induction items as [|[k0 v0] items IH]; intros d; simpl.
  - intuition.
  - rewrite IH, keys_dict_set. intuition congruence.
Qed.


Lemma leaf_entries (k : string) (d : dict) :
  leaf k (PDict d) <-> exists kv, In kv d /\ leaf_entry k kv.
Proof.
  split.
  - intros H. inversion H; subst.
    + exists (k, v). split; [assumption|]. left. now split.
    + exists (k', PDict d'). split; [assumption|]. right. left. now exists d'.
    + exists (k', PList l). split; [assumption|]. right. right.
      now exists l, d'.
  - intros [[k0 v0] [Hin [[Hk Hs]|[[d' [Hv Hl]]|[l [d' [Hv [Hin' Hl]]]]]]]];
      simpl in *; subst.
    + eapply leaf_here; eassumption.
    + eapply leaf_dict; eassumption.
    + eapply leaf_list; eassumption.
Qed.

Lemma leaf_cons (k : string) (kv : string * pyval) (d : dict) :
  leaf k (PDict (kv :: d)) <-> leaf_entry k kv \/ leaf k (PDict d).
Proof.
  rewrite !leaf_entries. split.
  - intros [kv' [[<-|Hin] H]]; [now left|right; now exists kv'].
  - intros [H|[kv' [Hin H]]].
    + exists kv. split; [now left|assumption].
    + exists kv'. split; [now right|assumption].
Qed.

Lemma leaf_is_dict (k : string) (v : pyval) : leaf k v -> exists d, v = PDict d.
Proof. intros H; inversion H; eauto. Qed.

Lemma flatten_subdicts_keys (l : list pyval) :
  Forall keys_spec l ->
  forall out0 out,
    flatten_subdicts flatten_nested_dictionary l out0 = Returns out ->
    forall k, In k (keys out) <->
              In k (keys out0) \/ exists d', In (PDict d') l /\ leaf k (PDict d').
Proof.
  induction 1 as [|x l Hx Hl IH]; intros out0 out Hrun k; simpl in Hrun.
  - injection Hrun as <-. split; [now left|]. intros [H|[d' [[] _]]]. exact H.
  - assert (Hskip : flatten_subdicts flatten_nested_dictionary l out0 = Returns out ->
                    scalar x = true ->
                    In k (keys out) <->
                    In k (keys out0) \/
                    exists d', In (PDict d') (x :: l) /\ leaf k (PDict d')).
    { intros Hrun' Hs. rewrite (IH _ _ Hrun' k). split.
      - intros [H|[d' [Hin H]]]; [now left|right; exists d'; split; [now right|exact H]].
      - intros [H|[d' [[->|Hin] H]]]; [now left|discriminate|right; now exists d']. }
    destruct x as [| | | |l'|d']; try (apply Hskip; [exact Hrun|reflexivity]).
    + discriminate.
    + unfold update_with in Hrun.
      destruct (flatten_nested_dictionary (PDict d')) as [[| | | |?|items]|e] eqn:Hd';
        try discriminate.
      rewrite (IH _ _ Hrun k), keys_dict_update, (Hx _ Hd' k). split.
      * intros [[H|H]|[d2 [Hin H]]].
        -- now left.
        -- right. exists d'. split; [now left|exact H].
        -- right. exists d2. split; [now right|exact H].
      * intros [H|[d2 [[Heq|Hin] H]]].
        -- left. now left.
        -- injection Heq as <-. left. now right.
        -- right. now exists d2.
Qed.

Lemma flatten_items_keys (d : dict) :
  Forall (fun kv => keys_spec (snd kv) /\
                    match snd kv with PList l => Forall keys_spec l | _ => True end) d ->
  forall out0 out,
    flatten_items flatten_nested_dictionary d out0 = Returns out ->
    forall k, In k (keys out) <-> In k (keys out0) \/ leaf k (PDict d).
Proof.
  induction 1 as [|[key val] d [Hval Hlist] Hd IH]; intros out0 out Hrun k;
    simpl in Hrun.
  - injection Hrun as <-. split; [now left|]. intros [H|H]; [exact H|].
    apply leaf_entries in H. now destruct H as [kv [[] _]].
  - rewrite leaf_cons. unfold leaf_entry. simpl in *.
    assert (Hscalar : flatten_items flatten_nested_dictionary d (dict_set key val out0)
                      = Returns out -> scalar val = true ->
                      In k (keys out) <->
                      In k (keys out0) \/
                      ((k = key /\ scalar val = true) \/
                       (exists d', val = PDict d' /\ leaf k (PDict d')) \/
                       (exists l d', val = PList l /\ In (PDict d') l /\ leaf k (PDict d')))
                      \/ leaf k (PDict d)).
    { intros Hrun' Hs. rewrite (IH _ _ Hrun' k), keys_dict_set. split.
      - intros [[->|H]|H]; [right; left; left; now split|now left|now right; right].
      - intros [H|[[[-> _]|[[d' [-> _]]|[l [d' [-> _]]]]]|H]];
          try discriminate; [left; now right|left; now left|now right]. }
    destruct val as [| | | |l|d0]; try (apply Hscalar; [exact Hrun|reflexivity]).
    + destruct (flatten_subdicts flatten_nested_dictionary l out0) as [out1|e] eqn:Hl;
        [|discriminate].
      rewrite (IH _ _ Hrun k), (flatten_subdicts_keys _ Hlist _ _ Hl k). split.
      * intros [[H|[d' [Hin H]]]|H]; [now left| |now right; right].
        right. left. right. right. now exists l, d'.
      * intros [H|[[[_ Hs]|[[d' [Hv _]]|[l0 [d' [Hv [Hin H]]]]]]|H]];
          try discriminate; [left; now left| |now right].
        injection Hv as <-. left. right. now exists d'.
    + unfold update_with in Hrun.
      destruct (flatten_nested_dictionary (PDict d0)) as [[| | | |?|items]|e] eqn:Hd0;
        try discriminate.
      rewrite (IH _ _ Hrun k), keys_dict_update, (Hval _ Hd0 k). split.
      * intros [[H|H]|H]; [now left| |now right; right].
        right. left. right. left. now exists d0.
      * intros [H|[[[_ Hs]|[[d' [Hv H]]|[l0 [d' [Hv _]]]]]|H]];
          try discriminate; [left; now left| |now right].
        injection Hv as <-. left. now right.
Qed.

Lemma keys_spec_all (v : pyval) :
  keys_spec v /\ match v with PList l => Forall keys_spec l | _ => True end.
Proof.
  induction v as [| | | |l IH|d IH] using pyval_nested_ind;
    try (split; [intros out H; discriminate|exact I]).
  - split; [intros out H; discriminate|].
    eapply Forall_impl; [|exact IH]. now intros x [H _].
  - split; [|exact I]. intros out H k. rewrite flatten_dict_eq in H.
    destruct (flatten_items flatten_nested_dictionary d []) as [out'|e] eqn:Hrun;
      [|discriminate].
    injection H as <-.
    rewrite (flatten_items_keys _ IH _ _ Hrun k). simpl. intuition.
Qed.

(** What [flatten_nested_dictionary] returns on a dict is a dict. *)
Lemma flatten_dict_returns_dict (d : dict) (w : pyval) :
  flatten_nested_dictionary (PDict d) = Returns w -> exists out, w = PDict out.
Proof.
  rewrite flatten_dict_eq.
  destruct (flatten_items flatten_nested_dictionary d []); [|discriminate].
  intros H. injection H as <-. eauto.
Qed.

(** The keys of what [flatten_nested_dictionary] returns on a dict are
    exactly the keys that carry a scalar somewhere in it: in the dict
    itself, in a dict that is one of its values, or in a dict that is an
    element of one of its list values, at any depth.  Keys of dicts and
    lists themselves, and the scalars of a list, are not kept. *)
Theorem flatten_nested_dictionary_keys (d : dict) (w : pyval) :
  flatten_nested_dictionary (PDict d) = Returns w ->
  exists out, w = PDict out /\ forall k, In k (keys out) <-> leaf k (PDict d).
Proof.
  intros H. destruct (flatten_dict_returns_dict _ _ H) as [out ->].
  exists out. split; [reflexivity|]. intros k.
  exact (proj1 (keys_spec_all (PDict d)) out H k).
Qed.


(** ** The result is flat, and flattening it again changes nothing *)

Lemma nodup_keys_dict_set (key : string) (v : pyval) (d : dict) :
  NoDup (keys d) -> NoDup (keys (dict_set key v d)).
Proof.
  induction d as [|[k0 v0] d IH]; simpl; intros Hnd.
  - constructor; [intros []|constructor].
  - inversion Hnd as [|? ? Hnotin Hnd']; subst.
    destruct (String.eqb_spec key k0) as [->|Hne]; simpl.
    + now constructor.
    + constructor; [|now apply IH].
      intros Hin. apply keys_dict_set in Hin. destruct Hin as [->|Hin]; tauto.
Qed.

Lemma scalars_dict_set (key : string) (v : pyval) (d : dict) :
  scalar v = true ->
  Forall (fun kv => scalar (snd kv) = true) d ->
  Forall (fun kv => scalar (snd kv) = true) (dict_set key v d).
Proof.
  intros Hv. induction 1 as [|[k0 v0] d H0 Hd IH]; simpl.
  - now repeat constructor.
  - destruct (String.eqb key k0); constructor; assumption.
Qed.

Lemma flat_dict_set (key : string) (v : pyval) (d : dict) :
  scalar v = true -> flat d -> flat (dict_set key v d).
Proof.
  intros Hv [Hnd Hs]. split;
    [now apply nodup_keys_dict_set|now apply scalars_dict_set].
Qed.

Lemma flat_dict_update (items d : dict) :
  Forall (fun kv => scalar (snd kv) = true) items -> flat d ->
  flat (dict_update d items).
Proof.
  unfold dict_update. intros H. revert d.
  induction H as [|[k v] items Hv Hitems IH]; intros d Hd; simpl;
    [assumption|].
  apply IH. now apply flat_dict_set.
Qed.

Lemma flatten_subdicts_flat (l : list pyval) :
  Forall flat_spec l ->
  forall out0 out,
    flatten_subdicts flatten_nested_dictionary l out0 = Returns out ->
    flat out0 -> flat out.
Proof.
  induction 1 as [|x l Hx Hl IH]; intros out0 out Hrun Hflat; simpl in Hrun.
  - now injection Hrun as <-.
  - destruct x as [| | | |l'|d']; try (eapply IH; eassumption).
    + discriminate.
    + unfold update_with in Hrun.
      destruct (flatten_nested_dictionary (PDict d')) as [[| | | |?|items]|e] eqn:Hd';
        try discriminate.
      eapply IH; [exact Hrun|]. apply flat_dict_update; [|assumption].
      exact (proj2 (Hx _ Hd')).
Qed.

Lemma flatten_items_flat (d : dict) :
  Forall (fun kv => flat_spec (snd kv) /\
                    match snd kv with PList l => Forall flat_spec l | _ => True end) d ->
  forall out0 out,
    flatten_items flatten_nested_dictionary d out0 = Returns out ->
    flat out0 -> flat out.
Proof.
  induction 1 as [|[key val] d [Hval Hlist] Hd IH]; intros out0 out Hrun Hflat;
    simpl in *.
  - now injection Hrun as <-.
  - destruct val as [| | | |l|d0];
      try (eapply IH; [exact Hrun|now apply flat_dict_set]).
    + destruct (flatten_subdicts flatten_nested_dictionary l out0) as [out1|e] eqn:Hl;
        [|discriminate].
      eapply IH; [exact Hrun|]. eapply flatten_subdicts_flat; eassumption.
    + unfold update_with in Hrun.
      destruct (flatten_nested_dictionary (PDict d0)) as [[| | | |?|items]|e] eqn:Hd0;
        try discriminate.
      eapply IH; [exact Hrun|]. apply flat_dict_update; [|assumption].
      exact (proj2 (Hval _ Hd0)).
Qed.

Lemma flat_nil : flat [].
Proof. split; constructor. Qed.

Lemma flat_spec_all (v : pyval) :
  flat_spec v /\ match v with PList l => Forall flat_spec l | _ => True end.
Proof.
  induction v as [| | | |l IH|d IH] using pyval_nested_ind;
    try (split; [intros out H; discriminate|exact I]).
  - split; [intros out H; discriminate|].
    eapply Forall_impl; [|exact IH]. now intros x [H _].
  - split; [|exact I]. intros out H. rewrite flatten_dict_eq in H.
    destruct (flatten_items flatten_nested_dictionary d []) as [out'|e] eqn:Hrun;
      [|discriminate].
    injection H as <-.
    eapply flatten_items_flat; [exact IH|exact Hrun|exact flat_nil].
Qed.

Lemma flatten_items_scalars (d : dict) :
  Forall (fun kv => scalar (snd kv) = true) d ->
  forall out0,
    flatten_items flatten_nested_dictionary d out0 = Returns (dict_update out0 d).
Proof.
  induction 1 as [|[key val] d Hval Hd IH]; intros out0; simpl; [reflexivity|].
  simpl in Hval. destruct val; try discriminate; apply IH.
Qed.

Lemma dict_set_fresh (key : string) (v : pyval) (d : dict) :
  ~ In key (keys d) -> dict_set key v d = d ++ [(key, v)].
Proof.
  induction d as [|[k0 v0] d IH]; simpl; intros Hnotin; [reflexivity|].
  destruct (String.eqb_spec key k0) as [->|Hne]; [tauto|].
  rewrite IH; [reflexivity|tauto].
Qed.

Lemma dict_update_fresh (items : dict) :
  NoDup (keys items) ->
  forall d, (forall k, In k (keys items) -> ~ In k (keys d)) ->
            dict_update d items = d ++ items.
Proof.
  unfold dict_update.
  induction items as [|[k v] items IH]; intros Hnd d Hfresh; simpl.
  - now rewrite app_nil_r.
  - simpl in Hnd. inversion Hnd as [|? ? Hnotin Hnd']; subst.
    rewrite dict_set_fresh by (apply Hfresh; now left).
    rewrite IH; [now rewrite <- app_assoc|assumption|].
    intros k0 Hin Hin'. unfold keys in Hin'. rewrite map_app in Hin'.
    apply in_app_or in Hin'. destruct Hin' as [Hin'|[<-|[]]].
    + apply (Hfresh k0); [now right|exact Hin'].
    + exact (Hnotin Hin).
Qed.

Lemma flatten_flat (d : dict) :
  flat d -> flatten_nested_dictionary (PDict d) = Returns (PDict d).
Proof.
  intros [Hnd Hs]. rewrite flatten_dict_eq, (flatten_items_scalars _ Hs).
  rewrite dict_update_fresh; [reflexivity|assumption|]. intros k _ [].
Qed.

(** What [flatten_nested_dictionary] returns is flat: given to the
    function again, it comes back as it is. *)
Theorem flatten_nested_dictionary_idempotent (v w : pyval) :
  flatten_nested_dictionary v = Returns w ->
  flatten_nested_dictionary w = Returns w.
Proof.
  intros H. destruct v as [| | | |l|d];
    try (injection H as <-; reflexivity); [discriminate|].
  destruct (flatten_dict_returns_dict _ _ H) as [out ->].
  apply flatten_flat. exact (proj1 (flat_spec_all (PDict d)) out H).
Qed.

(** ** When it raises *)

Lemma flatten_subdicts_raise (l : list pyval) :
  Forall raise_spec l ->
  forall out0 e,
    flatten_subdicts flatten_nested_dictionary l out0 = Raises e ->
    e = AttributeError /\
    ((exists l', In (PList l') l) \/
     (exists d', In (PDict d') l /\ list_in_list (PDict d'))).
Proof.
  induction 1 as [|x l Hx Hl IH]; intros out0 e Hrun; simpl in Hrun;
    [discriminate|].
  assert (Hnext : forall out1,
             flatten_subdicts flatten_nested_dictionary l out1 = Raises e ->
             e = AttributeError /\
             ((exists l', In (PList l') (x :: l)) \/
              (exists d', In (PDict d') (x :: l) /\ list_in_list (PDict d')))).
  { intros out1 H. destruct (IH _ _ H) as [-> [[l' Hin]|[d' [Hin Hd']]]].
    - split; [reflexivity|]. left. exists l'. now right.
    - split; [reflexivity|]. right. exists d'. split; [now right|exact Hd']. }
  destruct x as [| | | |l'|d']; try (eapply Hnext; exact Hrun).
  - injection Hrun as <-. split; [reflexivity|]. left. exists l'. now left.
  - unfold update_with in Hrun.
    destruct (flatten_nested_dictionary (PDict d')) as [w|e'] eqn:Hd'.
    + destruct (flatten_dict_returns_dict _ _ Hd') as [items ->].
      eapply Hnext; exact Hrun.
    + injection Hrun as <-. destruct (Hx _ Hd') as [-> Hlil].
      split; [reflexivity|]. right. exists d'. split; [now left|exact (Hlil d' eq_refl)].
Qed.

Lemma flatten_items_raise (d : dict) :
  Forall (fun kv => raise_spec (snd kv) /\
                    match snd kv with PList l => Forall raise_spec l | _ => True end) d ->
  forall out0 e,
    flatten_items flatten_nested_dictionary d out0 = Raises e ->
    e = AttributeError /\ list_in_list (PDict d).
Proof.
  induction 1 as [|[key val] d [Hval Hlist] Hd IH]; intros out0 e Hrun;
    simpl in *; [discriminate|].
  assert (Hnext : forall out1,
             flatten_items flatten_nested_dictionary d out1 = Raises e ->
             e = AttributeError /\ list_in_list (PDict ((key, val) :: d))).
  { intros out1 H. destruct (IH _ _ H) as [-> Hlil]. split; [reflexivity|].
    inversion Hlil; subst.
    - eapply lil_here; [right; eassumption|eassumption].
    - eapply lil_dict; [right; eassumption|eassumption].
    - eapply lil_list; [right; eassumption|eassumption|eassumption]. }
  destruct val as [| | | |l|d0]; try (eapply Hnext; exact Hrun).
  - destruct (flatten_subdicts flatten_nested_dictionary l out0) as [out1|e'] eqn:Hl.
    + eapply Hnext; exact Hrun.
    + injection Hrun as <-.
      destruct (flatten_subdicts_raise _ Hlist _ _ Hl) as [-> [[l' Hin]|[d' [Hin Hd']]]];
        (split; [reflexivity|]).
      * eapply lil_here; [left; reflexivity|exact Hin].
      * eapply lil_list; [left; reflexivity|exact Hin|exact Hd'].
  - unfold update_with in Hrun.
    destruct (flatten_nested_dictionary (PDict d0)) as [w|e'] eqn:Hd0.
    + destruct (flatten_dict_returns_dict _ _ Hd0) as [items ->].
      eapply Hnext; exact Hrun.
    + injection Hrun as <-. destruct (Hval _ Hd0) as [-> Hlil].
      split; [reflexivity|].
      eapply lil_dict; [left; reflexivity|exact (Hlil d0 eq_refl)].
Qed.

Lemma raise_spec_all (v : pyval) :
  raise_spec v /\ match v with PList l => Forall raise_spec l | _ => True end.
Proof.
  induction v as [| | | |l IH|d IH] using pyval_nested_ind;
    try (split; [intros e H; discriminate|exact I]).
  - split.
    + intros e H. injection H as <-. split; [reflexivity|discriminate].
    + eapply Forall_impl; [|exact IH]. now intros x [H _].
  - split; [|exact I]. intros e H. rewrite flatten_dict_eq in H.
    destruct (flatten_items flatten_nested_dictionary d []) as [out'|e'] eqn:Hrun;
      [discriminate|].
    injection H as <-.
    destruct (flatten_items_raise _ IH _ _ Hrun) as [-> Hlil].
    split; [reflexivity|]. now intros d0 _.
Qed.

Lemma flatten_subdicts_raises_at (x : pyval) (l : list pyval) :
  In x l ->
  (exists e, flatten_nested_dictionary x = Raises e) ->
  forall out0, exists e,
    flatten_subdicts flatten_nested_dictionary l out0 = Raises e.
Proof.
  intros Hin [e0 Hx]. induction l as [|y l IH]; intros out0; [destruct Hin|].
  simpl. destruct Hin as [->|Hin].
  - destruct x as [| | | |l'|d']; try discriminate; unfold update_with;
      rewrite Hx; eauto.
  - destruct y as [| | | |l'|d']; try (now apply IH).
    + eexists. reflexivity.
    + unfold update_with.
      destruct (flatten_nested_dictionary (PDict d')) as [[| | | |?|?]|?];
        eauto.
Qed.

Lemma flatten_items_raises_at (key : string) (val : pyval) (d : dict) :
  In (key, val) d ->
  match val with
  | PDict _ => exists e, flatten_nested_dictionary val = Raises e
  | PList l => forall out0, exists e,
                 flatten_subdicts flatten_nested_dictionary l out0 = Raises e
  | _ => False
  end ->
  forall out0, exists e, flatten_items flatten_nested_dictionary d out0 = Raises e.
Proof.
  intros Hin Hval. induction d as [|[k0 v0] d IH]; intros out0; [destruct Hin|].
  simpl. destruct Hin as [Heq|Hin].
  - injection Heq as -> ->. destruct val as [| | | |l|d0]; try contradiction.
    + destruct (Hval out0) as [e ->]. eauto.
    + destruct Hval as [e He]. unfold update_with. rewrite He. eauto.
  - destruct v0 as [| | | |l|d0]; try (now apply IH).
    + destruct (flatten_subdicts flatten_nested_dictionary l out0); eauto.
    + unfold update_with.
      destruct (flatten_nested_dictionary (PDict d0)) as [[| | | |?|?]|?];
        eauto.
Qed.

Lemma list_in_list_raises (v : pyval) :
  list_in_list v -> exists e, flatten_nested_dictionary v = Raises e.
Proof.
  induction 1 as [d k l l' Hin Hin'|d k d' Hin Hd' IH|d k l d' Hin Hin' Hd' IH];
    rewrite flatten_dict_eq.
  - destruct (flatten_items_raises_at _ _ _ Hin) with (out0 := @nil (string * pyval))
      as [e ->]; [|eauto].
    intros out0. eapply flatten_subdicts_raises_at; [exact Hin'|].
    exists AttributeError. reflexivity.
  - destruct (flatten_items_raises_at _ _ _ Hin) with (out0 := @nil (string * pyval))
      as [e ->]; [|eauto].
    exact IH.
  - destruct (flatten_items_raises_at _ _ _ Hin) with (out0 := @nil (string * pyval))
      as [e ->]; [|eauto].
    intros out0. eapply flatten_subdicts_raises_at; [exact Hin'|exact IH].
Qed.

(** [flatten_nested_dictionary] raises on a dict exactly when a list
    reached from it has a list among its elements: the recursive call then
    asks a list for its [items]. *)
Theorem flatten_nested_dictionary_raises (d : dict) :
  (exists e, flatten_nested_dictionary (PDict d) = Raises e) <->
  list_in_list (PDict d).
Proof.
  split.
  - intros [e H]. exact (proj2 (proj1 (raise_spec_all (PDict d)) e H) d eq_refl).
  - apply list_in_list_raises.
Qed.

End Flatten.

(* ================================================================== *)
(** * Properties of the settings handler *)
(* ================================================================== *)

Section SettingsHandler.

Import dicts flattening nesting settings_handler memory_handler_settings.

Lemma dict_has_keys (key : string) (d : dict) :
  dict_has key d = true <-> In key (keys d).
Proof.
  unfold dict_has. induction d as [|[k v] d IH]; simpl.
  - split; [discriminate|intros []].
  - destruct (String.eqb_spec key k) as [->|Hne].
    + split; [now left|reflexivity].
    + rewrite IH. split; [now right|]. intros [H|H]; [congruence|exact H].
Qed.

Lemma dict_get_keys (key : string) (d : dict) :
  In key (keys d) <-> exists v, dict_get key d = Some v.
Proof.
  rewrite <- dict_has_keys. unfold dict_has.
  destruct (dict_get key d); split; eauto; try discriminate.
  intros [v H]; discriminate.
Qed.

Lemma exit_unless_all_dict (names : list string) (d : dict) :
  exit_unless_all names (PDict d) = Done tt <->
  forall name, In name names -> In name (keys d).
Proof.
  induction names as [|n names IH]; simpl.
  - split; [intros _ name []|reflexivity].
  - destruct (dict_has n d) eqn:Hn; simpl.
    + rewrite IH. apply dict_has_keys in Hn. split.
      * intros H name [<-|Hin]; [exact Hn|now apply H].
      * intros H name Hin. apply H. now right.
    + split; [discriminate|]. intros H.
      assert (Hin : In n (keys d)) by (apply H; now left).
      apply dict_has_keys in Hin. congruence.
Qed.

(** The two checks of the constructor both pass on a dict exactly when the
    five groups are keys of the dict, no list reached from it has a list
    among its elements, and each of the eight settings is the key of a
    scalar at any depth, in whichever group.  [token] and [main_guild_id]
    are asked for only when the value of [provider_settings] is itself the
    string [discord]. *)
Theorem verify_settings_accepts (d : dict) :
  (verify_settings_group_existence (PDict d) = Done tt /\
   verify_settings_existence (PDict d) = Done tt) <->
  ((forall group, In group vital_settings_group_list -> In group (keys d)) /\
   ~ list_in_list (PDict d) /\
   (forall setting, In setting vital_settings_list -> leaf setting (PDict d)) /\
   (dict_get "provider_settings" d = Some (PStr "discord") ->
    forall setting, In setting necessary_discord_settings_list ->
                    leaf setting (PDict d))).
Proof.
  unfold verify_settings_group_existence, verify_settings_existence.
  rewrite exit_unless_all_dict.
  destruct (flatten_nested_dictionary (PDict d)) as [w|e] eqn:Hflat;
    cbn [of_completion and_then].
  - destruct (flatten_nested_dictionary_keys _ _ Hflat) as [out [-> Hkeys]].
    assert (Hnl : ~ list_in_list (PDict d)).
    { intros H. apply flatten_nested_dictionary_raises in H.
      destruct H as [e He]. congruence. }
    assert (Hall : forall names,
               exit_unless_all names (PDict out) = Done tt <->
               forall name, In name names -> leaf name (PDict d)).
    { intros names. rewrite exit_unless_all_dict. split; intros H name Hin.
      - apply Hkeys. now apply H.
      - apply Hkeys. now apply H. }
    split.
    + intros [Hgroups Hrun]. split; [exact Hgroups|]. split; [exact Hnl|].
      destruct (exit_unless_all vital_settings_list (PDict out)) as [[]|r] eqn:Hvital;
        cbn [and_then] in Hrun; [|discriminate].
      split; [now apply Hall|]. intros Hps.
      cbn [subscript] in Hrun. rewrite Hps in Hrun.
      cbn [and_then eq_str] in Hrun. rewrite String.eqb_refl in Hrun.
      now apply Hall.
    + intros [Hgroups [_ [Hvital Hdiscord]]]. split; [exact Hgroups|].
      apply Hall in Hvital. rewrite Hvital. cbn [and_then subscript].
      assert (Hin : In "provider_settings"%string (keys d)).
      { apply Hgroups. simpl. tauto. }
      apply dict_get_keys in Hin. destruct Hin as [ps Hps]. rewrite Hps.
      cbn [and_then].
      destruct (eq_str ps "discord") eqn:Heq; [|reflexivity].
      apply Hall. apply Hdiscord. rewrite Hps. f_equal.
      destruct ps; try discriminate. cbn [eq_str] in Heq.
      apply String.eqb_eq in Heq. now subst.
  - split; [intros [_ H]; discriminate|]. intros [_ [Hnl _]]. exfalso.
    apply Hnl. apply flatten_nested_dictionary_raises. eauto.
Qed.

(** ** The merged generation settings *)

Lemma dict_get_dict_set (k key : string) (v : pyval) (d : dict) :
  dict_get k (dict_set key v d) =
  if String.eqb k key then Some v else dict_get k d.
Proof.
  induction d as [|[k0 v0] d IH]; simpl.
  - reflexivity.
  - destruct (String.eqb_spec key k0) as [->|Hne]; simpl.
    + now destruct (String.eqb k k0).
    + rewrite IH. destruct (String.eqb_spec k key) as [->|Hne'].
      * apply String.eqb_neq in Hne. now rewrite Hne.
      * reflexivity.
Qed.

Lemma dict_get_not_in (k : string) (d : dict) :
  ~ In k (keys d) -> dict_get k d = None.
Proof.
  intros H. destruct (dict_get k d) eqn:Hget; [|reflexivity].
  exfalso. apply H. apply dict_get_keys. eauto.
Qed.

Lemma dict_get_dict_update (k : string) (items : dict) :
  NoDup (keys items) ->
  forall d, dict_get k (dict_update d items) =
            match dict_get k items with
            | Some v => Some v
            | None => dict_get k d
            end.
Proof.
  unfold dict_update.
  induction items as [|[k0 v0] items IH]; intros Hnd d; simpl; [reflexivity|].
  simpl in Hnd. inversion Hnd as [|? ? Hnotin Hnd']; subst.
  rewrite IH by assumption. rewrite dict_get_dict_set.
  destruct (String.eqb_spec k k0) as [->|Hne]; [|reflexivity].
  now rewrite (dict_get_not_in _ _ Hnotin).
Qed.

(** [retrieve_consolidated_generation_settings] on settings with both
    groups: a key of the syntax settings has the value it has there, any
    other key the value of the sampler settings. *)
Theorem consolidated_settings_lookup (d generation sampler syntax : dict) :
  dict_get "generation_settings" d = Some (PDict generation) ->
  dict_get "sampler_settings" generation = Some (PDict sampler) ->
  dict_get "syntax_settings" generation = Some (PDict syntax) ->
  NoDup (keys sampler) -> NoDup (keys syntax) ->
  exists merged,
    retrieve_consolidated_generation_settings (PDict d) = Done (PDict merged) /\
    forall k, dict_get k merged =
              match dict_get k syntax with
              | Some v => Some v
              | None => dict_get k sampler
              end.
Proof.
  intros Hgen Hsampler Hsyntax Hnd1 Hnd2.
  unfold retrieve_consolidated_generation_settings.
  cbn [subscript]. rewrite Hgen. cbn [and_then subscript].
  rewrite Hsampler, Hsyntax. cbn [and_then mapping].
  eexists. split; [reflexivity|]. intros k.
  rewrite !dict_get_dict_update by assumption.
  now destruct (dict_get k syntax), (dict_get k sampler).
Qed.

(** ** The defaults *)









(** ** The words to bias *)

Lemma bias_word_outcome (encode : pyval -> completion (list Z)) (word bias : pyval) :
  bias_word encode word bias
  = match encode word with
    | Raises e => Fail (Exn e)
    | Returns [] => Fail (Exn IndexError)
    | Returns [_] => Fail (Exn AttributeError)
    | Returns (_ :: _ :: _) => Fail (Exn ValueError)
    end.
Proof.
  unfold bias_word. destruct (encode word) as [l|e]; cbn [of_completion and_then];
    [|reflexivity].
  destruct l as [|t1 [|t2 l]]; try reflexivity.
  replace (len (t1 :: t2 :: l) >? 1) with true; [reflexivity|].
  symmetry. apply Z.gtb_lt. rewrite !len_cons. pose proof (len_nonneg l). lia.
Qed.

Lemma bias_processors_skip (encode : pyval -> completion (list Z)) (processors : dict) :
  ~ In "logit_bias"%string (keys processors) ->
  bias_processors encode processors = Done tt.
Proof.
  induction processors as [|[p vs] processors IH]; intros Hnotin; [reflexivity|].
  cbn [bias_processors]. simpl in Hnotin.
  destruct (String.eqb_spec p "logit_bias") as [->|Hne]; [tauto|].
  cbn [and_then]. apply IH. tauto.
Qed.

Lemma bias_processors_outcome (encode : pyval -> completion (list Z))
      (processors : dict) (processor_values : pyval) :
  NoDup (keys processors) ->
  dict_get "logit_bias" processors = Some processor_values ->
  bias_processors encode processors
  = match dict_items processor_values with
    | Fail r => Fail r
    | Done [] => Done tt
    | Done ((word, bias) :: _) => bias_word encode word bias
    end.
Proof.
  induction processors as [|[p vs] processors IH]; intros Hnd Hget; [discriminate|].
  simpl in Hnd. inversion Hnd as [|? ? Hnotin Hnd']; subst.
  cbn [bias_processors]. cbn [dict_get] in Hget.
  rewrite (String.eqb_sym p "logit_bias").
  destruct (String.eqb_spec "logit_bias" p) as [<-|Hne].
  - injection Hget as ->.
    destruct (dict_items processor_values) as [[|[word bias] words]|r];
      cbn [and_then bias_words].
    + now apply bias_processors_skip.
    + rewrite bias_word_outcome.
      destruct (encode word) as [[|t1 [|t2 l]]|e]; reflexivity.
    + reflexivity.
  - cbn [and_then]. now apply IH.
Qed.

(** With a [logit_bias] processor in the settings, [replace_biased_tokens]
    returns only when [dict] of its value is empty.  It raises what
    [dict] raises; otherwise the first word decides: what the tokenizer
    raises, [ValueError] for a word of several tokens, [IndexError] for a
    word of none, and [AttributeError] for a word of one token, where the
    assignment goes through [settings_object], which [Settings_Handler]
    does not have.  No word is replaced by its token. *)
Theorem replace_biased_tokens_outcome
        (encode : pyval -> completion (list Z))
        (d experimental processors : dict) (processor_values : pyval) :
  dict_get "experimental_settings" d = Some (PDict experimental) ->
  dict_get "experimental_processors" experimental = Some (PDict processors) ->
  NoDup (keys processors) ->
  dict_get "logit_bias" processors = Some processor_values ->
  replace_biased_tokens encode (PDict d)
  = match dict_items processor_values with
    | Fail r => Fail r
    | Done [] => Done tt
    | Done ((word, _) :: _) =>
        match encode word with
        | Raises e => Fail (Exn e)
        | Returns [] => Fail (Exn IndexError)
        | Returns [_] => Fail (Exn AttributeError)
        | Returns (_ :: _ :: _) => Fail (Exn ValueError)
        end
    end.
Proof.
  intros Hexp Hproc Hnd Hget. unfold replace_biased_tokens.
  cbn [keys_contains and_then subscript]. unfold dict_has.
  rewrite Hexp. cbn [and_then keys_contains]. unfold dict_has.
  rewrite Hproc. cbn [and_then subscript]. rewrite Hproc.
  cbn [and_then items].
  rewrite (bias_processors_outcome encode processors processor_values Hnd Hget).
  destruct (dict_items processor_values) as [[|[word bias] words]|r];
    try reflexivity.
  apply bias_word_outcome.
Qed.

End SettingsHandler.

(* ================================================================== *)
(** * Properties of the regenerate command *)
(* ================================================================== *)

Section Regenerate.

Import memory_handler provider discord_provider discord_regenerate.
Import coordinator.

Variable backend : string -> post_outcome.

Lemma nth_error_firstn_2 (A : Type) (l : list A) :
  nth_error (firstn 2 l) 1 = nth_error l 1.
Proof. destruct l as [|a [|b l]]; reflexivity. Qed.

Lemma two_last (A : Type) (l : list A) :
  2 <= len l -> exists base u b, l = base ++ [u; b].
Proof.
  intros H. destruct (rev l) as [|b [|u r]] eqn:Hrev.
  - apply (f_equal (@rev A)) in Hrev. rewrite rev_involutive in Hrev. subst.
    cbn in H. lia.
  - apply (f_equal (@rev A)) in Hrev. rewrite rev_involutive in Hrev. subst.
    cbn in H. lia.
  - apply (f_equal (@rev A)) in Hrev. rewrite rev_involutive in Hrev. subst.
    exists (rev r), u, b. cbn. now rewrite <- app_assoc.
Qed.

(** When [regenerate] accepts the request, it is [send_discord_message]
    for the message the bot had answered, run on the transcript without
    its last two entries, whichever they are. *)
Theorem regenerate_replaces_last_exchange (user_id interaction_user_id : Z)
        (channel : list Channel_Message) (self : Provider)
        (message : Channel_Message) (original : Referenced) :
  2 <= len (transcript_of self) ->
  nth_error channel 1 = Some message ->
  author_id message = user_id ->
  reference message = Some (Some original) ->
  original_author_id original = interaction_user_id ->
  exists base u b,
    transcript_of self = base ++ [u; b]
    /\ regenerate user_id interaction_user_id channel backend self
       = send_discord_message (original_message original) backend
           (set_memories (set_chat_history base (memories self)) self).
Proof.
  intros Hlen Hmessage Hauthor Href Horiginal.
  destruct (two_last _ _ Hlen) as [base [u [b Hh]]].
  exists base, u, b. split; [exact Hh|].
  unfold transcript_of in Hlen, Hh.
  unfold regenerate, bind, get. rewrite nth_error_firstn_2, Hmessage, Href.
  apply Z.ltb_ge in Hlen. rewrite Hlen.
  apply Z.eqb_eq in Hauthor, Horiginal. rewrite Hauthor, Horiginal.
  unfold on_memories, zoom.
  rewrite (pop_memory_last (memories self) (base ++ [u]) b)
    by (rewrite Hh, <- app_assoc; reflexivity).
  cbn [memories set_memories].
  rewrite (pop_memory_last _ base u) by reflexivity.
  reflexivity.
Qed.


End Regenerate.

Lemma flatten_nested_dictionary_keys_witness :
  exists out,
    PDict config_examples.flattened = PDict out
    /\ forall k, In k (dicts.keys out) <-> nesting.leaf k (PDict config_examples.config).
Proof.
  apply (flatten_nested_dictionary_keys config_examples.config
           (PDict config_examples.flattened)).
  vm_compute. reflexivity.
Defined.

Lemma flatten_nested_dictionary_idempotent_witness :
  flattening.flatten_nested_dictionary (PDict config_examples.flattened)
  = Returns (PDict config_examples.flattened).
Proof.
  apply (flatten_nested_dictionary_idempotent (PDict config_examples.config)
           (PDict config_examples.flattened)).
  vm_compute. reflexivity.
Defined.

Lemma consolidated_settings_lookup_witness :
  exists merged,
    settings_handler.retrieve_consolidated_generation_settings
      (PDict config_examples.config) = settings_handler.Done (PDict merged)
    /\ forall k,
         dicts.dict_get k merged
         = match dicts.dict_get k [("max_length"%string, PInt 100)] with
           | Some v => Some v
           | None => dicts.dict_get k [("top_k"%string, PInt 40);
                                       ("max_length"%string, PInt 5)]
           end.
Proof.
  apply (consolidated_settings_lookup config_examples.config
           [("sampler_settings"%string,
             PDict [("top_k"%string, PInt 40); ("max_length"%string, PInt 5)]);
            ("syntax_settings"%string, PDict [("max_length"%string, PInt 100)])]
           [("top_k"%string, PInt 40); ("max_length"%string, PInt 5)]
           [("max_length"%string, PInt 100)]).
  - reflexivity.
  - reflexivity.
  - reflexivity.
  - repeat constructor; simpl; intuition discriminate.
  - repeat constructor; simpl; intuition discriminate.
Defined.


Lemma replace_biased_tokens_outcome_witness :
  settings_handler.replace_biased_tokens config_examples.encode_word
    (PDict config_examples.config)
  = settings_handler.Fail (settings_handler.Exn AttributeError).
Proof.
  apply (replace_biased_tokens_outcome config_examples.encode_word
           config_examples.config
           [("experimental_processors"%string,
             PDict [("logit_bias"%string, PDict [("h"%string, PInt 2)])])]
           [("logit_bias"%string, PDict [("h"%string, PInt 2)])]
           (PDict [("h"%string, PInt 2)])).
  - reflexivity.
  - reflexivity.
  - repeat constructor; simpl; intuition discriminate.
  - reflexivity.
Defined.

Lemma regenerate_replaces_last_exchange_witness :
  let self := examples.bot "none" 10 ["u: hi"%string; "Bot: yo"%string] in
  let backend := fun _ : string => provider.Responded 200 (Some (PStr "W1s3Miw3M11d")) in
  exists base u b,
    coordinator.transcript_of self = base ++ [u; b]
    /\ discord_regenerate.regenerate 1 7 config_examples.channel backend self
       = discord_provider.send_discord_message examples.hello backend
           (provider.set_memories
              (memory_handler.set_chat_history base (provider.memories self)) self).
Proof.
  cbv zeta.
  apply (regenerate_replaces_last_exchange
           (fun _ : string => provider.Responded 200 (Some (PStr "W1s3Miw3M11d")))
           1 7 config_examples.channel
           (examples.bot "none" 10 ["u: hi"%string; "Bot: yo"%string])
           {| discord_regenerate.author_id := 1;
              discord_regenerate.reference :=
                Some (Some {| discord_regenerate.original_author_id := 7;
                              discord_regenerate.original_message := examples.hello |}) |}
           {| discord_regenerate.original_author_id := 7;
              discord_regenerate.original_message := examples.hello |}).
  - vm_compute. discriminate.
  - reflexivity.
  - reflexivity.
  - reflexivity.
  - reflexivity.
Defined.

